(** * Phone-call reminder bot: the time parser, the reminder queue and the
      reminder worker

    A shallow embedding of [TimeParser] (src/utils/timeParser.ts),
    [ReminderQueue.cancelReminder] (src/queue/ReminderQueue.ts) and the retry
    path of [ReminderWorker] (src/worker/ReminderWorker.ts), with the facts
    that hold of them.

    Further on come [ReminderQueue.addReminder], the texts and phone numbers
    of [TwilioService] (src/twilio/TwilioService.ts), the synchronisation of
    [GoogleCalendarService] (src/calendar/GoogleCalendarService.ts), the
    reminder commands of [DiscordBot] (src/bot/DiscordBot.ts), the older
    worker that calls on completed jobs, and the server report that
    [RedisConnection] (src/queue/RedisConnection.ts) reads.

    The program is TypeScript.  Its numbers are IEEE-754 doubles, its strings
    are sequences of code units, [Date] reads the system clock and works in
    the local time zone.  The embedding keeps each of these:
    - [number] is an integer-valued double, an infinity or NaN, and the
      operators of the source round as the machine does ([toNumber]);
    - a string is a Rocq [string], read as code units 0..255 (Latin-1);
    - reading the clock is an effect, threaded through the [Clock] monad;
    - the zone is a parameter [LocalTZA], as in ECMA-262;
    - moment.js, BullMQ and Twilio are outside the repository and appear as
      parameters. *)

From Stdlib Require Import ZArith Bool List Ascii String Lia.
From Stdlib Require Import DecimalString DecimalZ.
From Stdlib Require Import Floats Uint63.
Import ListNotations.

Open Scope string_scope.
Open Scope Z_scope.

(* ================================================================== *)
(** * The JavaScript values the program computes with                  *)
(* ================================================================== *)

Module JS.

(** ** Numbers *)

(** A JavaScript number, as far as this program can produce one: every finite
    value met here is an integer (no operator of the parser yields a
    fraction), so a finite double is the integer it denotes. *)
Inductive number : Type :=
| Num (z : Z)
| PosInf
| NegInf
| NaN.

(** The largest magnitude below which every integer is a double. *)
Definition two53 : Z := 9007199254740992.

(** Finite doubles stay below 2^1024. *)
Definition overflowBound : Z := Z.shiftl 1 1024.

(** Round a non-negative integer to 53 significant bits, ties to even. *)
Definition roundMagnitude (m : Z) : Z :=
  if m <? two53 then m
  else
    let e := Z.log2 m - 52 in
    let q := Z.shiftr m e in
    let r := m - Z.shiftl q e in
    let half := Z.shiftl 1 (e - 1) in
    let q' := if r <? half then q
              else if half <? r then q + 1
              else if Z.even q then q else q + 1 in
    Z.shiftl q' e.

(** The double nearest to a mathematical integer (ECMA-262's 𝔽). *)
Definition toNumber (z : Z) : number :=
  let m := roundMagnitude (Z.abs z) in
  if overflowBound <=? m then (if z <? 0 then NegInf else PosInf)
  else Num (Z.sgn z * m).

(** [a * b] *)
Definition mul (a b : number) : number :=
  match a, b with
  | NaN, _ | _, NaN => NaN
  | Num x, Num y => toNumber (x * y)
  | Num x, PosInf | PosInf, Num x =>
      if x =? 0 then NaN else if 0 <? x then PosInf else NegInf
  | Num x, NegInf | NegInf, Num x =>
      if x =? 0 then NaN else if 0 <? x then NegInf else PosInf
  | PosInf, PosInf | NegInf, NegInf => PosInf
  | PosInf, NegInf | NegInf, PosInf => NegInf
  end.

(** [a + b] *)
Definition add (a b : number) : number :=
  match a, b with
  | NaN, _ | _, NaN => NaN
  | Num x, Num y => toNumber (x + y)
  | PosInf, NegInf | NegInf, PosInf => NaN
  | PosInf, _ | _, PosInf => PosInf
  | NegInf, _ | _, NegInf => NegInf
  end.

(** [- a] *)
Definition neg (a : number) : number :=
  match a with
  | Num x => Num (- x)
  | PosInf => NegInf
  | NegInf => PosInf
  | NaN => NaN
  end.

(** [a - b] *)
Definition sub (a b : number) : number := add a (neg b).

(** [a < b]; any comparison with NaN is false. *)
Definition lt (a b : number) : bool :=
  match a, b with
  | NaN, _ | _, NaN => false
  | Num x, Num y => x <? y
  | NegInf, NegInf => false
  | NegInf, _ => true
  | _, NegInf => false
  | PosInf, _ => false
  | _, PosInf => true
  end.

(** [a <= b] *)
Definition le (a b : number) : bool :=
  match a, b with
  | NaN, _ | _, NaN => false
  | Num x, Num y => x <=? y
  | NegInf, _ => true
  | _, PosInf => true
  | _, NegInf => false
  | PosInf, _ => false
  end.

(** [a > b] *)
Definition gt (a b : number) : bool := lt b a.

(** [a === b] on numbers *)
Definition strictEq (a b : number) : bool :=
  match a, b with
  | Num x, Num y => x =? y
  | PosInf, PosInf | NegInf, NegInf => true
  | _, _ => false
  end.

(** [Math.min(a, b)] *)
Definition mathMin (a b : number) : number :=
  match a, b with
  | NaN, _ | _, NaN => NaN
  | _, _ => if le a b then a else b
  end.

(** [isNaN(a)] *)
Definition isNaN (a : number) : bool :=
  match a with NaN => true | _ => false end.

(** Truthiness of a number: [0] and [NaN] are falsy. *)
Definition truthy (a : number) : bool :=
  match a with
  | Num x => negb (x =? 0)
  | NaN => false
  | _ => true
  end.

(** [a || b] where [a] may be [undefined] *)
Definition orElse (a : option number) (b : number) : number :=
  match a with
  | Some x => if truthy x then x else b
  | None => b
  end.

(** ** The doubles of the machine

    Rocq's primitive floats are IEEE-754 binary64, the numbers JavaScript
    computes with.  They serve to run the rounding of [toNumber] and [mul]
    against the hardware on given values. *)

(** The double nearest to a natural number below 2^63. *)
Definition machineOfZ (z : Z) : float := PrimFloat.of_uint63 (Uint63.of_Z z).

(** The integer that a double denotes, when it denotes one. *)
Definition machineToZ (f : float) : option Z :=
  match Prim2SF f with
  | S754_zero _ => Some 0
  | S754_finite negative m e =>
      let magnitude := if 0 <=? e then Some (Z.pos m * 2 ^ e)
                       else if Z.pos m mod 2 ^ (- e) =? 0
                            then Some (Z.pos m / 2 ^ (- e))
                            else None in
      option_map (fun v => if negative then - v else v) magnitude
  | _ => None
  end.

(** ** Strings *)

Definition code (c : ascii) : Z := Z.of_N (N_of_ascii c).

Definition isDigit (c : ascii) : bool := (48 <=? code c) && (code c <=? 57).

Definition digitValue (c : ascii) : Z := code c - 48.

(** White space and line terminators of ECMA-262 among the code units
    0..255: TAB, LF, VT, FF, CR, SP and NBSP.  It is the set that [trim]
    strips and that [\s] matches. *)
Definition isWhiteSpace (c : ascii) : bool :=
  ((9 <=? code c) && (code c <=? 13)) || (code c =? 32) || (code c =? 160).

(** [String.prototype.toLowerCase], one code unit: A..Z, and the Latin-1
    capitals À..Þ except the multiplication sign. *)
Definition lowerChar (c : ascii) : ascii :=
  let n := code c in
  if ((65 <=? n) && (n <=? 90))
     || ((192 <=? n) && (n <=? 222) && negb (n =? 215))
  then ascii_of_N (Z.to_N (n + 32))
  else c.

Fixpoint toLowerCase (s : string) : string :=
  match s with
  | EmptyString => EmptyString
  | String c s' => String (lowerChar c) (toLowerCase s')
  end.

Fixpoint trimStart (s : string) : string :=
  match s with
  | EmptyString => EmptyString
  | String c s' => if isWhiteSpace c then trimStart s' else s
  end.

Fixpoint trimEnd (s : string) : string :=
  match s with
  | EmptyString => EmptyString
  | String c s' =>
      match trimEnd s' with
      | EmptyString => if isWhiteSpace c then EmptyString
                       else String c EmptyString
      | r => String c r
      end
  end.

(** [String.prototype.trim] *)
Definition trim (s : string) : string := trimEnd (trimStart s).

(** [s.length] *)
Definition strLength (s : string) : number := Num (Z.of_nat (String.length s)).

Fixpoint startsWith (p s : string) : bool :=
  match p, s with
  | EmptyString, _ => true
  | String a p', String b s' => Ascii.eqb a b && startsWith p' s'
  | String _ _, EmptyString => false
  end.

(** [s.includes(p)] *)
Fixpoint includes (s p : string) : bool :=
  startsWith p s ||
  match s with
  | EmptyString => false
  | String _ s' => includes s' p
  end.

(** The longest prefix of decimal digits, and what follows it. *)
Fixpoint spanDigits (s : string) : string * string :=
  match s with
  | EmptyString => (EmptyString, EmptyString)
  | String c s' =>
      if isDigit c
      then let (d, r) := spanDigits s' in (String c d, r)
      else (EmptyString, s)
  end.

Fixpoint allDigits (s : string) : bool :=
  match s with
  | EmptyString => true
  | String c s' => isDigit c && allDigits s'
  end.

(** The integer a digit string denotes in base ten, most significant digit
    first. *)
Fixpoint decimalFrom (acc : Z) (s : string) : Z :=
  match s with
  | EmptyString => acc
  | String c s' => decimalFrom (10 * acc + digitValue c) s'
  end.

Definition decimalValue (s : string) : Z := decimalFrom 0 s.

(** [parseInt(s, 10)]: leading white space is skipped, a sign is read, then
    the longest run of digits; no digit gives NaN, and the integer read is
    rounded to a double. *)
Definition parseInt (s : string) : number :=
  let s1 := trimStart s in
  let (negative, s2) :=
    match s1 with
    | String "-" r => (true, r)
    | String "+" r => (false, r)
    | _ => (false, s1)
    end in
  match fst (spanDigits s2) with
  | EmptyString => NaN
  | ds => toNumber (if negative then - decimalValue ds else decimalValue ds)
  end.

(** [String(n)] for an integer below 2^53: its decimal digits, with a minus
    sign when negative. *)
Definition showZ (z : Z) : string := NilZero.string_of_int (Z.to_int z).

(** [String(a)].  From 2^53 on JavaScript prints the shortest digits that
    read back as the same double, and from 10^21 on an exponent; that
    rendering is left to the parameter [bigShow]. *)
Definition showNumber (bigShow : Z -> string) (a : number) : string :=
  match a with
  | Num z => if Z.abs z <? two53 then showZ z else bigShow z
  | PosInf => "Infinity"
  | NegInf => "-Infinity"
  | NaN => "NaN"
  end.

End JS.

Import JS.

(* ================================================================== *)
(** * Dates (ECMA-262, section "Date Objects")                          *)
(* ================================================================== *)

(** A [Date] is its time value: milliseconds since the epoch, or NaN for an
    invalid date.  The abstract operations below are those of the language
    specification, on the integers that the parser feeds them (at most four
    digits per field), where the machine arithmetic is exact. *)

Module JSDate.

Definition Date : Type := number.

Definition msPerSecond : Z := 1000.
Definition msPerMinute : Z := 60000.
Definition msPerHour : Z := 3600000.
Definition msPerDay : Z := 86400000.

(** The time values a [Date] can hold: 100,000,000 days either side of the
    epoch. *)
Definition maxTime : Z := 8640000000000000.

Definition Day (t : Z) : Z := t / msPerDay.
Definition TimeWithinDay (t : Z) : Z := t mod msPerDay.

Definition isLeap (y : Z) : bool :=
  ((y mod 4 =? 0) && negb (y mod 100 =? 0)) || (y mod 400 =? 0).

Definition DaysInYear (y : Z) : Z := if isLeap y then 366 else 365.

Definition DayFromYear (y : Z) : Z :=
  365 * (y - 1970) + (y - 1969) / 4 - (y - 1901) / 100 + (y - 1601) / 400.

Definition TimeFromYear (y : Z) : Z := msPerDay * DayFromYear y.

(** The year a time value falls in: the estimate by the mean length of a
    Gregorian year is at most one year off. *)
Definition YearFromTime (t : Z) : Z :=
  let y := 1970 + t / 31556952000 in
  if t <? TimeFromYear y then y - 1
  else if TimeFromYear (y + 1) <=? t then y + 1
  else y.

Definition InLeapYear (t : Z) : Z := if isLeap (YearFromTime t) then 1 else 0.

Definition DayWithinYear (t : Z) : Z := Day t - DayFromYear (YearFromTime t).

(** The number of days of a year that precede its month [m], 0 for January
    to 11 for December; [leap] is 1 in a leap year and 0 otherwise. *)
Definition daysBeforeMonth (leap m : Z) : Z :=
  if m <=? 0 then 0
  else if m =? 1 then 31
  else if m =? 2 then 59 + leap
  else if m =? 3 then 90 + leap
  else if m =? 4 then 120 + leap
  else if m =? 5 then 151 + leap
  else if m =? 6 then 181 + leap
  else if m =? 7 then 212 + leap
  else if m =? 8 then 243 + leap
  else if m =? 9 then 273 + leap
  else if m =? 10 then 304 + leap
  else 334 + leap.

Definition monthOfYearDay (leap d : Z) : Z :=
  if d <? 31 then 0
  else if d <? 59 + leap then 1
  else if d <? 90 + leap then 2
  else if d <? 120 + leap then 3
  else if d <? 151 + leap then 4
  else if d <? 181 + leap then 5
  else if d <? 212 + leap then 6
  else if d <? 243 + leap then 7
  else if d <? 273 + leap then 8
  else if d <? 304 + leap then 9
  else if d <? 334 + leap then 10
  else 11.

Definition MonthFromTime (t : Z) : Z :=
  monthOfYearDay (InLeapYear t) (DayWithinYear t).

Definition DateFromTime (t : Z) : Z :=
  DayWithinYear t - daysBeforeMonth (InLeapYear t) (MonthFromTime t) + 1.

(** [MakeTime(hour, min, sec, ms)] *)
Definition MakeTime (hour min sec ms : number) : number :=
  match hour, min, sec, ms with
  | Num h, Num m, Num s, Num milli =>
      Num (h * msPerHour + m * msPerMinute + s * msPerSecond + milli)
  | _, _, _, _ => NaN
  end.

(** The day number of the first day of month [m] (any integer: months
    outside 0..11 carry into the years) of year [y]. *)
Definition dayOfMonthStart (y m : Z) : Z :=
  let ym := y + m / 12 in
  let mn := m mod 12 in
  DayFromYear ym + daysBeforeMonth (if isLeap ym then 1 else 0) mn.

(** [MakeDay(year, month, date)] *)
Definition MakeDay (year month date : number) : number :=
  match year, month, date with
  | Num y, Num m, Num dt => Num (dayOfMonthStart y m + dt - 1)
  | _, _, _ => NaN
  end.

(** [MakeDate(day, time)] *)
Definition MakeDate (day time : number) : number :=
  match day, time with
  | Num d, Num t => Num (d * msPerDay + t)
  | _, _ => NaN
  end.

(** [TimeClip(time)] *)
Definition TimeClip (time : number) : number :=
  match time with
  | Num t => if Z.abs t <=? maxTime then Num t else NaN
  | _ => NaN
  end.

Section Zone.

(** [LocalTZA t true] is the offset of local time from UTC at the UTC time
    [t]; [LocalTZA t false] is the offset at the local time [t]. *)
Variable LocalTZA : Z -> bool -> Z.

Definition LocalTime (t : Z) : Z := t + LocalTZA t true.

Definition UTC (t : number) : number :=
  match t with
  | Num x => Num (x - LocalTZA x false)
  | _ => NaN
  end.

(** [new Date(value)] for a number *)
Definition ofNumber (v : number) : Date := TimeClip v.

(** [new Date(year, month, date, hours, minutes, seconds, ms)] *)
Definition ofFields (year month date hours minutes seconds ms : number) : Date :=
  let yr := match year with
            | Num y => if (0 <=? y) && (y <=? 99) then Num (1900 + y) else year
            | _ => year
            end in
  TimeClip (UTC (MakeDate (MakeDay yr month date)
                          (MakeTime hours minutes seconds ms))).

(** [d.getTime()] *)
Definition getTime (d : Date) : number := d.

(** [d.setHours(hour, min, sec, ms)]: the new time value of [d] *)
Definition setHours (d : Date) (hour min sec ms : number) : Date :=
  match d with
  | Num tv =>
      let t := LocalTime tv in
      TimeClip (UTC (MakeDate (Num (Day t)) (MakeTime hour min sec ms)))
  | _ => NaN
  end.

(** [d.getDate()] *)
Definition getDate (d : Date) : number :=
  match d with
  | Num tv => Num (DateFromTime (LocalTime tv))
  | _ => NaN
  end.

(** [d.setDate(date)]: the new time value of [d] *)
Definition setDate (d : Date) (date : number) : Date :=
  match d with
  | Num tv =>
      let t := LocalTime tv in
      TimeClip (UTC (MakeDate
                       (MakeDay (Num (YearFromTime t)) (Num (MonthFromTime t)) date)
                       (Num (TimeWithinDay t))))
  | _ => NaN
  end.

End Zone.

End JSDate.

Import JSDate.

(* ================================================================== *)
(** * Reading the system clock                                          *)
(* ================================================================== *)

(** [new Date()], [Date.now()] and [moment()] read the system clock.  The
    state is the number of readings made so far; what the [k]-th reading
    returns is fixed by the environment ([clock k]). *)

Module Clock.

Definition M (A : Type) : Type := nat -> A * nat.

Definition ret {A : Type} (a : A) : M A := fun k => (a, k).

Definition bind {A B : Type} (m : M A) (f : A -> M B) : M B :=
  fun k => let (a, k') := m k in f a k'.

Definition read (clock : nat -> Z) : M Z := fun k => (clock k, S k).

End Clock.

Notation "x <- m ;; f" := (Clock.bind m (fun x => f))
  (at level 61, m at next level, right associativity).

(* ================================================================== *)
(** * src/utils/timeParser.ts                                           *)
(* ================================================================== *)

Module TimeParser.

(** [TimeParseResult] of src/types/ReminderTypes.ts *)
Record TimeParseResult : Type := {
  isValid : bool;
  delayMs : number;
  timestamp : Date;
  error : option string;
  originalInput : string
}.

(** [{ isValid: boolean; error?: string }], the result of [validateDelay] *)
Record DelayValidation : Type := {
  dvIsValid : bool;
  dvError : option string
}.

(** What [moment(input, formats, true)] can do: raise, give an invalid
    moment, or give the instant it parsed. *)
Inductive MomentOutcome : Type :=
| MomentThrows
| MomentInvalid
| MomentValid (t : Z).

(** ** The regular expressions, as matchers that return their groups *)

(** [[smhdw]] under the flag [i] *)
Definition isUnitLetter (c : ascii) : bool :=
  existsb (Ascii.eqb (lowerChar c)) ["s"; "m"; "h"; "d"; "w"]%char.

(** [/^(\d+)([smhdw])$/i] *)
Definition RELATIVE_TIME_REGEX (s : string) : option (string * string) :=
  match spanDigits s with
  | (String d ds, String u EmptyString) =>
      if isUnitLetter u then Some (String d ds, String u EmptyString) else None
  | _ => None
  end.

(** [(am|pm)$] under the flag [i] *)
Definition meridiem (s : string) : option string :=
  let l := toLowerCase s in
  if String.eqb l "am" || String.eqb l "pm" then Some s else None.

(** [(\d{1,2}):(\d{2})(?:\s*(am|pm))?$], the tail shared by the clock-time and
    the date-time expressions *)
Definition clockGroups (s : string) : option (string * string * option string) :=
  let (h, r1) := spanDigits s in
  if ((1 <=? String.length h) && (String.length h <=? 2))%nat then
    match r1 with
    | String ":" (String a (String b r3)) =>
        if isDigit a && isDigit b then
          let mm := String a (String b EmptyString) in
          match r3 with
          | EmptyString => Some (h, mm, None)
          | _ => match meridiem (trimStart r3) with
                 | Some p => Some (h, mm, Some p)
                 | None => None
                 end
          end
        else None
    | _ => None
    end
  else None.

(** [/^(\d{1,2}):(\d{2})(?:\s*(am|pm))?$/i] *)
Definition ABSOLUTE_TIME_REGEX (s : string)
  : option (string * string * option string) := clockGroups s.

(** [/^(\d{1,2})\/(\d{1,2})\/(\d{4})\s+(\d{1,2}):(\d{2})(?:\s*(am|pm))?$/i] *)
Definition DATE_TIME_REGEX (s : string)
  : option (string * string * string * string * string * option string) :=
  let (mo, r1) := spanDigits s in
  if ((1 <=? String.length mo) && (String.length mo <=? 2))%nat then
    match r1 with
    | String "/" r2 =>
        let (d, r3) := spanDigits r2 in
        if ((1 <=? String.length d) && (String.length d <=? 2))%nat then
          match r3 with
          | String "/" r4 =>
              let (y, r5) := spanDigits r4 in
              if (String.length y =? 4)%nat then
                match r5 with
                | String w r6 =>
                    if isWhiteSpace w then
                      match clockGroups (trimStart r6) with
                      | Some (h, mi, p) => Some (mo, d, y, h, mi, p)
                      | None => None
                      end
                    else None
                | EmptyString => None
                end
              else None
          | _ => None
          end
        else None
    | _ => None
    end
  else None.

(** [/^\d{10,13}$/] *)
Definition UNIX_TIMESTAMP_REGEX (s : string) : bool :=
  allDigits s && ((10 <=? String.length s) && (String.length s <=? 13))%nat.

(** [/^(monday|tuesday|wednesday|thursday|friday|saturday|sunday)$/i] *)
Definition isDayName (s : string) : bool :=
  existsb (String.eqb (toLowerCase s))
    ["monday"; "tuesday"; "wednesday"; "thursday"; "friday"; "saturday";
     "sunday"].

(** [period === 'pm' && hour !== 12], then [period === 'am' && hour === 12] *)
Definition to24Hour (period : option string) (hour : number) : number :=
  let isPeriod p := match period with
                    | Some q => String.eqb q p
                    | None => false
                    end in
  if isPeriod "pm" && negb (strictEq hour (Num 12)) then add hour (Num 12)
  else if isPeriod "am" && strictEq hour (Num 12) then Num 0
  else hour.

Definition quote : string := String (ascii_of_nat 34) EmptyString.

(** The message of the last [return] of [parseTime] *)
Definition unableToParse (timeString : string) : string :=
  "Unable to parse time format: " ++ quote ++ timeString ++ quote ++
  ". Supported formats: 6h, 45m, 9:00am, 12/25/2024 9:00am, 1640995200, or " ++
  quote ++ "tomorrow 9am" ++ quote.

Section Parser.

(** The environment: the system clock, the local time zone, moment.js. *)
Variable clock : nat -> Z.
Variable LocalTZA : Z -> bool -> Z.

(** [moment(input, [...formats], true)] with the eighteen formats of
    [parseNaturalLanguage]; it may read the clock. *)
Variable momentParse : string -> Clock.M MomentOutcome.

(** [parsed.add(1, 'week')] *)
Variable momentAddWeek : Z -> Z.

(** [new Date()] *)
Definition newDate : Clock.M Date :=
  t <- Clock.read clock ;; Clock.ret (Num t).

(** [Date.now()] *)
Definition dateNow : Clock.M number :=
  t <- Clock.read clock ;; Clock.ret (Num t).

(** [{ isValid: false, delayMs: 0, timestamp: new Date(), error, originalInput }] *)
Definition failure (err : option string) (timeString : string)
  : Clock.M TimeParseResult :=
  d <- newDate ;;
  Clock.ret {| isValid := false; delayMs := Num 0; timestamp := d;
               error := err; originalInput := timeString |}.

Definition parseRelativeTime (timeString : string) : Clock.M TimeParseResult :=
  match RELATIVE_TIME_REGEX timeString with
  | None => failure None timeString
  | Some (g1, g2) =>
      let value := parseInt g1 in
      let unit := toLowerCase g2 in
      if le value (Num 0) then
        failure (Some "Time value must be greater than 0") timeString
      else
        let computed :=
          if String.eqb unit "s" then Some (mul value (Num 1000))
          else if String.eqb unit "m" then
            Some (mul (mul value (Num 60)) (Num 1000))
          else if String.eqb unit "h" then
            Some (mul (mul (mul value (Num 60)) (Num 60)) (Num 1000))
          else if String.eqb unit "d" then
            Some (mul (mul (mul (mul value (Num 24)) (Num 60)) (Num 60))
                      (Num 1000))
          else if String.eqb unit "w" then
            Some (mul (mul (mul (mul (mul value (Num 7)) (Num 24)) (Num 60))
                           (Num 60)) (Num 1000))
          else None in
        match computed with
        | None => failure (Some ("Unknown time unit: " ++ unit)) timeString
        | Some delay =>
            now <- dateNow ;;
            Clock.ret {| isValid := true; delayMs := delay;
                         timestamp := ofNumber (add now delay);
                         error := None; originalInput := timeString |}
        end
  end.

Definition parseAbsoluteTime (timeString : string) : Clock.M TimeParseResult :=
  match ABSOLUTE_TIME_REGEX timeString with
  | None => failure None timeString
  | Some (g1, g2, g3) =>
      let hour := parseInt g1 in
      let minute := parseInt g2 in
      let period := option_map toLowerCase g3 in
      let hour := to24Hour period hour in
      if lt hour (Num 0) || gt hour (Num 23)
         || lt minute (Num 0) || gt minute (Num 59) then
        failure (Some "Invalid time values") timeString
      else
        now <- newDate ;;
        let targetTime := now in
        let targetTime := setHours LocalTZA targetTime hour minute (Num 0) (Num 0) in
        let targetTime :=
          if le targetTime now
          then setDate LocalTZA targetTime
                       (add (getDate LocalTZA targetTime) (Num 1))
          else targetTime in
        let delay := sub (getTime targetTime) (getTime now) in
        Clock.ret {| isValid := true; delayMs := delay; timestamp := targetTime;
                     error := None; originalInput := timeString |}
  end.

Definition parseDateTime (timeString : string) : Clock.M TimeParseResult :=
  match DATE_TIME_REGEX timeString with
  | None => failure None timeString
  | Some (g1, g2, g3, g4, g5, g6) =>
      let month := sub (parseInt g1) (Num 1) in
      let day := parseInt g2 in
      let year := parseInt g3 in
      let hour := parseInt g4 in
      let minute := parseInt g5 in
      let period := option_map toLowerCase g6 in
      let hour := to24Hour period hour in
      let targetTime :=
        ofFields LocalTZA year month day hour minute (Num 0) (Num 0) in
      now <- newDate ;;
      if isNaN (getTime targetTime) then
        failure (Some "Invalid date") timeString
      else if le targetTime now then
        failure (Some "Date is in the past") timeString
      else
        let delay := sub (getTime targetTime) (getTime now) in
        Clock.ret {| isValid := true; delayMs := delay; timestamp := targetTime;
                     error := None; originalInput := timeString |}
  end.

Definition parseUnixTimestamp (timeString : string) : Clock.M TimeParseResult :=
  if negb (UNIX_TIMESTAMP_REGEX timeString) then failure None timeString
  else
    let ts := parseInt timeString in
    let targetTime :=
      if strictEq (strLength timeString) (Num 10)
      then ofNumber (mul ts (Num 1000))
      else ofNumber ts in
    now <- newDate ;;
    if le targetTime now then
      failure (Some "Timestamp is in the past") timeString
    else
      let delay := sub (getTime targetTime) (getTime now) in
      Clock.ret {| isValid := true; delayMs := delay; timestamp := targetTime;
                   error := None; originalInput := timeString |}.

Definition parseNaturalLanguage (timeString : string) : Clock.M TimeParseResult :=
  let input := toLowerCase timeString in
  parsed <- momentParse input ;;
  match parsed with
  | MomentThrows => failure None timeString
  | MomentInvalid => failure None timeString
  | MomentValid p =>
      now <- Clock.read clock ;;
      let p := if p <? now
               then (if isDayName input then momentAddWeek p else p)
               else p in
      let delay := sub (Num p) (Num now) in
      if le delay (Num 0) then
        failure (Some "Parsed time is in the past") timeString
      else
        Clock.ret {| isValid := true; delayMs := delay; timestamp := Num p;
                     error := None; originalInput := timeString |}
  end.

(** [parseTime].  Its [catch] is not reached: the matchers, [parseInt] and
    the [Date] operations raise nothing, and [parseNaturalLanguage] catches
    what moment.js raises. *)
Definition parseTime (timeString : string) : Clock.M TimeParseResult :=
  let input := toLowerCase (trim timeString) in
  relativeResult <- parseRelativeTime input ;;
  if isValid relativeResult then Clock.ret relativeResult else
  absoluteResult <- parseAbsoluteTime input ;;
  if isValid absoluteResult then Clock.ret absoluteResult else
  dateTimeResult <- parseDateTime input ;;
  if isValid dateTimeResult then Clock.ret dateTimeResult else
  unixResult <- parseUnixTimestamp input ;;
  if isValid unixResult then Clock.ret unixResult else
  naturalResult <- parseNaturalLanguage input ;;
  if isValid naturalResult then Clock.ret naturalResult else
  failure (Some (unableToParse timeString)) timeString.

End Parser.

Section Rendering.

(** How JavaScript prints an integer of magnitude 2^53 or more. *)
Variable bigShow : Z -> string.

(** [formatDelay].  [Math.floor(a / b)] is the integer quotient while
    [a] is below 2^53; what the function prints for a larger finite delay is
    left to [bigFormat]. *)
Variable bigFormat : Z -> string.

Definition formatDelay (delayMs : number) : string :=
  match delayMs with
  | Num d =>
      if d <? 1000 then showNumber bigShow (Num d) ++ "ms"
      else if two53 <=? d then bigFormat d
      else
        let seconds := d / 1000 in
        if seconds <? 60 then showZ seconds ++ "s"
        else
          let minutes := seconds / 60 in
          if minutes <? 60 then
            let remainingSeconds := seconds mod 60 in
            if 0 <? remainingSeconds
            then showZ minutes ++ "m " ++ showZ remainingSeconds ++ "s"
            else showZ minutes ++ "m"
          else
            let hours := minutes / 60 in
            if hours <? 24 then
              let remainingMinutes := minutes mod 60 in
              if 0 <? remainingMinutes
              then showZ hours ++ "h " ++ showZ remainingMinutes ++ "m"
              else showZ hours ++ "h"
            else
              let days := hours / 24 in
              let remainingHours := hours mod 24 in
              if 0 <? remainingHours
              then showZ days ++ "d " ++ showZ remainingHours ++ "h"
              else showZ days ++ "d"
  | NegInf => "-Infinityms"
  | PosInf => "Infinityd"
  | NaN => "NaNd"
  end.

(** [validateDelay(delayMs, maxDays = 30)]; [None] is an omitted argument. *)
Definition validateDelay (delayMs : number) (maxDaysArg : option number)
  : DelayValidation :=
  let maxDays := match maxDaysArg with Some m => m | None => Num 30 end in
  let maxMs := mul (mul (mul (mul maxDays (Num 24)) (Num 60)) (Num 60))
                   (Num 1000) in
  if le delayMs (Num 0) then
    {| dvIsValid := false; dvError := Some "Delay must be greater than 0" |}
  else if gt delayMs maxMs then
    {| dvIsValid := false;
       dvError := Some ("Delay cannot exceed " ++ showNumber bigShow maxDays
                        ++ " days") |}
  else {| dvIsValid := true; dvError := None |}.

End Rendering.

End TimeParser.

(* ================================================================== *)
(** * BullMQ jobs, and calls that may raise                             *)
(* ================================================================== *)

Module Bull.

(** What a [throw] carries: an [Error] with its message, or another value. *)
Inductive Thrown : Type :=
| ErrorObject (message : string)
| OtherValue.

(** An awaited call resolves with a value or rejects. *)
Inductive Outcome (A : Type) : Type :=
| Returned (a : A)
| Threw (e : Thrown).

Arguments Returned {A} a.
Arguments Threw {A} e.

(** [ReminderJobData] of src/types/ReminderTypes.ts *)
Record ReminderJobData : Type := {
  message : string;
  userId : string;
  channelId : string;
  messageId : string;
  ttsVoice : option string;
  audioFile : option string;
  dataPriority : option number;
  createdAt : string
}.

(** The job options the program sets. *)
Record JobOpts : Type := {
  delay : option number;
  priority : option number;
  jobId : option string;
  attempts : option number
}.

Record Job : Type := {
  id : string;
  name : string;
  data : ReminderJobData;
  opts : JobOpts
}.

(** The states the specification gives a job. *)
Inductive JobState : Type := Waiting | Delayed | Active | Completed | Failed.

End Bull.

Import Bull.

(* ================================================================== *)
(** * src/queue/ReminderQueue.ts                                        *)
(* ================================================================== *)

Module ReminderQueue.

Section Cancel.

(** The backing store and the two BullMQ calls [cancelReminder] makes:
    [queue.getJob(jobId)] and [job.remove()].  A call that raises leaves the
    store as it was. *)
Variable Store : Type.
Variable getJob : Store -> string -> Outcome (option Job).
Variable remove : Store -> Job -> Outcome Store.

(** [cancelReminder]: what the promise settles with, and the store after. *)
Definition cancelReminder (st : Store) (jobId : string) : Outcome bool * Store :=
  match getJob st jobId with
  | Returned (Some job) =>
      match remove st job with
      | Returned st' => (Returned true, st')
      | Threw _ => (Returned false, st)
      end
  | Returned None => (Returned false, st)
  | Threw _ => (Returned false, st)
  end.

End Cancel.

(** A reference store, to run [cancelReminder] on.

    Modelled from the BullMQ documentation: BullMQ itself is not part of the
    repository.  [getJob] finds a job whatever its state, finished jobs
    included while they are retained; [remove] deletes it unless a worker
    holds its lock, which is the case of an active job; both raise when Redis
    cannot be reached. *)
Record RefStore : Type := {
  reachable : bool;
  entries : list (Job * JobState)
}.

Definition refFind (st : RefStore) (jobId : string) : option (Job * JobState) :=
  find (fun e => String.eqb (id (fst e)) jobId) (entries st).

Definition refGetJob (st : RefStore) (jobId : string) : Outcome (option Job) :=
  if reachable st then Returned (option_map fst (refFind st jobId))
  else Threw (ErrorObject "Connection is closed.").

Definition refRemove (st : RefStore) (job : Job) : Outcome RefStore :=
  if reachable st then
    match refFind st (id job) with
    | Some (_, Active) =>
        Threw (ErrorObject "Job could not be removed because it is locked by another worker")
    | _ =>
        Returned {| reachable := true;
                    entries := filter (fun e => negb (String.eqb (id (fst e)) (id job)))
                                      (entries st) |}
    end
  else Threw (ErrorObject "Connection is closed.").

End ReminderQueue.

(* ================================================================== *)
(** * src/twilio/TwilioService.ts and src/worker/ReminderWorker.ts      *)
(* ================================================================== *)

Module ReminderWorker.

(** [TwilioCallResult] of src/types/ReminderTypes.ts *)
Record TwilioCallResult : Type := {
  success : bool;
  callSid : option string;
  callError : option string;
  status : option string
}.

(** [ReminderJobResult]; [resultTimestamp] is the instant that the source
    prints with [toISOString]. *)
Record ReminderJobResult : Type := {
  resultSuccess : bool;
  resultMessageId : string;
  resultTimestamp : Date;
  resultMessage : string;
  resultCallSid : option string
}.

(** How a job leaves the worker. *)
Inductive JobEnd : Type :=
| JobCompleted (returnvalue : ReminderJobResult)
| JobFailed (e : Thrown).

(** A value inside a template literal. *)
Definition showOptional (o : option string) : string :=
  match o with Some x => x | None => "undefined" end.

(** [TwilioService.makeCallWithTTS] and [makeCallWithAudio]: [created] is
    what [client.calls.create] did, a call with its sid and status or a
    rejection.  Both methods catch the rejection. *)
Definition makeCall (created : Outcome (string * string)) : Outcome TwilioCallResult :=
  match created with
  | Returned (sid, st) =>
      Returned {| success := true; callSid := Some sid; callError := None;
                  status := Some st |}
  | Threw (ErrorObject m) =>
      Returned {| success := false; callSid := None; callError := Some m;
                  status := None |}
  | Threw OtherValue =>
      Returned {| success := false; callSid := None;
                  callError := Some "Unknown error occurred"; status := None |}
  end.

Definition makeCallWithTTS := makeCall.
Definition makeCallWithAudio := makeCall.

Definition retryableErrors : list string :=
  ["ECONNRESET"; "ETIMEDOUT"; "ENOTFOUND"; "ECONNREFUSED"; "Network Error";
   "timeout"; "rate limit"; "quota exceeded"].

(** [shouldRetry(error)], on [error.message] *)
Definition shouldRetry (errorMessage : string) : bool :=
  let errorMessage := toLowerCase errorMessage in
  existsb (fun retryable => includes errorMessage (toLowerCase retryable))
          retryableErrors.

Section Worker.

Variable clock : nat -> Z.
Variable bigShow : Z -> string.

(** The queue and [queue.add(name, data, opts)]; the job it is given carries
    [opts.jobId] as its id. *)
Variable Queue : Type.
Variable queueAdd : Queue -> Job -> Outcome Queue.

(** What the awaited Twilio call of [processReminderJob] does, for the audio
    and for the text-to-speech branch. *)
Variable audioCall : Outcome TwilioCallResult.
Variable ttsCall : Outcome TwilioCallResult.

(** [processReminderJob]: every path of its [try] and its [catch] returns. *)
Definition processReminderJob (job : Job) : Clock.M (Outcome ReminderJobResult) :=
  let callOutcome :=
    match audioFile (data job) with
    | Some (String _ _) => audioCall
    | _ => ttsCall
    end in
  match callOutcome with
  | Returned callResult =>
      now <- Clock.read clock ;;
      if success callResult then
        Clock.ret (Returned
          {| resultSuccess := true; resultMessageId := id job;
             resultTimestamp := Num now;
             resultMessage := "Reminder delivered via phone call. Call SID: "
                              ++ showOptional (callSid callResult);
             resultCallSid := match callSid callResult with
                              | Some (String c r) => Some (String c r)
                              | _ => None
                              end |})
      else
        Clock.ret (Returned
          {| resultSuccess := false; resultMessageId := id job;
             resultTimestamp := Num now;
             resultMessage := "Failed to make phone call: "
                              ++ showOptional (callError callResult);
             resultCallSid := None |})
  | Threw e =>
      now <- Clock.read clock ;;
      Clock.ret (Returned
        {| resultSuccess := false; resultMessageId := id job;
           resultTimestamp := Num now;
           resultMessage := "Error processing reminder: "
                            ++ match e with
                               | ErrorObject m => m
                               | OtherValue => "Unknown error"
                               end;
           resultCallSid := None |})
  end.

(** [scheduleRetry]: a failing [queue.add] is caught and logged. *)
Definition scheduleRetry (job : Job) (q : Queue) : Clock.M Queue :=
  let retryDelay :=
    mathMin (mul (mul (Num 5) (Num 60)) (Num 1000))
            (orElse (delay (opts job)) (Num 0)) in
  let retryPriority := add (orElse (priority (opts job)) (Num 0)) (Num 1) in
  now <- Clock.read clock ;;
  let retryId := "retry-" ++ id job ++ "-" ++ showNumber bigShow (Num now) in
  match queueAdd q {| id := retryId; name := "reminder-retry"; data := data job;
                      opts := {| delay := Some retryDelay;
                                 priority := Some retryPriority;
                                 jobId := Some retryId;
                                 attempts := Some (Num 1) |} |} with
  | Returned q' => Clock.ret q'
  | Threw _ => Clock.ret q
  end.

(** [handleFailedJob] *)
Definition handleFailedJob (job : Job) (errorMessage : string) (q : Queue)
  : Clock.M Queue :=
  if shouldRetry errorMessage then scheduleRetry job q else Clock.ret q.

(** The handler of the worker's ['failed'] event.  An error without a
    message makes [shouldRetry] raise, and nothing is scheduled. *)
Definition onFailed (job : Job) (e : Thrown) (q : Queue) : Clock.M Queue :=
  if String.eqb (name job) "reminder" then
    match e with
    | ErrorObject m => handleFailedJob job m q
    | OtherValue => Clock.ret q
    end
  else Clock.ret q.

(** One job through the worker.

    Modelled from the BullMQ documentation: the [Worker] class is not part of
    the repository.  The worker awaits the processor; a returned value
    completes the job and is its return value, a rejection fails the job and
    emits ['failed'] with the error.  The handler of ['completed'] only
    logs. *)
Definition runJob (job : Job) (q : Queue) : Clock.M (JobEnd * Queue) :=
  r <- processReminderJob job ;;
  match r with
  | Returned returnvalue => Clock.ret (JobCompleted returnvalue, q)
  | Threw e => q' <- onFailed job e q ;; Clock.ret (JobFailed e, q')
  end.

End Worker.

End ReminderWorker.

Import TimeParser.
Import ReminderQueue.
Import ReminderWorker.

(* ================================================================== *)
(** * Vocabulary of the statements, and a concrete environment          *)
(* ================================================================== *)

Module Spec.

(** Milliseconds in one unit of a relative duration. *)
Definition unitMs (u : ascii) : Z :=
  if Ascii.eqb u "s" then 1000
  else if Ascii.eqb u "m" then 60000
  else if Ascii.eqb u "h" then 3600000
  else if Ascii.eqb u "d" then 86400000
  else if Ascii.eqb u "w" then 604800000
  else 0.

(** The unit letters, in either case. *)
Definition unitLetters : list ascii :=
  ["s"; "m"; "h"; "d"; "w"; "S"; "M"; "H"; "D"; "W"]%char.

(** The hour of the day that a clock hour and an optional am/pm stand for:
    12 am is hour 0, 12 pm is hour 12, any other pm hour is twelve later. *)
Definition hour24 (period : option string) (h : Z) : Z :=
  match period with
  | Some "pm" => if h =? 12 then 12 else h + 12
  | Some "am" => if h =? 12 then 0 else h
  | _ => h
  end.

(** The instant at which the local clock shows [h]:[m] on the local calendar
    day of [now]. *)
Definition todayAt (LocalTZA : Z -> bool -> Z) (now h m : Z) : Z :=
  let wall := Day (LocalTime LocalTZA now) * msPerDay
              + h * msPerHour + m * msPerMinute in
  wall - LocalTZA wall false.

(** The instant whose local clock reading is that of [t], one calendar day
    later. *)
Definition nextCalendarDay (LocalTZA : Z -> bool -> Z) (t : Z) : Z :=
  let wall := LocalTime LocalTZA t + msPerDay in
  wall - LocalTZA wall false.

(** The time value of [new Date(year, month - 1, day, hour, minute, 0, 0)]:
    a year below 100 counts from 1900, and a month or a day outside the
    calendar carries into the following months and years. *)
Definition dateTimeValue (LocalTZA : Z -> bool -> Z)
           (year month day hour minute : Z) : Z :=
  let yr := if (0 <=? year) && (year <=? 99) then 1900 + year else year in
  let wall := (dayOfMonthStart yr (month - 1) + day - 1) * msPerDay
              + hour * msPerHour + minute * msPerMinute in
  wall - LocalTZA wall false.

End Spec.

Import Spec.

Module Env.

(** UTC as the local zone. *)
Definition utc : Z -> bool -> Z := fun _ _ => 0.

(** A clock stopped at 2024-01-15T10:00:00Z, the instant the tests of the
    repository freeze the clock at. *)
Definition frozen : nat -> Z := fun _ => 1705312800000.

(** A moment.js that finds no input valid. *)
Definition momentRejects : string -> Clock.M MomentOutcome :=
  fun _ => Clock.ret MomentInvalid.

(** Seven days of 24 hours. *)
Definition addWeek : Z -> Z := fun t => t + 7 * msPerDay.

(** A queue that keeps the jobs added to it, in order. *)
Definition listAdd (q : list Job) (j : Job) : Outcome (list Job) :=
  Returned (q ++ [j])%list.

Definition sampleData : ReminderJobData :=
  {| message := "Stand-up"; userId := "42"; channelId := "7"; messageId := "1001";
     ttsVoice := Some "alice"; audioFile := None; dataPriority := Some (Num 0);
     createdAt := "2024-01-15T10:00:00.000Z" |}.

(** A job as [addReminder] enqueues it, due in thirty seconds. *)
Definition sampleJob : Job :=
  {| id := "remind-1001-1705312800000"; name := "reminder"; data := sampleData;
     opts := {| delay := Some (Num 30000); priority := Some (Num 0);
                jobId := Some "remind-1001-1705312800000"; attempts := None |} |}.

Definition storeWith (up : bool) (st : JobState) : RefStore :=
  {| reachable := up; entries := [(sampleJob, st)] |}.

Definition emptyStore : RefStore := {| reachable := true; entries := [] |}.

End Env.

(* ================================================================== *)
(** * The queue: adding and looking up                              *)
(* ================================================================== *)

Module ReminderQueueMore.

(** [a || b] where [a] is a string that may be [undefined]: the empty string
    is falsy. *)
Definition orString (a : option string) (b : string) : string :=
  match a with
  | Some (String c r) => String c r
  | _ => b
  end.

(** The [options] argument of [addReminder] *)
Record ReminderOptions : Type := {
  optTtsVoice : option string;
  optAudioFile : option string;
  optPriority : option number
}.

Section Add.

Variable clock : nat -> Z.
Variable bigShow : Z -> string.

(** [Date.prototype.toISOString] of a valid date *)
Variable toISOString : Z -> string.

(** The queue and [queue.add(name, data, opts)] *)
Variable Queue : Type.
Variable queueAdd : Queue -> Job -> Outcome Queue.

(** [addReminder]: what the promise settles with, and the queue after.

    The line that logs the due date runs after [queue.add] has resolved, and
    [toISOString] raises a [RangeError] on an invalid date: the job is then
    in the queue although the call rejects. *)
Definition addReminder (message : string) (delayMs : number)
           (userId channelId messageId : string)
           (options : option ReminderOptions) (q : Queue)
  : Clock.M (Outcome Job * Queue) :=
  created <- Clock.read clock ;;
  let jobData :=
    {| Bull.message := message;
       Bull.userId := userId;
       Bull.channelId := channelId;
       Bull.messageId := messageId;
       ttsVoice := Some (orString (match options with
                                   | Some o => optTtsVoice o
                                   | None => None
                                   end) "alice");
       audioFile := match options with Some o => optAudioFile o | None => None end;
       dataPriority := Some (orElse (match options with
                                     | Some o => optPriority o
                                     | None => None
                                     end) (Num 0));
       createdAt := toISOString created |} in
  now <- Clock.read clock ;;
  let newId := "remind-" ++ messageId ++ "-" ++ showNumber bigShow (Num now) in
  let job :=
    {| id := newId; name := "reminder"; data := jobData;
       opts := {| delay := Some delayMs;
                  priority := Some (orElse (match options with
                                            | Some o => optPriority o
                                            | None => None
                                            end) (Num 0));
                  jobId := Some newId;
                  attempts := None |} |} in
  match queueAdd q job with
  | Returned q' =>
      logged <- Clock.read clock ;;
      match ofNumber (add (Num logged) delayMs) with
      | Num _ => Clock.ret (Returned job, q')
      | _ => Clock.ret (Threw (ErrorObject "Invalid time value"), q')
      end
  | Threw e => Clock.ret (Threw e, q)
  end.

End Add.

Section Lookup.

Variable Store : Type.
Variable getJob : Store -> string -> Outcome (option Job).

(** [queue.getJobs(['waiting', 'delayed', 'active'])] *)
Variable getJobs : Store -> list JobState -> Outcome (list Job).

(** [getReminder] *)
Definition getReminder (st : Store) (jobId : string) : option Job :=
  match getJob st jobId with
  | Returned found => found
  | Threw _ => None
  end.

(** [getUserReminders] *)
Definition getUserReminders (st : Store) (user : string) : list Job :=
  match getJobs st [Waiting; Delayed; Active] with
  | Returned jobs => filter (fun job => String.eqb (userId (data job)) user) jobs
  | Threw _ => []
  end.

End Lookup.

End ReminderQueueMore.
Import ReminderQueueMore.

(* ================================================================== *)
(** * Twilio: texts and phone numbers; the configuration            *)
(* ================================================================== *)

Module TwilioService.

(** [s.replace(/c/g, r)] for a pattern that is one literal character [c];
    the replacement strings of this file hold no [$]. *)
Fixpoint replaceAll (c : ascii) (r s : string) : string :=
  match s with
  | EmptyString => EmptyString
  | String a s' =>
      (if Ascii.eqb a c then r else String a EmptyString) ++ replaceAll c r s'
  end.

Definition doubleQuote : ascii := ascii_of_nat 34.

(** [sanitizeMessage]: five global replacements, one after the other. *)
Definition sanitizeMessage (message : string) : string :=
  replaceAll "'" "&#39;"
    (replaceAll doubleQuote "&quot;"
       (replaceAll ">" "&gt;"
          (replaceAll "<" "&lt;"
             (replaceAll "&" "&amp;" message)))).

(** Exactly [n] digits at the head of [s]: what follows them. *)
Fixpoint takeDigits (n : nat) (s : string) : option string :=
  match n with
  | O => Some s
  | S n' =>
      match s with
      | String c s' => if isDigit c then takeDigits n' s' else None
      | EmptyString => None
      end
  end.

(** [/^\+\d{1,3}\d{6,14}$/]: after the plus sign the first group takes three,
    two or one digits (greedy, giving back on failure), and 6 to 14 digits
    must follow up to the end of the input. *)
Definition phoneRegex (s : string) : bool :=
  match s with
  | String "+" r =>
      existsb (fun k =>
                 match takeDigits k r with
                 | Some rest =>
                     allDigits rest
                     && ((6 <=? String.length rest) && (String.length rest <=? 14))%nat
                 | None => false
                 end)
              [3; 2; 1]%nat
  | _ => false
  end.

(** [validatePhoneNumber] *)
Definition validatePhoneNumber (phoneNumber : string) : bool :=
  phoneRegex phoneNumber.

(** [s.replace(/\D/g, '')] *)
Fixpoint removeNonDigits (s : string) : string :=
  match s with
  | EmptyString => EmptyString
  | String c s' =>
      if isDigit c then String c (removeNonDigits s') else removeNonDigits s'
  end.

(** [formatPhoneNumber] *)
Definition formatPhoneNumber (phoneNumber : string) : string :=
  let digits := removeNonDigits phoneNumber in
  if startsWith "+" phoneNumber then phoneNumber
  else if (String.length digits =? 10)%nat then "+1" ++ digits
  else if (String.length digits =? 11)%nat && startsWith "1" digits
       then "+" ++ digits
  else if startsWith "+" phoneNumber then phoneNumber else "+" ++ digits.

End TwilioService.

Module Config.

(** [/^\+1\d{10}$/], the format the schema asks of [twilioPhoneNumber] *)
Definition twilioPhoneNumberFormat (s : string) : bool :=
  match s with
  | String "+" (String "1" r) => allDigits r && (String.length r =? 10)%nat
  | _ => false
  end.

(** [/^\+\d{1,3}\d{6,14}$/], the format the schema asks of
    [targetPhoneNumber] *)
Definition targetPhoneNumberFormat (s : string) : bool :=
  TwilioService.phoneRegex s.

End Config.

Import TwilioService.

(* ================================================================== *)
(** * Google Calendar                                               *)
(* ================================================================== *)

Module GoogleCalendarService.

(** [CalendarEvent] of src/types/CalendarTypes.ts *)
Record CalendarEvent : Type := {
  eventId : string;
  summary : string;
  description : string;
  startTime : Date;
  endTime : option Date;
  location : string;
  attendees : list string;
  calendarId : string
}.

(** An item of the response of [calendar.events.list], as far as the
    program reads it. *)
Record EventItem : Type := {
  itemId : option string;
  itemSummary : option string;
  itemDescription : option string;
  itemStart : option (option string);
  itemEnd : option (option string);
  itemLocation : option string;
  itemAttendees : option (list (option string));
  itemOrganizer : option (option string)
}.

Section Calendar.

Variable clock : nat -> Z.
Variable bigShow : Z -> string.
Variable toISOString : Z -> string.
Variable Queue : Type.
Variable queueAdd : Queue -> Job -> Outcome Queue.

(** [startTime.toLocaleTimeString([], { hour: '2-digit', minute: '2-digit' })] *)
Variable toLocaleTimeString : Date -> string.

(** [new Date(dateTime)] for the date-time string of an item *)
Variable dateParse : string -> Date.

(** [this.config.googleCalendarId] *)
Variable googleCalendarId : string.

(** [calendar.events.list(...)], asked at the instant [now]: it rejects, or
    resolves with [response.data.items], which may be absent. *)
Variable eventsList : Z -> Outcome (option (list EventItem)).

(** [createReminderMessage] *)
Definition createReminderMessage (event : CalendarEvent) : string :=
  let startTime := toLocaleTimeString (startTime event) in
  let location := match location event with
                  | EmptyString => ""
                  | l => " at " ++ l
                  end in
  let message := "Reminder: You have " ++ quote ++ summary event ++ quote
                 ++ " starting at " ++ startTime ++ location in
  let message := match description event with
                 | EmptyString => message
                 | d => message ++ ". " ++ d
                 end in
  match attendees event with
  | [] => message
  | l => message ++ ". Attendees: " ++ String.concat ", " l
  end.

(** [scheduleEventReminder]: a rejection of [addReminder] is caught and
    logged. *)
Definition scheduleEventReminder (event : CalendarEvent) (delayMs : number)
           (q : Queue) : Clock.M Queue :=
  let message := createReminderMessage event in
  r <- addReminder clock bigShow toISOString Queue queueAdd
         message delayMs "google-calendar" "calendar-system"
         ("calendar-" ++ eventId event)
         (Some {| optTtsVoice := Some "alice"; optAudioFile := None;
                  optPriority := Some (Num 10) |}) q ;;
  Clock.ret (snd r).

(** [processCalendarEvent] *)
Definition processCalendarEvent (event : CalendarEvent) (q : Queue)
  : Clock.M Queue :=
  now <- newDate clock ;;
  let eventStart := startTime event in
  let timeUntilEvent := sub (getTime eventStart) (getTime now) in
  if le timeUntilEvent (Num 0) then Clock.ret q
  else
    let tenMinutes := mul (mul (Num 10) (Num 60)) (Num 1000) in
    let reminderTime := sub timeUntilEvent tenMinutes in
    if gt reminderTime (Num 0) then scheduleEventReminder event reminderTime q
    else if le timeUntilEvent tenMinutes && gt timeUntilEvent (Num 0)
    then scheduleEventReminder event (Num 0) q
    else Clock.ret q.

(** The event that [fetchUpcomingEvents] makes of an item with a start
    date-time. *)
Definition eventOfItem (item : EventItem) (dateTime : string) : CalendarEvent :=
  {| eventId := orString (itemId item) "";
     summary := orString (itemSummary item) "No Title";
     description := orString (itemDescription item) "";
     startTime := dateParse dateTime;
     endTime := match itemEnd item with
                | Some (Some (String c r)) => Some (dateParse (String c r))
                | _ => None
                end;
     location := orString (itemLocation item) "";
     attendees := match itemAttendees item with
                  | Some l => map (fun email => orString email "") l
                  | None => []
                  end;
     calendarId := orString (match itemOrganizer item with
                             | Some email => email
                             | None => None
                             end) googleCalendarId |}.

(** The loop of [fetchUpcomingEvents]: an item without [start.dateTime], an
    all-day event for one, is passed over. *)
Fixpoint eventsOfItems (items : list EventItem) : list CalendarEvent :=
  match items with
  | [] => []
  | item :: rest =>
      match itemStart item with
      | Some (Some (String c r)) =>
          eventOfItem item (String c r) :: eventsOfItems rest
      | _ => eventsOfItems rest
      end
  end.

(** [fetchUpcomingEvents]: the end of the window is written with
    [toISOString], which raises a [RangeError] on an invalid date, before
    the calendar is asked. *)
Definition fetchUpcomingEvents : Clock.M (Outcome (list CalendarEvent)) :=
  now <- newDate clock ;;
  let endTime :=
    ofNumber (add (getTime now)
                  (mul (mul (mul (Num 24) (Num 60)) (Num 60)) (Num 1000))) in
  match now, endTime with
  | Num t, Num _ =>
      match eventsList t with
      | Returned (Some items) => Clock.ret (Returned (eventsOfItems items))
      | Returned None => Clock.ret (Returned [])
      | Threw e => Clock.ret (Threw e)
      end
  | _, _ => Clock.ret (Threw (ErrorObject "Invalid time value"))
  end.

(** The loop of [syncCalendarEvents] *)
Fixpoint processEvents (events : list CalendarEvent) (q : Queue)
  : Clock.M Queue :=
  match events with
  | [] => Clock.ret q
  | event :: rest =>
      q' <- processCalendarEvent event q ;; processEvents rest q'
  end.

(** [syncCalendarEvents]: a failing fetch is logged and raised again. *)
Definition syncCalendarEvents (q : Queue) : Clock.M (Outcome unit * Queue) :=
  fetched <- fetchUpcomingEvents ;;
  match fetched with
  | Returned events =>
      q' <- processEvents events q ;; Clock.ret (Returned tt, q')
  | Threw e => Clock.ret (Threw e, q)
  end.

End Calendar.

End GoogleCalendarService.
Import GoogleCalendarService.

(* ================================================================== *)
(** * The Discord bot                                               *)
(* ================================================================== *)

Module DiscordBot.

(** [ParsedReminderCommand] of src/types/ReminderTypes.ts *)
Record ParsedReminderCommand : Type := {
  cmdMessage : string;
  cmdDelayMs : number;
  cmdTimestamp : Date;
  cmdIsValid : bool;
  cmdError : option string
}.

(** A message as the handlers read it: [author.bot], [content],
    [author.id], [channel.id] and [id]. *)
Record Message : Type := {
  msgAuthorBot : bool;
  msgContent : string;
  msgAuthorId : string;
  msgChannelId : string;
  msgId : string
}.

(** The embeds that the handlers of reminders send; colour and title are
    fixed by the kind of embed. *)
Inductive Embed : Type :=
| ErrorEmbed (description : string) (sentAt : Date)
| ReminderSetEmbed (description time jobIdField : string) (sentAt : Date)
| ReminderCancelledEmbed (description : string) (sentAt : Date).

(** [s.slice(n)] *)
Fixpoint slice (n : nat) (s : string) : string :=
  match n, s with
  | O, _ => s
  | S n', String _ s' => slice n' s'
  | S _, EmptyString => EmptyString
  end.

(** [\S+] at the head of [s]: the longest run free of white space, and what
    follows it. *)
Fixpoint spanNonSpace (s : string) : string * string :=
  match s with
  | EmptyString => (EmptyString, EmptyString)
  | String c s' =>
      if isWhiteSpace c then (EmptyString, s)
      else let (g, r) := spanNonSpace s' in (String c g, r)
  end.

(** [-t\s+(\S+)] tried at the head of [s]: the group it captures and what
    follows the match.  [\s+] takes all the white space there is, so a match
    needs a character that is no white space after it. *)
Definition timeFlagHere (s : string) : option (string * string) :=
  match s with
  | String "-" (String "t" (String w r)) =>
      if isWhiteSpace w then
        match spanNonSpace (trimStart r) with
        | (EmptyString, _) => None
        | (g, after) => Some (g, after)
        end
      else None
  | _ => None
  end.

(** The leftmost match of [/-t\s+(\S+)/] in [s]: what precedes it, its group
    and what follows it.  [content.match] reads the group;
    [content.replace(/-t\s+\S+/, '')], whose expression matches the same
    text, leaves what precedes followed by what follows. *)
Fixpoint timeFlag (s : string) : option (string * string * string) :=
  match timeFlagHere s with
  | Some (g, after) => Some (EmptyString, g, after)
  | None =>
      match s with
      | EmptyString => None
      | String c s' =>
          match timeFlag s' with
          | Some (before, g, after) => Some (String c before, g, after)
          | None => None
          end
      end
  end.

Section Bot.

Variable clock : nat -> Z.
Variable LocalTZA : Z -> bool -> Z.
Variable momentParse : string -> Clock.M MomentOutcome.
Variable momentAddWeek : Z -> Z.
Variable bigShow : Z -> string.
Variable bigFormat : Z -> string.
Variable toISOString : Z -> string.

(** [Date.prototype.toLocaleString] *)
Variable toLocaleString : Date -> string.

(** [this.config.maxReminderDelayDays] *)
Variable maxReminderDelayDays : number.

(** The store behind the queue, with the BullMQ calls the handlers reach. *)
Variable Store : Type.
Variable queueAdd : Store -> Job -> Outcome Store.
Variable getJob : Store -> string -> Outcome (option Job).
Variable remove : Store -> Job -> Outcome Store.

(** The store, and the embeds handed to [safeSendMessage] so far, latest
    last.  [safeSendMessage] passes them to [channel.send] and swallows what
    that raises; whether Discord delivers them is outside the program. *)
Definition World : Type := (Store * list Embed)%type.

(** [parseReminderCommand] *)
Definition parseReminderCommand (content : string)
  : Clock.M ParsedReminderCommand :=
  match timeFlag content with
  | None =>
      d <- newDate clock ;;
      Clock.ret {| cmdMessage := content; cmdDelayMs := Num 0;
                   cmdTimestamp := d; cmdIsValid := false;
                   cmdError := Some "Missing time parameter. Use -t <time> to specify when the reminder should fire." |}
  | Some (before, timeString, after) =>
      match trim (before ++ after) with
      | EmptyString =>
          d <- newDate clock ;;
          Clock.ret {| cmdMessage := ""; cmdDelayMs := Num 0;
                       cmdTimestamp := d; cmdIsValid := false;
                       cmdError := Some "Missing reminder message." |}
      | message =>
          timeResult <- parseTime clock LocalTZA momentParse momentAddWeek
                                  timeString ;;
          if negb (isValid timeResult) then
            d <- newDate clock ;;
            Clock.ret {| cmdMessage := message; cmdDelayMs := Num 0;
                         cmdTimestamp := d; cmdIsValid := false;
                         cmdError := error timeResult |}
          else
            Clock.ret {| cmdMessage := message;
                         cmdDelayMs := delayMs timeResult;
                         cmdTimestamp := timestamp timeResult;
                         cmdIsValid := true; cmdError := None |}
      end
  end.

(** [sendErrorMessage], through [safeSendMessage] *)
Definition sendErrorMessage (description : string) (w : World) : Clock.M World :=
  d <- newDate clock ;;
  Clock.ret (fst w, (snd w ++ [ErrorEmbed description d])%list).

(** [handleRemindCommand] *)
Definition handleRemindCommand (message : Message) (w : World) : Clock.M World :=
  let content := trim (slice 7 (msgContent message)) in
  match content with
  | EmptyString =>
      sendErrorMessage "Please provide a reminder message and time. Use `?help` for examples." w
  | _ =>
      parsed <- parseReminderCommand content ;;
      if negb (cmdIsValid parsed) then
        sendErrorMessage (orString (cmdError parsed) "Invalid reminder format.") w
      else
        let delayValidation :=
          validateDelay bigShow (cmdDelayMs parsed) (Some maxReminderDelayDays) in
        if negb (dvIsValid delayValidation) then
          sendErrorMessage (orString (dvError delayValidation) "Invalid delay.") w
        else
          added <- addReminder clock bigShow toISOString Store queueAdd
                     (cmdMessage parsed) (cmdDelayMs parsed)
                     (msgAuthorId message) (msgChannelId message)
                     (msgId message) None (fst w) ;;
          match added with
          | (Returned job, st) =>
              let formattedDelay :=
                formatDelay bigShow bigFormat (cmdDelayMs parsed) in
              d <- newDate clock ;;
              Clock.ret
                (st, (snd w ++
                      [ReminderSetEmbed
                         ("**Message:** " ++ cmdMessage parsed)
                         ("In " ++ formattedDelay ++ " ("
                          ++ toLocaleString (cmdTimestamp parsed) ++ ")")
                         (orString (Some (id job)) "Unknown") d])%list)
          | (Threw _, st) =>
              sendErrorMessage "Failed to schedule your reminder. Please try again."
                               (st, snd w)
          end
  end.

(** [handleCancelCommand] *)
Definition handleCancelCommand (message : Message) (w : World) : Clock.M World :=
  let content := trim (slice 7 (msgContent message)) in
  match content with
  | EmptyString =>
      sendErrorMessage "Please provide a job ID to cancel. Use `?list` to see your reminders." w
  | _ =>
      match cancelReminder Store getJob remove (fst w) content with
      | (Returned true, st) =>
          d <- newDate clock ;;
          Clock.ret
            (st, (snd w ++
                  [ReminderCancelledEmbed
                     ("Successfully cancelled reminder with ID: " ++ content) d])%list)
      | (Returned false, st) =>
          sendErrorMessage ("No reminder found with ID: " ++ content) (st, snd w)
      | (Threw _, st) =>
          sendErrorMessage "Failed to cancel the reminder. Please try again."
                           (st, snd w)
      end
  end.

(** The handlers of [?list], [?help], [?status] and [?calendar], each taken
    together with the [catch] of [handleMessage], which answers a handler
    that raises with an error message.  The two handlers above raise
    nothing: they catch what they call. *)
Variable handleListCommand : Message -> World -> Clock.M World.
Variable handleHelpCommand : Message -> World -> Clock.M World.
Variable handleStatusCommand : Message -> World -> Clock.M World.
Variable handleCalendarCommand : Message -> World -> Clock.M World.

(** [handleMessage] *)
Definition handleMessage (message : Message) (w : World) : Clock.M World :=
  if msgAuthorBot message || negb (startsWith "?" (msgContent message))
  then Clock.ret w
  else
    let command := trim (slice 1 (msgContent message)) in
    if startsWith "remind" command then handleRemindCommand message w
    else if startsWith "cancel" command then handleCancelCommand message w
    else if startsWith "list" command then handleListCommand message w
    else if startsWith "help" command then handleHelpCommand message w
    else if startsWith "status" command then handleStatusCommand message w
    else if startsWith "calendar" command then handleCalendarCommand message w
    else Clock.ret w.

End Bot.

End DiscordBot.
Import DiscordBot.

(* ================================================================== *)
(** * The worker: forcing a job, and the older worker               *)
(* ================================================================== *)

Module WorkerMore.

Section Force.

Variable clock : nat -> Z.
Variable audioCall : Outcome TwilioCallResult.
Variable ttsCall : Outcome TwilioCallResult.
Variable Store : Type.
Variable getJob : Store -> string -> Outcome (option Job).

(** [forceProcessJob] *)
Definition forceProcessJob (st : Store) (jobId : string)
  : Clock.M (Outcome bool) :=
  match getJob st jobId with
  | Returned None => Clock.ret (Returned false)
  | Returned (Some job) =>
      r <- processReminderJob clock audioCall ttsCall job ;;
      match r with
      | Returned _ => Clock.ret (Returned true)
      | Threw _ => Clock.ret (Returned false)
      end
  | Threw _ => Clock.ret (Returned false)
  end.

End Force.

End WorkerMore.
Import WorkerMore.

(** The older worker, which calls from the handler of ['completed']. *)
Module CompletedJobWorker.

Section Completed.

Variable clock : nat -> Z.
Variable bigShow : Z -> string.
Variable Queue : Type.
Variable queueAdd : Queue -> Job -> Outcome Queue.
Variable audioCall : Outcome TwilioCallResult.
Variable ttsCall : Outcome TwilioCallResult.

(** [processCompletedJob(job, result)]: the result as the method leaves it,
    and the queue. *)
Definition processCompletedJob (job : Job) (result : ReminderJobResult)
           (q : Queue) : Clock.M (ReminderJobResult * Queue) :=
  let callOutcome :=
    match audioFile (data job) with
    | Some (String _ _) => audioCall
    | _ => ttsCall
    end in
  match callOutcome with
  | Returned callResult =>
      if success callResult then
        Clock.ret
          ({| resultSuccess := resultSuccess result;
              resultMessageId := resultMessageId result;
              resultTimestamp := resultTimestamp result;
              resultMessage := "Reminder delivered via phone call. Call SID: "
                               ++ showOptional (callSid callResult);
              resultCallSid := callSid callResult |}, q)
      else
        q' <- scheduleRetry clock bigShow Queue queueAdd job q ;;
        Clock.ret
          ({| resultSuccess := false;
              resultMessageId := resultMessageId result;
              resultTimestamp := resultTimestamp result;
              resultMessage := "Failed to make phone call: "
                               ++ showOptional (callError callResult);
              resultCallSid := resultCallSid result |}, q')
  | Threw e =>
      q' <- scheduleRetry clock bigShow Queue queueAdd job q ;;
      Clock.ret
        ({| resultSuccess := false;
            resultMessageId := resultMessageId result;
            resultTimestamp := resultTimestamp result;
            resultMessage := "Error processing reminder: "
                             ++ match e with
                                | ErrorObject m => m
                                | OtherValue => "Unknown error"
                                end;
            resultCallSid := resultCallSid result |}, q')
  end.

End Completed.

End CompletedJobWorker.
Import CompletedJobWorker.

(* ================================================================== *)
(** * The Redis connection                                          *)
(* ================================================================== *)

Module RedisConnection.

Definition cr : ascii := ascii_of_nat 13.
Definition lf : ascii := ascii_of_nat 10.
Definition crlf : string := String cr (String lf EmptyString).

(** One more character in front of the first piece of a split. *)
Definition consFirst (c : ascii) (parts : list string) : list string :=
  match parts with
  | h :: t => String c h :: t
  | [] => [String c EmptyString]
  end.

(** [s.split('\r\n')] *)
Fixpoint splitLines (s : string) : list string :=
  match s with
  | EmptyString => [EmptyString]
  | String a s' =>
      match s' with
      | String b s'' =>
          if Ascii.eqb a cr && Ascii.eqb b lf
          then EmptyString :: splitLines s''
          else consFirst a (splitLines s')
      | EmptyString => consFirst a (splitLines s')
      end
  end.

(** [s.split(':')] *)
Fixpoint splitColon (s : string) : list string :=
  match s with
  | EmptyString => [EmptyString]
  | String a s' =>
      if Ascii.eqb a ":" then EmptyString :: splitColon s'
      else consFirst a (splitColon s')
  end.

(** The own properties of the object that [getInfo] fills, the latest
    assignment first; a value is a string or [undefined]. *)
Definition InfoRecord : Type := list (string * option string).

(** [result[key] = value] on an object literal, for a value that is no
    object: the key [__proto__] reaches the setter of [Object.prototype],
    which ignores such a value; any other key becomes an own property. *)
Definition assign (result : InfoRecord) (key : string) (value : option string)
  : InfoRecord :=
  if String.eqb key "__proto__" then result else (key, value) :: result.

(** The own property [key] of [result], if it has one. *)
Fixpoint getOwn (result : InfoRecord) (key : string) : option (option string) :=
  match result with
  | [] => None
  | (k, v) :: rest => if String.eqb k key then Some v else getOwn rest key
  end.

(** The body of the loop of [getInfo]: [const [key, value] = line.split(':')]
    takes the first two pieces. *)
Definition readLine (result : InfoRecord) (line : string) : InfoRecord :=
  if includes line ":" then
    let parts := splitColon line in
    assign result (hd EmptyString parts) (nth_error parts 1)
  else result.

(** [getInfo]: [redis] is [None] before [connect], and otherwise what
    [this.redis.info()] settles with. *)
Definition getInfo (redis : option (Outcome string)) : Outcome InfoRecord :=
  match redis with
  | None => Threw (ErrorObject "Redis not connected")
  | Some (Returned info) => Returned (fold_left readLine (splitLines info) [])
  | Some (Threw e) => Threw e
  end.

(** What follows [p] when [s] starts with it. *)
Fixpoint afterPrefix (p s : string) : option string :=
  match p, s with
  | EmptyString, _ => Some s
  | String a p', String b s' =>
      if Ascii.eqb a b then afterPrefix p' s' else None
  | String _ _, EmptyString => None
  end.

(** [used_memory:(\d+)] tried at the head of [s]: the group. *)
Definition usedMemoryHere (s : string) : option string :=
  match afterPrefix "used_memory:" s with
  | Some r =>
      match fst (spanDigits r) with
      | EmptyString => None
      | ds => Some ds
      end
  | None => None
  end.

(** The group of the leftmost match of [/used_memory:(\d+)/] in [s]. *)
Fixpoint usedMemoryMatch (s : string) : option string :=
  match usedMemoryHere s with
  | Some g => Some g
  | None =>
      match s with
      | EmptyString => None
      | String _ s' => usedMemoryMatch s'
      end
  end.

(** [getMemoryUsage]: [redis] is [None] before [connect], and otherwise what
    [this.redis.info('memory')] settles with. *)
Definition getMemoryUsage (redis : option (Outcome string)) : Outcome number :=
  match redis with
  | None => Threw (ErrorObject "Redis not connected")
  | Some (Returned info) =>
      Returned (match usedMemoryMatch info with
                | Some g => parseInt g
                | None => Num 0
                end)
  | Some (Threw e) => Threw e
  end.

End RedisConnection.
Import RedisConnection.

(* ================================================================== *)
(** * More vocabulary, and more of the concrete environment         *)
(* ================================================================== *)

Module Text.

(** The entity that stands for a character in XML text. *)
Definition escapeChar (c : ascii) : string :=
  if Ascii.eqb c "&" then "&amp;"
  else if Ascii.eqb c "<" then "&lt;"
  else if Ascii.eqb c ">" then "&gt;"
  else if Ascii.eqb c doubleQuote then "&quot;"
  else if Ascii.eqb c "'" then "&#39;"
  else String c EmptyString.

Fixpoint escape (s : string) : string :=
  match s with
  | EmptyString => EmptyString
  | String c s' => escapeChar c ++ escape s'
  end.

(** The characters that delimit markup and attribute values. *)
Definition markup : list ascii := ["<"; ">"; doubleQuote; "'"]%char.

(** [c] occurs in [s]. *)
Fixpoint occurs (c : ascii) (s : string) : bool :=
  match s with
  | EmptyString => false
  | String a s' => Ascii.eqb a c || occurs c s'
  end.

(** Some character of [s] is white space. *)
Fixpoint anySpace (s : string) : bool :=
  match s with
  | EmptyString => false
  | String c s' => isWhiteSpace c || anySpace s'
  end.

(** The key of a line of the server's report: what precedes its first
    colon. *)
Definition keyOf (line : string) : string := hd EmptyString (splitColon line).

(** A line that holds no carriage return. *)
Definition oneLine (line : string) : Prop := occurs cr line = false.

End Text.

Import Text.

Module Delays.

(** Numbers that are above zero: the positive doubles and [+Infinity]. *)
Definition aboveZero (a : number) : Prop := lt (Num 0) a = true.

(** [a] is the double that the program reaches for the positive integer [x]:
    [x] itself while [x] is below 2^53; above, a double that is still at or
    above 2^53, or infinity. *)
Definition reaches (a : number) (x : Z) : Prop :=
  if x <? two53 then a = Num x
  else a = PosInf \/ exists m, a = Num m /\ two53 <= m.

(** A delay that is a whole number of seconds below a minute, of minutes
    below an hour, of hours below a day, or of days. *)
Definition wholeUnit (d : Z) : Prop :=
  (1000 <= d < 60000 /\ d mod 1000 = 0)
  \/ (60000 <= d < 3600000 /\ d mod 60000 = 0)
  \/ (3600000 <= d < 86400000 /\ d mod 3600000 = 0)
  \/ (86400000 <= d < two53 /\ d mod 86400000 = 0).

End Delays.

Import Delays.

Module Jobs.

(** The job that a calendar event gives rise to, when its reminder is
    created at the clock reading [created], named at the reading [named]
    and due after [due] milliseconds. *)
Definition calendarJob (bigShow : Z -> string) (toISOString : Z -> string)
           (toLocaleTimeString : Date -> string)
           (event : CalendarEvent) (created named due : Z) : Job :=
  let newId := "remind-calendar-" ++ eventId event ++ "-"
               ++ showNumber bigShow (Num named) in
  {| id := newId; name := "reminder";
     data := {| message := createReminderMessage toLocaleTimeString event;
                userId := "google-calendar";
                channelId := "calendar-system";
                messageId := "calendar-" ++ eventId event;
                ttsVoice := Some "alice";
                audioFile := None;
                dataPriority := Some (Num 10);
                createdAt := toISOString created |};
     opts := {| delay := Some (Num due); priority := Some (Num 10);
                jobId := Some newId; attempts := None |} |}.

(** What a job of the calendar looks like. *)
Definition calendarReminder (j : Job) : Prop :=
  name j = "reminder" /\ userId (data j) = "google-calendar"
  /\ channelId (data j) = "calendar-system"
  /\ priority (opts j) = Some (Num 10)
  /\ exists d, delay (opts j) = Some (Num d) /\ 0 <= d.

(** A start that does not fall inside the window [t0, t1] of a
    synchronisation, and lies near enough for the differences to be exact. *)
Definition settled (t0 t1 : Z) (start : Date) : Prop :=
  match start with
  | Num s => (s <= t0 \/ t1 < s) /\ Z.abs (s - t0) < two53 /\ Z.abs (s - t1) < two53
  | NaN => True
  | _ => False
  end.

(** [start] is an instant after [t]. *)
Definition startsAfter (t : Z) (start : Date) : bool :=
  match start with
  | Num s => t <? s
  | _ => false
  end.

(** The items that lead to a reminder: those with a start date-time that
    lies after [t]. *)
Definition remindable (dateParse : string -> Date) (t : Z) (item : EventItem)
  : bool :=
  match itemStart item with
  | Some (Some (String c r)) => startsAfter t (dateParse (String c r))
  | _ => false
  end.

(** The job that [?remind] puts in the queue for the message [message],
    created at the clock reading [created] and named at the reading [named]. *)
Definition reminderJob (bigShow : Z -> string) (toISOString : Z -> string)
           (message : Message) (text : string) (due created named : Z) : Job :=
  let newId := "remind-" ++ msgId message ++ "-" ++ showNumber bigShow (Num named) in
  {| id := newId; name := "reminder";
     data := {| Bull.message := text;
                userId := msgAuthorId message;
                channelId := msgChannelId message;
                messageId := msgId message;
                ttsVoice := Some "alice";
                audioFile := None;
                dataPriority := Some (Num 0);
                createdAt := toISOString created |};
     opts := {| delay := Some (Num due); priority := Some (Num 0);
                jobId := Some newId; attempts := None |} |}.

(** A call that did not go through. *)
Definition failing (call : Outcome TwilioCallResult) : Prop :=
  match call with
  | Returned callResult => success callResult = false
  | Threw _ => True
  end.

End Jobs.

Import Jobs.

Module Samples.

(** A clock that advances by one millisecond at each reading, from
    2024-01-15T10:00:00Z. *)
Definition ticking : nat -> Z := fun k => 1705312800000 + Z.of_nat k.

(** A command as a user types it. *)
Definition remindMessage : Message :=
  {| msgAuthorBot := false; msgContent := "?remind Call mom -t 45m";
     msgAuthorId := "42"; msgChannelId := "7"; msgId := "1001" |}.

(** Three items of a calendar: a meeting in an hour, an all-day event and a
    meeting an hour ago. *)
Definition meeting (identifier dateTime : string) : EventItem :=
  {| itemId := Some identifier; itemSummary := Some "Review";
     itemDescription := None; itemStart := Some (Some dateTime);
     itemEnd := None; itemLocation := None; itemAttendees := None;
     itemOrganizer := None |}.

Definition allDay : EventItem :=
  {| itemId := Some "e2"; itemSummary := Some "Holiday";
     itemDescription := None; itemStart := Some None; itemEnd := None;
     itemLocation := None; itemAttendees := None; itemOrganizer := None |}.

Definition items : list EventItem :=
  [meeting "e1" "2024-01-15T11:00:00Z"; allDay;
   meeting "e3" "2024-01-15T09:00:00Z"].

(** [new Date(...)] on the two date-time strings of [items]. *)
Definition dateParse (s : string) : Date :=
  if String.eqb s "2024-01-15T11:00:00Z" then Num 1705316400000
  else if String.eqb s "2024-01-15T09:00:00Z" then Num 1705309200000
  else NaN.

(** Calls that Twilio refuses. *)
Definition refused : Outcome TwilioCallResult :=
  makeCallWithTTS (Threw (ErrorObject "ETIMEDOUT")).

(** The result of the queue's own processor, which the older worker is
    handed with a completed job. *)
Definition placeholder : ReminderJobResult :=
  {| resultSuccess := true; resultMessageId := "remind-1001-1705312800000";
     resultTimestamp := Num 1705312800000;
     resultMessage := "Reminder processed successfully";
     resultCallSid := None |}.

End Samples.

(* ================================================================== *)
(** * Numbers and strings                                               *)
(* ================================================================== *)

Lemma two53_lt_overflowBound : two53 < overflowBound.
Proof. vm_compute. reflexivity. Qed.

Lemma toNumber_exact (z : Z) : Z.abs z < two53 -> toNumber z = Num z.
Proof.
  intros Hz. unfold toNumber, roundMagnitude.
  destruct (Z.ltb_spec (Z.abs z) two53) as [_|Hge]; [|lia].
  pose proof two53_lt_overflowBound as Hb.
  destruct (Z.leb_spec overflowBound (Z.abs z)) as [Hle|_]; [lia|].
  f_equal. rewrite Z.mul_comm. apply Z.abs_sgn.
Qed.

Lemma mul_exact (x y : Z) : Z.abs (x * y) < two53 -> mul (Num x) (Num y) = Num (x * y).
Proof. intros H. simpl. now apply toNumber_exact. Qed.

Lemma add_exact (x y : Z) : Z.abs (x + y) < two53 -> add (Num x) (Num y) = Num (x + y).
Proof. intros H. simpl. now apply toNumber_exact. Qed.

Lemma sub_exact (x y : Z) : Z.abs (x - y) < two53 -> sub (Num x) (Num y) = Num (x - y).
Proof. intros H. unfold sub. simpl neg. rewrite add_exact; [reflexivity|exact H]. Qed.

(** Rounding at work: 2^53 + 1 lies half way between two doubles and goes to
    the even one, 2^53 + 3 goes up to 2^53 + 4, and a number of 309 digits
    overflows. *)
Lemma toNumber_examples :
  toNumber 9007199254740993 = Num 9007199254740992
  /\ toNumber 9007199254740994 = Num 9007199254740994
  /\ toNumber 9007199254740995 = Num 9007199254740996
  /\ toNumber (- 9007199254740993) = Num (- 9007199254740992)
  /\ toNumber (Z.shiftl 1 1023 + 1) = Num (Z.shiftl 1 1023)
  /\ toNumber (2 * 10 ^ 308) = PosInf.
Proof. repeat split; vm_compute; reflexivity. Qed.

(** The same values on the machine's doubles: the conversion of 2^53 + 1,
    the three multiplications of an hour from 2^53 + 4, and the four
    multiplications of [validateDelay] from 10^15 + 1 days, each next to the
    single multiplication by the whole factor. *)
Lemma machine_agrees :
  machineToZ (machineOfZ 9007199254740993) = Some 9007199254740992
  /\ machineToZ (machineOfZ 9007199254740996 * machineOfZ 60 * machineOfZ 60
                 * machineOfZ 1000)%float
     = Some 32425917317067587977216
  /\ mul (mul (mul (Num 9007199254740996) (Num 60)) (Num 60)) (Num 1000)
     = Num 32425917317067587977216
  /\ machineToZ (machineOfZ 9007199254740996 * machineOfZ 3600000)%float
     = Some 32425917317067583782912
  /\ toNumber (9007199254740996 * 3600000) = Num 32425917317067583782912
  /\ machineToZ (machineOfZ 1000000000000001 * machineOfZ 24 * machineOfZ 60
                 * machineOfZ 60 * machineOfZ 1000)%float
     = Some 86400000000000100663296
  /\ mul (mul (mul (mul (Num 1000000000000001) (Num 24)) (Num 60)) (Num 60))
         (Num 1000)
     = Num 86400000000000100663296
  /\ machineToZ (machineOfZ 1000000000000001 * machineOfZ 86400000)%float
     = Some 86400000000000083886080
  /\ toNumber (1000000000000001 * 86400000) = Num 86400000000000083886080.
Proof. repeat split; vm_compute; reflexivity. Qed.

Ltac each_char c := destruct c as [[] [] [] [] [] [] [] []].

(** Evaluate the lower-casings and string comparisons whose arguments are
    literals, then the conditionals they decide. *)
Ltac eval_closed_strings :=
  repeat match goal with
         | |- context [toLowerCase ?x] =>
             is_ground x;
             let v := eval vm_compute in (toLowerCase x) in
             change (toLowerCase x) with v
         | |- context [String.eqb ?a ?b] =>
             is_ground a; is_ground b;
             let v := eval vm_compute in (String.eqb a b) in
             change (String.eqb a b) with v
         end;
  cbv iota beta.

Lemma isDigit_facts (c : ascii) :
  isDigit c = true ->
  isWhiteSpace c = false /\ lowerChar c = c /\ 0 <= digitValue c <= 9
  /\ c <> "-"%char /\ c <> "+"%char.
Proof.
  each_char c; intros H; try discriminate H;
    (repeat split; try reflexivity; try discriminate; vm_compute; discriminate).
Qed.

Lemma unitLetters_spec (u : ascii) :
  In u unitLetters <-> isUnitLetter u = true.
Proof.
  split.
  - intros H. repeat (destruct H as [<-|H]; [reflexivity|]). destruct H.
  - each_char u; intros H; try discriminate H; simpl; tauto.
Qed.

Lemma unitLetter_facts (u : ascii) :
  isUnitLetter u = true ->
  isDigit u = false /\ isWhiteSpace u = false
  /\ In (lowerChar u) ["s"; "m"; "h"; "d"; "w"]%char.
Proof.
  each_char u; intros H; try discriminate H; simpl; tauto.
Qed.

Lemma toLowerCase_app (a b : string) :
  toLowerCase (a ++ b) = toLowerCase a ++ toLowerCase b.
Proof. induction a as [|c a IH]; simpl; [reflexivity|now rewrite IH]. Qed.

Lemma toLowerCase_digits (ds : string) : allDigits ds = true -> toLowerCase ds = ds.
Proof.
  induction ds as [|c ds IH]; simpl; [reflexivity|].
  intros H. apply andb_prop in H as [Hc Hds].
  destruct (isDigit_facts c Hc) as (_ & -> & _). now rewrite IH.
Qed.

Lemma trimEnd_last (s : string) (u : ascii) :
  isWhiteSpace u = false -> trimEnd (s ++ String u "") = s ++ String u "".
Proof.
  intros Hu. induction s as [|c s IH]; simpl.
  - now rewrite Hu.
  - rewrite IH. destruct s; reflexivity.
Qed.

Lemma trimStart_digits (ds : string) :
  allDigits ds = true -> trimStart ds = ds.
Proof.
  destruct ds as [|c ds]; simpl; [reflexivity|].
  intros H. apply andb_prop in H as [Hc _].
  destruct (isDigit_facts c Hc) as (-> & _). reflexivity.
Qed.

Lemma trimStart_digits_app (ds r : string) :
  ds <> "" -> allDigits ds = true -> trimStart (ds ++ r) = ds ++ r.
Proof.
  destruct ds as [|c ds]; [congruence|]. simpl. intros _ H.
  apply andb_prop in H as [Hc _].
  destruct (isDigit_facts c Hc) as (-> & _). reflexivity.
Qed.

Lemma spanDigits_app (ds r : string) :
  allDigits ds = true ->
  spanDigits (ds ++ r) = (ds ++ fst (spanDigits r), snd (spanDigits r)).
Proof.
  induction ds as [|c ds IH]; simpl.
  - intros _. now destruct (spanDigits r).
  - intros H. apply andb_prop in H as [-> Hds]. rewrite (IH Hds). reflexivity.
Qed.

Lemma spanDigits_all (ds : string) :
  allDigits ds = true -> spanDigits ds = (ds, "").
Proof.
  induction ds as [|c ds IH]; simpl; [reflexivity|].
  intros H. apply andb_prop in H as [-> Hds]. now rewrite (IH Hds).
Qed.

Lemma spanDigits_stop (ds : string) (c : ascii) (r : string) :
  allDigits ds = true -> isDigit c = false ->
  spanDigits (ds ++ String c r) = (ds, String c r).
Proof.
  intros Hds Hc. rewrite (spanDigits_app _ _ Hds). simpl. rewrite Hc. simpl.
  f_equal. induction ds; simpl; [reflexivity|]. f_equal.
  apply IHds. simpl in Hds. now apply andb_prop in Hds as [_ ?].
Qed.

Lemma decimalFrom_shift (s : string) (acc : Z) :
  decimalFrom acc s = acc * 10 ^ Z.of_nat (String.length s) + decimalFrom 0 s.
Proof.
  revert acc. induction s as [|c s IH]; intros acc.
  - simpl. lia.
  - cbn [decimalFrom String.length]. rewrite (IH (10 * acc + digitValue c)).
    rewrite (IH (10 * 0 + digitValue c)).
    rewrite Nat2Z.inj_succ, Z.pow_succ_r by lia. ring.
Qed.

Lemma decimalValue_bounds (s : string) :
  allDigits s = true ->
  0 <= decimalValue s < 10 ^ Z.of_nat (String.length s).
Proof.
  unfold decimalValue. induction s as [|c s IH].
  - simpl. lia.
  - cbn [allDigits decimalFrom String.length]. intros H.
    apply andb_prop in H as [Hc Hs]. specialize (IH Hs).
    destruct (isDigit_facts c Hc) as (_ & _ & Hd & _).
    rewrite decimalFrom_shift.
    rewrite Nat2Z.inj_succ, Z.pow_succ_r by lia.
    replace (10 * 0 + digitValue c) with (digitValue c) by ring.
    nia.
Qed.

Lemma parseInt_digits (ds : string) :
  ds <> "" -> allDigits ds = true -> parseInt ds = toNumber (decimalValue ds).
Proof.
  intros Hne Hds. unfold parseInt. rewrite (trimStart_digits _ Hds).
  destruct ds as [|c ds]; [congruence|].
  pose proof Hds as Hds'. simpl in Hds'. apply andb_prop in Hds' as [Hc _].
  destruct (isDigit_facts c Hc) as (_ & _ & _ & Hm & Hp).
  assert (Hsign : (match String c ds with
                   | String "-" r => (true, r)
                   | String "+" r => (false, r)
                   | _ => (false, String c ds)
                   end) = (false, String c ds)).
  { each_char c; try reflexivity; congruence. }
  rewrite Hsign. rewrite (spanDigits_all _ Hds). reflexivity.
Qed.

Lemma parseInt_small (ds : string) :
  ds <> "" -> allDigits ds = true -> decimalValue ds < two53 ->
  parseInt ds = Num (decimalValue ds).
Proof.
  intros Hne Hds Hb. rewrite (parseInt_digits _ Hne Hds).
  apply toNumber_exact. pose proof (decimalValue_bounds _ Hds). lia.
Qed.

(* ================================================================== *)
(** * Relative durations                                                *)
(* ================================================================== *)

Lemma RELATIVE_TIME_REGEX_match (ds : string) (u : ascii) :
  ds <> "" -> allDigits ds = true -> isUnitLetter u = true ->
  RELATIVE_TIME_REGEX (ds ++ String u "") = Some (ds, String u "").
Proof.
  intros Hne Hds Hu. unfold RELATIVE_TIME_REGEX.
  destruct (unitLetter_facts u Hu) as (Hnd & _).
  rewrite (spanDigits_stop _ _ _ Hds Hnd).
  destruct ds; [congruence|]. now rewrite Hu.
Qed.

Lemma normalise_relative (ds : string) (u : ascii) :
  ds <> "" -> allDigits ds = true -> isUnitLetter u = true ->
  toLowerCase (trim (ds ++ String u "")) = ds ++ String (lowerChar u) "".
Proof.
  intros Hne Hds Hu. destruct (unitLetter_facts u Hu) as (_ & Hw & _).
  unfold trim. rewrite (trimStart_digits_app _ _ Hne Hds), (trimEnd_last _ _ Hw).
  rewrite toLowerCase_app, (toLowerCase_digits _ Hds). reflexivity.
Qed.

Lemma minute_factor (n : Z) : n * 60 * 1000 = n * 60000.
Proof. lia. Qed.

Lemma hour_factor (n : Z) : n * 60 * 60 * 1000 = n * 3600000.
Proof. lia. Qed.

Lemma day_factor (n : Z) : n * 24 * 60 * 60 * 1000 = n * 86400000.
Proof. lia. Qed.

Lemma week_factor (n : Z) : n * 7 * 24 * 60 * 60 * 1000 = n * 604800000.
Proof. lia. Qed.

Ltac eval_unitMs :=
  repeat match goal with
         | |- context [unitMs ?c] =>
             is_ground c;
             let v := eval vm_compute in (unitMs c) in
             change (unitMs c) with v
         | H : context [unitMs ?c] |- _ =>
             is_ground c;
             let v := eval vm_compute in (unitMs c) in
             change (unitMs c) with v in H
         end.

Section RelativeTime.

Variable clock : nat -> Z.

(** What [parseRelativeTime] returns on digits followed by a lower-case unit
    letter, while the product stays below 2^53. *)
Lemma parseRelativeTime_exact (ds : string) (l : ascii) (k : nat) :
  ds <> "" -> allDigits ds = true ->
  In l ["s"; "m"; "h"; "d"; "w"]%char ->
  0 < decimalValue ds ->
  decimalValue ds * unitMs l < two53 ->
  parseRelativeTime clock (ds ++ String l "") k =
  ({| isValid := true;
      delayMs := Num (decimalValue ds * unitMs l);
      timestamp := ofNumber (add (Num (clock k)) (Num (decimalValue ds * unitMs l)));
      error := None;
      originalInput := ds ++ String l "" |}, S k).
Proof.
  intros Hne Hds Hl Hpos Hb.
  assert (Hu : isUnitLetter l = true).
  { repeat (destruct Hl as [<-|Hl]; [reflexivity|]). destruct Hl. }
  unfold parseRelativeTime. rewrite (RELATIVE_TIME_REGEX_match _ _ Hne Hds Hu).
  assert (Hn : decimalValue ds < two53 -> parseInt ds = Num (decimalValue ds))
    by (now apply parseInt_small).
  generalize dependent (decimalValue ds). intros n Hpos Hb Hn.
  assert (Hn' : parseInt ds = Num n).
  { apply Hn.
    repeat (destruct Hl as [<-|Hl]; [eval_unitMs; lia|]). destruct Hl. }
  clear Hn. rewrite Hn'. cbn [le].
  destruct (Z.leb_spec n 0) as [Hle|_]; [lia|].
  repeat (destruct Hl as [<-|Hl];
          [ eval_unitMs;
            eval_closed_strings;
            repeat (rewrite mul_exact by lia);
            cbv [Clock.bind dateNow Clock.read Clock.ret];
            rewrite ?week_factor, ?day_factor, ?hour_factor, ?minute_factor;
            reflexivity
          | ]).
  destruct Hl.
Qed.

End RelativeTime.

(* ================================================================== *)
(** * parseTime: which family answers                                   *)
(* ================================================================== *)

Section ParseTime.

Variable clock : nat -> Z.
Variable LocalTZA : Z -> bool -> Z.
Variable momentParse : string -> Clock.M MomentOutcome.
Variable momentAddWeek : Z -> Z.

Local Abbreviation parseTime' :=
  (parseTime clock LocalTZA momentParse momentAddWeek).
Local Abbreviation parseNaturalLanguage' :=
  (parseNaturalLanguage clock momentParse momentAddWeek).

Ltac split_ifs :=
  repeat match goal with
         | |- context [if ?b then _ else _] => destruct b
         end.

Lemma failure_run (err : option string) (s : string) (k : nat) :
  failure clock err s k =
  ({| isValid := false; delayMs := Num 0; timestamp := Num (clock k);
      error := err; originalInput := s |}, S k).
Proof. reflexivity. Qed.

Lemma parseRelativeTime_input (s : string) (k : nat) :
  originalInput (fst (parseRelativeTime clock s k)) = s.
Proof.
  unfold parseRelativeTime.
  destruct (RELATIVE_TIME_REGEX s) as [[g1 g2]|]; [|reflexivity].
  destruct (le (parseInt g1) (Num 0)); [reflexivity|].
  split_ifs; reflexivity.
Qed.

Lemma parseAbsoluteTime_input (s : string) (k : nat) :
  originalInput (fst (parseAbsoluteTime clock LocalTZA s k)) = s.
Proof.
  unfold parseAbsoluteTime.
  destruct (ABSOLUTE_TIME_REGEX s) as [[[g1 g2] g3]|]; [|reflexivity].
  match goal with |- context [if ?b then _ else _] => destruct b end;
    reflexivity.
Qed.

Lemma parseDateTime_input (s : string) (k : nat) :
  originalInput (fst (parseDateTime clock LocalTZA s k)) = s.
Proof.
  unfold parseDateTime.
  destruct (DATE_TIME_REGEX s) as [[[[[[g1 g2] g3] g4] g5] g6]|]; [|reflexivity].
  cbv [Clock.bind newDate Clock.read Clock.ret].
  match goal with |- context [if isNaN ?b then _ else _] => destruct (isNaN b) end;
    [reflexivity|].
  match goal with |- context [if ?b then _ else _] => destruct b end;
    reflexivity.
Qed.

Lemma parseUnixTimestamp_input (s : string) (k : nat) :
  originalInput (fst (parseUnixTimestamp clock s k)) = s.
Proof.
  unfold parseUnixTimestamp.
  destruct (UNIX_TIMESTAMP_REGEX s); [|reflexivity]. cbn [negb].
  cbv [Clock.bind newDate Clock.read Clock.ret].
  match goal with |- context [if le ?a ?b then _ else _] => destruct (le a b) end;
    reflexivity.
Qed.

(** A result of the natural-language family: its input is kept, and when it
    is valid it carries no error. *)
Lemma parseNaturalLanguage_result (s : string) (k : nat) :
  originalInput (fst (parseNaturalLanguage' s k)) = s
  /\ (isValid (fst (parseNaturalLanguage' s k)) = true ->
      error (fst (parseNaturalLanguage' s k)) = None).
Proof.
  unfold parseNaturalLanguage, Clock.bind.
  destruct (momentParse (toLowerCase s) k) as [[| |p] k1].
  - split; [reflexivity|discriminate].
  - split; [reflexivity|discriminate].
  - cbv [Clock.read].
    match goal with |- context [if le ?a ?b then _ else _] => destruct (le a b) end.
    + split; [reflexivity|discriminate].
    + split; reflexivity.
Qed.

(** A family that answers with a valid result ends [parseTime]. *)
Lemma parseTime_relative (s : string) (k : nat) :
  isValid (fst (parseRelativeTime clock (toLowerCase (trim s)) k)) = true ->
  parseTime' s k = parseRelativeTime clock (toLowerCase (trim s)) k.
Proof.
  intros H. unfold parseTime, Clock.bind.
  destruct (parseRelativeTime clock (toLowerCase (trim s)) k) as [r k1].
  simpl in H. rewrite H. reflexivity.
Qed.

(** When the four families with a regular expression all answer with an
    invalid result, whatever its error, [parseTime] goes on to the natural
    language family, and an invalid answer there gives the general message. *)
Lemma parseTime_fallthrough (s : string) (k k1 k2 k3 k4 k5 : nat)
      (r1 r2 r3 r4 r5 : TimeParseResult) :
  let input := toLowerCase (trim s) in
  parseRelativeTime clock input k = (r1, k1) -> isValid r1 = false ->
  parseAbsoluteTime clock LocalTZA input k1 = (r2, k2) -> isValid r2 = false ->
  parseDateTime clock LocalTZA input k2 = (r3, k3) -> isValid r3 = false ->
  parseUnixTimestamp clock input k3 = (r4, k4) -> isValid r4 = false ->
  parseNaturalLanguage' input k4 = (r5, k5) ->
  parseTime' s k =
  if isValid r5 then (r5, k5)
  else ({| isValid := false; delayMs := Num 0; timestamp := Num (clock k5);
           error := Some (unableToParse s); originalInput := s |}, S k5).
Proof.
  cbv zeta. intros H1 E1 H2 E2 H3 E3 H4 E4 H5.
  unfold parseTime, Clock.bind.
  rewrite H1, E1, H2, E2, H3, E3, H4, E4, H5.
  destruct (isValid r5); reflexivity.
Qed.

(** The input that every valid result of [parseTime] carries. *)
Lemma parseTime_valid_input (s : string) (k : nat) :
  isValid (fst (parseTime' s k)) = true ->
  originalInput (fst (parseTime' s k)) = toLowerCase (trim s).
Proof.
  unfold parseTime, Clock.bind.
  pose proof (parseRelativeTime_input (toLowerCase (trim s)) k) as H1.
  destruct (parseRelativeTime clock (toLowerCase (trim s)) k) as [r1 k1].
  destruct (isValid r1) eqn:E1; [intros _; exact H1|].
  pose proof (parseAbsoluteTime_input (toLowerCase (trim s)) k1) as H2.
  destruct (parseAbsoluteTime clock LocalTZA (toLowerCase (trim s)) k1) as [r2 k2].
  destruct (isValid r2) eqn:E2; [intros _; exact H2|].
  pose proof (parseDateTime_input (toLowerCase (trim s)) k2) as H3.
  destruct (parseDateTime clock LocalTZA (toLowerCase (trim s)) k2) as [r3 k3].
  destruct (isValid r3) eqn:E3; [intros _; exact H3|].
  pose proof (parseUnixTimestamp_input (toLowerCase (trim s)) k3) as H4.
  destruct (parseUnixTimestamp clock (toLowerCase (trim s)) k3) as [r4 k4].
  destruct (isValid r4) eqn:E4; [intros _; exact H4|].
  pose proof (parseNaturalLanguage_result (toLowerCase (trim s)) k4) as [H5 _].
  destruct (parseNaturalLanguage' (toLowerCase (trim s)) k4) as [r5 k5].
  destruct (isValid r5) eqn:E5; [intros _; exact H5|].
  simpl. discriminate.
Qed.

End ParseTime.

(* ================================================================== *)
(** * C1: a family's own error does not end parseTime                   *)
(* ================================================================== *)

Section FamilyErrors.

Variable clock : nat -> Z.
Variable LocalTZA : Z -> bool -> Z.
Variable momentParse : string -> Clock.M MomentOutcome.
Variable momentAddWeek : Z -> Z.

Lemma relative_zero_hours (k : nat) :
  parseRelativeTime clock "0h" k =
  ({| isValid := false; delayMs := Num 0; timestamp := Num (clock k);
      error := Some "Time value must be greater than 0";
      originalInput := "0h" |}, S k).
Proof. reflexivity. Qed.

Lemma absolute_hour_25 (k : nat) :
  parseAbsoluteTime clock LocalTZA "25:00" k =
  ({| isValid := false; delayMs := Num 0; timestamp := Num (clock k);
      error := Some "Invalid time values";
      originalInput := "25:00" |}, S k).
Proof. reflexivity. Qed.

(** What [parseTime] answers once the four families with a regular
    expression have declined: the valid result of the natural-language
    family, or the general message. *)
Lemma parseTime_declined (s : string) (k : nat) (e1 e2 e3 e4 : option string) :
  let input := toLowerCase (trim s) in
  parseRelativeTime clock input k =
    ({| isValid := false; delayMs := Num 0; timestamp := Num (clock k);
        error := e1; originalInput := input |}, S k) ->
  parseAbsoluteTime clock LocalTZA input (S k) =
    ({| isValid := false; delayMs := Num 0; timestamp := Num (clock (S k));
        error := e2; originalInput := input |}, S (S k)) ->
  fst (parseDateTime clock LocalTZA input (S (S k))) =
    {| isValid := false; delayMs := Num 0;
       timestamp := timestamp (fst (parseDateTime clock LocalTZA input (S (S k))));
       error := e3; originalInput := input |} ->
  fst (parseUnixTimestamp clock input
         (snd (parseDateTime clock LocalTZA input (S (S k))))) =
    {| isValid := false; delayMs := Num 0;
       timestamp := timestamp (fst (parseUnixTimestamp clock input
                      (snd (parseDateTime clock LocalTZA input (S (S k))))));
       error := e4; originalInput := input |} ->
  let r := fst (parseTime clock LocalTZA momentParse momentAddWeek s k) in
  (isValid r = true /\ error r = None)
  \/ (isValid r = false /\ error r = Some (unableToParse s)).
Proof.
  cbv zeta. intros H1 H2 H3 H4.
  destruct (parseDateTime clock LocalTZA (toLowerCase (trim s)) (S (S k)))
    as [r3 k3] eqn:E3.
  cbn [fst snd] in H3, H4.
  destruct (parseUnixTimestamp clock (toLowerCase (trim s)) k3) as [r4 k4] eqn:E4.
  cbn [fst snd] in H4.
  destruct (parseNaturalLanguage clock momentParse momentAddWeek
              (toLowerCase (trim s)) k4) as [r5 k5] eqn:E5.
  rewrite (parseTime_fallthrough clock LocalTZA momentParse momentAddWeek
             s k _ _ _ _ k5 _ _ _ _ r5 H1 eq_refl H2 eq_refl E3
             ltac:(rewrite H3; reflexivity) E4 ltac:(rewrite H4; reflexivity) E5).
  pose proof (parseNaturalLanguage_result clock momentParse momentAddWeek
                (toLowerCase (trim s)) k4) as [_ Hv].
  rewrite E5 in Hv. simpl in Hv.
  destruct (isValid r5) eqn:Ev; simpl.
  - left. rewrite Ev. auto.
  - right. auto.
Qed.

End FamilyErrors.

(** C1, evaluated on the code.  The relative-duration family answers "0h"
    with "Time value must be greater than 0", and the clock-time family
    answers "25:00" with "Invalid time values"; but [parseTime] keeps a
    family's answer only when it is valid, so it goes on to the later
    families: what it returns for either input is a valid result of the
    natural-language family or the general "Unable to parse time format"
    message, never the family's own error. *)
Theorem C1_family_error_is_discarded :
  forall (clock : nat -> Z) (LocalTZA : Z -> bool -> Z)
         (momentParse : string -> Clock.M MomentOutcome)
         (momentAddWeek : Z -> Z) (k : nat),
    let parse s := fst (parseTime clock LocalTZA momentParse momentAddWeek s k) in
    error (fst (parseRelativeTime clock "0h" k))
      = Some "Time value must be greater than 0"
    /\ error (fst (parseAbsoluteTime clock LocalTZA "25:00" (S k)))
      = Some "Invalid time values"
    /\ ((isValid (parse "0h") = true /\ error (parse "0h") = None)
        \/ (isValid (parse "0h") = false
            /\ error (parse "0h") = Some (unableToParse "0h")))
    /\ ((isValid (parse "25:00") = true /\ error (parse "25:00") = None)
        \/ (isValid (parse "25:00") = false
            /\ error (parse "25:00") = Some (unableToParse "25:00"))).
Proof.
  intros clock LocalTZA momentParse momentAddWeek k parse.
  split; [reflexivity|]. split; [reflexivity|]. split.
  - apply (parseTime_declined clock LocalTZA momentParse momentAddWeek "0h" k
             (Some "Time value must be greater than 0") None None None);
      reflexivity.
  - apply (parseTime_declined clock LocalTZA momentParse momentAddWeek "25:00" k
             None (Some "Invalid time values") None None);
      reflexivity.
Qed.

(** With a moment.js that rejects both inputs, the general message it is. *)
Lemma parseTime_zero_hours_rejected (k : nat) :
  error (fst (parseTime Env.frozen Env.utc Env.momentRejects Env.addWeek "0h" k))
    = Some (unableToParse "0h")
  /\ error (fst (parseTime Env.frozen Env.utc Env.momentRejects Env.addWeek "25:00" k))
    = Some (unableToParse "25:00").
Proof. split; reflexivity. Qed.

(* ================================================================== *)
(** * Numbers beyond 2^53                                           *)
(* ================================================================== *)

(** Rounding never takes an integer of magnitude 2^53 or more below 2^53. *)
Lemma roundMagnitude_big (m : Z) : two53 <= m -> two53 <= roundMagnitude m.
Proof.
  intros Hm. unfold roundMagnitude.
  destruct (Z.ltb_spec m two53) as [Hlt|_]; [lia|].
  assert (Hpos : 0 < m) by (unfold two53 in Hm; lia).
  assert (Hlog : 53 <= Z.log2 m).
  { change 53 with (Z.log2 two53). apply Z.log2_le_mono. exact Hm. }
  set (e := Z.log2 m - 52).
  assert (He : 1 <= e) by (unfold e; lia).
  set (q := Z.shiftr m e).
  assert (Hq : 2 ^ 52 <= q).
  { unfold q. rewrite Z.shiftr_div_pow2 by lia.
    apply Z.div_le_lower_bound; [apply Z.pow_pos_nonneg; lia|].
    rewrite <- Z.pow_add_r by lia.
    replace (e + 52) with (Z.log2 m) by (unfold e; lia).
    apply Z.log2_spec. exact Hpos. }
  cbv zeta.
  match goal with
  | |- _ <= Z.shiftl ?x e =>
      assert (Hq' : q <= x)
        by (repeat (destruct (_ <? _) || destruct (Z.even _)); lia);
      revert Hq'; generalize x; intros q' Hq'
  end.
  rewrite Z.shiftl_mul_pow2 by lia.
  assert (H2 : 2 <= 2 ^ e).
  { change 2 with (2 ^ 1) at 1. apply Z.pow_le_mono_r; lia. }
  change two53 with (2 ^ 52 * 2). nia.
Qed.

(** A number at or above 2^53 stays there when it is rounded to a double. *)
Lemma toNumber_big (z : Z) :
  two53 <= z -> toNumber z = PosInf \/ exists m, toNumber z = Num m /\ two53 <= m.
Proof.
  intros Hz. unfold toNumber.
  assert (Hp : 0 < z) by (unfold two53 in Hz; lia).
  rewrite (Z.abs_eq z) by lia.
  pose proof (roundMagnitude_big z Hz) as Hr.
  destruct (overflowBound <=? roundMagnitude z).
  - left. destruct (Z.ltb_spec z 0); [lia|reflexivity].
  - right. exists (roundMagnitude z). split; [|exact Hr].
    rewrite (Z.sgn_pos z Hp). f_equal. lia.
Qed.

Lemma toNumber_positive (z : Z) : 0 < z -> aboveZero (toNumber z).
Proof.
  intros Hz. destruct (Z.lt_ge_cases z two53) as [Hs|Hb].
  - rewrite toNumber_exact by lia. unfold aboveZero. cbn. now apply Z.ltb_lt.
  - destruct (toNumber_big z Hb) as [->|(m & -> & Hm)]; [reflexivity|].
    unfold aboveZero. cbn. apply Z.ltb_lt. unfold two53 in Hm. lia.
Qed.

Lemma mul_positive (a : number) (c : Z) :
  aboveZero a -> 0 < c -> aboveZero (mul a (Num c)).
Proof.
  unfold aboveZero. intros Ha Hc.
  destruct a as [x| | |]; cbn in Ha; try discriminate.
  - apply Z.ltb_lt in Ha. cbn [mul]. apply toNumber_positive. nia.
  - cbn [mul]. destruct (Z.eqb_spec c 0); [lia|].
    destruct (Z.ltb_spec 0 c); [reflexivity|lia].
Qed.

(* ================================================================== *)
(** * C3: relative durations                                            *)
(* ================================================================== *)

Lemma lower_unit_letter (u : ascii) :
  In u unitLetters ->
  In (lowerChar u) ["s"; "m"; "h"; "d"; "w"]%char
  /\ In (lowerChar u) unitLetters
  /\ lowerChar (lowerChar u) = lowerChar u.
Proof.
  intros H.
  repeat (destruct H as [<-|H]; [simpl; repeat split; tauto|]). destruct H.
Qed.

(** The relative-duration family through [parseTime], on any digits, leading
    zeros included. *)
Lemma relative_duration_digits :
  forall (clock : nat -> Z) (LocalTZA : Z -> bool -> Z)
         (momentParse : string -> Clock.M MomentOutcome)
         (momentAddWeek : Z -> Z) (ds : string) (u : ascii) (k : nat),
    let parse := parseTime clock LocalTZA momentParse momentAddWeek in
    let delay := decimalValue ds * unitMs (lowerChar u) in
    ds <> "" -> allDigits ds = true -> In u unitLetters ->
    0 < decimalValue ds -> delay < two53 ->
    parse (ds ++ String u "") k =
      ({| isValid := true;
          delayMs := Num delay;
          timestamp := ofNumber (add (Num (clock k)) (Num delay));
          error := None;
          originalInput := ds ++ String (lowerChar u) "" |}, S k).
Proof.
  intros clock LocalTZA momentParse momentAddWeek ds u k parse delay
         Hne Hds Hu Hpos Hb.
  destruct (lower_unit_letter u Hu) as (Hl & _ & _).
  apply unitLetters_spec in Hu.
  pose proof (parseRelativeTime_exact clock ds (lowerChar u) k
                Hne Hds Hl Hpos Hb) as Hrel.
  unfold parse. rewrite parseTime_relative;
    rewrite (normalise_relative ds u Hne Hds Hu); rewrite Hrel; reflexivity.
Qed.

(** The decimal digits of a number, as [String(n)] writes them. *)
Lemma of_uint_acc_decimalFrom (d : Decimal.uint) (acc : positive) :
  Z.pos (Pos.of_uint_acc d acc)
  = decimalFrom (Z.pos acc) (NilEmpty.string_of_uint d).
Proof.
  revert acc. induction d; intros acc; cbn [Pos.of_uint_acc NilEmpty.string_of_uint];
    [reflexivity|..]; rewrite IHd; cbn [decimalFrom]; f_equal;
    match goal with
    | |- context [digitValue ?c] =>
        let v := eval vm_compute in (digitValue c) in
        change (digitValue c) with v
    end; lia.
Qed.

Lemma of_uint_decimalValue (d : Decimal.uint) :
  Z.of_N (Pos.of_uint d) = decimalValue (NilEmpty.string_of_uint d).
Proof.
  unfold decimalValue.
  induction d; cbn [Pos.of_uint NilEmpty.string_of_uint decimalFrom];
    [reflexivity|exact IHd|..];
    cbn [Z.of_N]; rewrite of_uint_acc_decimalFrom; reflexivity.
Qed.

Lemma string_of_uint_digits (d : Decimal.uint) :
  allDigits (NilEmpty.string_of_uint d) = true.
Proof. induction d; simpl; auto. Qed.

Lemma showZ_digits (n : Z) :
  0 < n ->
  showZ n <> "" /\ allDigits (showZ n) = true /\ decimalValue (showZ n) = n.
Proof.
  intros Hn. destruct n as [|p|p]; try lia. clear Hn.
  unfold showZ. cbn [Z.to_int NilZero.string_of_int].
  pose proof (DecimalPos.Unsigned.of_to p) as Hp.
  assert (Hs : NilZero.string_of_uint (Pos.to_uint p)
               = NilEmpty.string_of_uint (Pos.to_uint p)).
  { destruct (Pos.to_uint p); [discriminate Hp|..]; reflexivity. }
  rewrite Hs. split; [|split].
  - destruct (Pos.to_uint p); [discriminate Hp|..]; discriminate.
  - apply string_of_uint_digits.
  - rewrite <- of_uint_decimalValue, Hp. reflexivity.
Qed.

(** The relative-duration family on any positive number: what it reads is
    the product itself below 2^53, and beyond it a double at or above 2^53,
    or infinity. *)
Lemma reaches_toNumber (x : Z) : 0 < x -> reaches (toNumber x) x.
Proof.
  intros Hx. unfold reaches. destruct (Z.ltb_spec x two53) as [Hs|Hb].
  - apply toNumber_exact. lia.
  - now apply toNumber_big.
Qed.

Lemma reaches_mul (a : number) (x c : Z) :
  0 < x -> 1 <= c -> reaches a x -> reaches (mul a (Num c)) (x * c).
Proof.
  unfold reaches at 1. intros Hx Hc Ha.
  destruct (Z.ltb_spec x two53) as [Hs|Hb].
  - subst a. cbn [mul]. apply reaches_toNumber. nia.
  - assert (Hbig : two53 <= x * c) by nia.
    unfold reaches. destruct (Z.ltb_spec (x * c) two53) as [?|_]; [lia|].
    destruct Ha as [->|(m & -> & Hm)].
    + left. cbn [mul]. destruct (Z.eqb_spec c 0); [lia|].
      destruct (Z.ltb_spec 0 c); [reflexivity|lia].
    + cbn [mul]. apply toNumber_big. unfold two53 in *. nia.
Qed.

Lemma reaches_positive (a : number) (x : Z) :
  0 < x -> reaches a x -> le a (Num 0) = false.
Proof.
  unfold reaches. intros Hx Ha. destruct (Z.ltb_spec x two53).
  - subst a. cbn. apply Z.leb_gt. exact Hx.
  - destruct Ha as [->|(m & -> & Hm)]; [reflexivity|].
    cbn. apply Z.leb_gt. unfold two53 in Hm. lia.
Qed.

Section RelativeReach.

Variable clock : nat -> Z.

Lemma parseRelativeTime_reaches (ds : string) (l : ascii) (k : nat) :
  ds <> "" -> allDigits ds = true ->
  In l ["s"; "m"; "h"; "d"; "w"]%char ->
  0 < decimalValue ds ->
  exists delay,
    parseRelativeTime clock (ds ++ String l "") k =
    ({| isValid := true; delayMs := delay;
        timestamp := ofNumber (add (Num (clock k)) delay);
        error := None; originalInput := ds ++ String l "" |}, S k)
    /\ reaches delay (decimalValue ds * unitMs l).
Proof.
  intros Hne Hds Hl Hpos.
  assert (Hu : isUnitLetter l = true).
  { repeat (destruct Hl as [<-|Hl]; [reflexivity|]). destruct Hl. }
  unfold parseRelativeTime. rewrite (RELATIVE_TIME_REGEX_match _ _ Hne Hds Hu).
  rewrite (parseInt_digits _ Hne Hds).
  pose proof (reaches_toNumber _ Hpos) as Hv.
  generalize dependent (decimalValue ds). intros n Hpos.
  generalize (toNumber n). intros v Hv.
  rewrite (reaches_positive v n Hpos Hv).
  repeat (destruct Hl as [<-|Hl];
          [ eval_unitMs; eval_closed_strings;
            cbv [Clock.bind dateNow Clock.read Clock.ret];
            eexists; split; [reflexivity|];
            rewrite <- ?week_factor, <- ?day_factor, <- ?hour_factor,
                    <- ?minute_factor;
            repeat (apply reaches_mul; [lia|lia|]); exact Hv
          | ]).
  destruct Hl.
Qed.

End RelativeReach.

(** C3, as the code has it.  For every positive integer [n] and every unit
    letter [u] of either case, [parseTime] of the decimal digits of [n]
    followed by [u] is valid, and it returns what it returns for the
    lower-case letter.  When [n] times the unit's milliseconds is below 2^53,
    the delay is that product, [n] times 1000, 60000, 3600000, 86400000 or
    604800000 milliseconds. *)
Theorem C3_relative_duration_exact :
  forall (clock : nat -> Z) (LocalTZA : Z -> bool -> Z)
         (momentParse : string -> Clock.M MomentOutcome)
         (momentAddWeek : Z -> Z) (n : Z) (u : ascii) (k : nat),
    let parse := parseTime clock LocalTZA momentParse momentAddWeek in
    let delay := n * unitMs (lowerChar u) in
    0 < n -> In u unitLetters ->
    isValid (fst (parse (showZ n ++ String u "") k)) = true
    /\ parse (showZ n ++ String u "") k
       = parse (showZ n ++ String (lowerChar u) "") k
    /\ (delay < two53 ->
        parse (showZ n ++ String u "") k =
          ({| isValid := true;
              delayMs := Num delay;
              timestamp := ofNumber (add (Num (clock k)) (Num delay));
              error := None;
              originalInput := showZ n ++ String (lowerChar u) "" |}, S k)).
Proof.
  intros clock LocalTZA momentParse momentAddWeek n u k parse delay Hpos Hu.
  destruct (showZ_digits n Hpos) as (Hne & Hds & Hv).
  destruct (lower_unit_letter u Hu) as (Hl5 & Hl & Hidem).
  pose proof Hu as Hu'. apply unitLetters_spec in Hu'.
  pose proof Hl as Hl'. apply unitLetters_spec in Hl'.
  destruct (parseRelativeTime_reaches clock (showZ n) (lowerChar u) k
              Hne Hds Hl5 ltac:(lia)) as (delayRead & Hrel & _).
  assert (Hupper : parse (showZ n ++ String u "") k
                   = parseRelativeTime clock
                       (showZ n ++ String (lowerChar u) "") k).
  { unfold parse. rewrite parseTime_relative;
      rewrite (normalise_relative (showZ n) u Hne Hds Hu');
      [reflexivity|rewrite Hrel; reflexivity]. }
  assert (Hlower : parse (showZ n ++ String (lowerChar u) "") k
                   = parseRelativeTime clock
                       (showZ n ++ String (lowerChar u) "") k).
  { unfold parse. rewrite parseTime_relative;
      rewrite (normalise_relative (showZ n) (lowerChar u) Hne Hds Hl'), Hidem;
      [reflexivity|rewrite Hrel; reflexivity]. }
  split; [rewrite Hupper, Hrel; reflexivity|].
  split; [now rewrite Hupper, Hlower|].
  intros Hb.
  pose proof (relative_duration_digits clock LocalTZA momentParse momentAddWeek
                (showZ n) u k Hne Hds Hu) as H1.
  cbv zeta in H1. rewrite Hv in H1. now apply H1.
Qed.

Lemma C3_witness :
  isValid (fst (parseTime Env.frozen Env.utc Env.momentRejects Env.addWeek
                          "6H" 0%nat)) = true
  /\ parseTime Env.frozen Env.utc Env.momentRejects Env.addWeek "6H" 0%nat
     = parseTime Env.frozen Env.utc Env.momentRejects Env.addWeek "6h" 0%nat
  /\ parseTime Env.frozen Env.utc Env.momentRejects Env.addWeek "6H" 0%nat =
       ({| isValid := true; delayMs := Num 21600000;
           timestamp := Num 1705334400000; error := None;
           originalInput := "6h" |}, 1%nat).
Proof.
  destruct (C3_relative_duration_exact Env.frozen Env.utc Env.momentRejects
              Env.addWeek 6 "H"%char 0%nat)
    as (Hvalid & Hcase & Hdelay).
  - reflexivity.
  - simpl. tauto.
  - split; [exact Hvalid|]. split; [exact Hcase|].
    apply Hdelay. reflexivity.
Defined.

(** 2^53 + 4 is a double, and its digits are read exactly; but the three
    multiplications of an hour round one after the other, and the delay is
    neither the integer times 3600000 nor the double nearest to that
    product. *)
Lemma C3_counterexample :
  let n := 9007199254740996 in
  let r := fst (parseTime Env.frozen Env.utc Env.momentRejects Env.addWeek
                  (showZ n ++ "h") 0%nat) in
  showZ n ++ "h" = "9007199254740996h"
  /\ toNumber n = Num n
  /\ isValid r = true
  /\ delayMs r = Num 32425917317067587977216
  /\ delayMs r <> Num (n * unitMs "h")
  /\ delayMs r <> toNumber (n * unitMs "h").
Proof.
  cbv zeta. repeat split; try (vm_compute; reflexivity);
    vm_compute; discriminate.
Qed.

(** Leading zeros apart, every digit string is the one of its value, so the
    statement on digit strings says no more than the theorem on integers;
    and every integer from zero on is written by some digits. *)
Lemma digit_char (r : Z) :
  0 <= r < 10 ->
  let c := ascii_of_N (Z.to_N (r + 48)) in
  isDigit c = true /\ digitValue c = r.
Proof.
  intros Hr. cbv zeta.
  assert (Hn : exists i, r = Z.of_nat i /\ (i < 10)%nat)
    by (exists (Z.to_nat r); lia).
  destruct Hn as (i & -> & Hi).
  do 10 (destruct i as [|i]; [split; reflexivity|]). lia.
Qed.

Lemma decimalFrom_snoc (a : string) (acc : Z) (c : ascii) :
  decimalFrom acc (a ++ String c "") = 10 * decimalFrom acc a + digitValue c.
Proof.
  revert acc. induction a as [|x a IH]; intros acc; simpl; [reflexivity|apply IH].
Qed.

Lemma allDigits_snoc (a : string) (c : ascii) :
  allDigits a = true -> isDigit c = true -> allDigits (a ++ String c "") = true.
Proof.
  intros Ha Hc. induction a as [|x a IH]; simpl.
  - now rewrite Hc.
  - simpl in Ha. apply andb_prop in Ha as [-> Ha]. now apply IH.
Qed.

Lemma digits_of_nonnegative (n : Z) :
  0 <= n -> exists ds, ds <> "" /\ allDigits ds = true /\ decimalValue ds = n.
Proof.
  intros Hn. pattern n. apply Zlt_0_ind; [|exact Hn].
  clear n Hn. intros n IH Hn.
  destruct (Z.ltb_spec n 10) as [Hsmall|Hbig].
  - destruct (digit_char n ltac:(lia)) as [Hd Hv].
    exists (String (ascii_of_N (Z.to_N (n + 48))) "").
    split; [discriminate|]. split.
    + simpl. now rewrite Hd.
    + unfold decimalValue. simpl. lia.
  - destruct (IH (n / 10)) as (ds & Hne & Hds & Hv).
    { pose proof (Z.div_lt n 10). pose proof (Z.div_pos n 10). lia. }
    assert (Hm : 0 <= n mod 10 < 10) by (apply Z.mod_pos_bound; lia).
    destruct (digit_char (n mod 10) Hm) as [Hd Hdv].
    exists (ds ++ String (ascii_of_N (Z.to_N (n mod 10 + 48))) "").
    split; [destruct ds; [congruence|discriminate]|]. split.
    + now apply allDigits_snoc.
    + unfold decimalValue in *. rewrite decimalFrom_snoc, Hv, Hdv.
      pose proof (Z.div_mod n 10). lia.
Qed.

(* ================================================================== *)
(** * C10: the input a valid result carries                             *)
(* ================================================================== *)

(** C10.  Whenever [parseTime] returns a valid result, its [originalInput]
    is the caller's string trimmed and lower-cased, whichever family
    produced the result. *)
Theorem C10_valid_result_holds_normalised_input :
  forall (clock : nat -> Z) (LocalTZA : Z -> bool -> Z)
         (momentParse : string -> Clock.M MomentOutcome)
         (momentAddWeek : Z -> Z) (timeString : string) (k : nat),
    let r := fst (parseTime clock LocalTZA momentParse momentAddWeek timeString k) in
    isValid r = true ->
    originalInput r = toLowerCase (trim timeString).
Proof.
  intros clock LocalTZA momentParse momentAddWeek timeString k r.
  apply parseTime_valid_input.
Qed.

Lemma C10_witness :
  originalInput
    (fst (parseTime Env.frozen Env.utc Env.momentRejects Env.addWeek
            "  9:30 PM " 0%nat))
  = "9:30 pm".
Proof.
  apply (C10_valid_result_holds_normalised_input Env.frozen Env.utc
           Env.momentRejects Env.addWeek "  9:30 PM " 0%nat).
  reflexivity.
Defined.

(** An invalid result of [parseTime] carries the string as it was given. *)
Lemma parseTime_invalid_input :
  forall (clock : nat -> Z) (LocalTZA : Z -> bool -> Z)
         (momentParse : string -> Clock.M MomentOutcome)
         (momentAddWeek : Z -> Z) (timeString : string) (k : nat),
    let r := fst (parseTime clock LocalTZA momentParse momentAddWeek timeString k) in
    isValid r = false ->
    originalInput r = timeString /\ error r = Some (unableToParse timeString).
Proof.
  intros clock LocalTZA momentParse momentAddWeek s k. cbv zeta.
  unfold parseTime, Clock.bind.
  destruct (parseRelativeTime clock (toLowerCase (trim s)) k) as [r1 k1].
  destruct (isValid r1) eqn:E1; [simpl; congruence|].
  destruct (parseAbsoluteTime clock LocalTZA (toLowerCase (trim s)) k1) as [r2 k2].
  destruct (isValid r2) eqn:E2; [simpl; congruence|].
  destruct (parseDateTime clock LocalTZA (toLowerCase (trim s)) k2) as [r3 k3].
  destruct (isValid r3) eqn:E3; [simpl; congruence|].
  destruct (parseUnixTimestamp clock (toLowerCase (trim s)) k3) as [r4 k4].
  destruct (isValid r4) eqn:E4; [simpl; congruence|].
  destruct (parseNaturalLanguage clock momentParse momentAddWeek
              (toLowerCase (trim s)) k4) as [r5 k5].
  destruct (isValid r5) eqn:E5; [simpl; congruence|].
  intros _. split; reflexivity.
Qed.

(* ================================================================== *)
(** * C9: formatDelay                                                   *)
(* ================================================================== *)

Section FormatDelay.

Variable bigShow : Z -> string.
Variable bigFormat : Z -> string.

(** From one hour up to 2^53, what [formatDelay] prints is decided by the
    whole minutes of the delay. *)
Lemma formatDelay_from_one_hour (d : Z) :
  3600000 <= d < two53 ->
  formatDelay bigShow bigFormat (Num d) =
  let minutes := d / 60000 in
  let hours := minutes / 60 in
  if hours <? 24 then
    if 0 <? minutes mod 60
    then showZ hours ++ "h " ++ showZ (minutes mod 60) ++ "m"
    else showZ hours ++ "h"
  else
    if 0 <? hours mod 24
    then showZ (hours / 24) ++ "d " ++ showZ (hours mod 24) ++ "h"
    else showZ (hours / 24) ++ "d".
Proof.
  intros [Hlo Hhi]. unfold formatDelay.
  destruct (Z.ltb_spec d 1000) as [H|_]; [lia|].
  destruct (Z.leb_spec two53 d) as [H|_]; [lia|].
  assert (Hmin : d / 1000 / 60 = d / 60000)
    by (rewrite Z.div_div by lia; reflexivity).
  rewrite Hmin.
  destruct (Z.ltb_spec (d / 1000) 60) as [H|_].
  { assert (60 <= d / 1000) by (apply Z.div_le_lower_bound; lia). lia. }
  destruct (Z.ltb_spec (d / 60000) 60) as [H|_].
  { assert (60 <= d / 60000) by (apply Z.div_le_lower_bound; lia). lia. }
  reflexivity.
Qed.

End FormatDelay.

(** C9, as the code has it.  [formatDelay] of the delay parsed from "2h" is
    "2h"; a delay of two hours, two minutes and three seconds prints as
    "2h 2m".  From one hour and below one day the output is the hours and,
    when not zero, the minutes, and nothing else; from one hour up, below
    2^53 milliseconds, the seconds and milliseconds of the delay have no
    effect on the output. *)
Theorem C9_formatDelay_round_trip :
  forall (clock : nat -> Z) (LocalTZA : Z -> bool -> Z)
         (momentParse : string -> Clock.M MomentOutcome)
         (momentAddWeek : Z -> Z) (bigShow bigFormat : Z -> string) (k : nat),
    let format := formatDelay bigShow bigFormat in
    format (delayMs (fst (parseTime clock LocalTZA momentParse momentAddWeek "2h" k)))
      = "2h"
    /\ format (Num (2 * 3600000 + 2 * 60000 + 3 * 1000)) = "2h 2m"
    /\ (forall d, 3600000 <= d < 86400000 ->
        format (Num d) =
        if 0 <? (d / 60000) mod 60
        then showZ (d / 3600000) ++ "h " ++ showZ ((d / 60000) mod 60) ++ "m"
        else showZ (d / 3600000) ++ "h")
    /\ (forall d, 3600000 <= d < two53 ->
        format (Num d) = format (Num (d - d mod 60000))).
Proof.
  intros clock LocalTZA momentParse momentAddWeek bigShow bigFormat k format.
  split; [reflexivity|]. split; [reflexivity|]. split.
  - intros d [Hlo Hhi]. unfold format.
    rewrite formatDelay_from_one_hour by (unfold two53; lia). cbv zeta.
    assert (Hh : d / 60000 / 60 = d / 3600000)
      by (rewrite Z.div_div by lia; reflexivity).
    rewrite Hh.
    destruct (Z.ltb_spec (d / 3600000) 24) as [_|H]; [reflexivity|].
    assert (d / 3600000 < 24) by (apply Z.div_lt_upper_bound; lia). lia.
  - intros d [Hlo Hhi]. unfold format.
    assert (Hm : 0 <= d mod 60000 < 60000) by (apply Z.mod_pos_bound; lia).
    assert (Hd : d = 60000 * (d / 60000) + d mod 60000)
      by (apply Z.div_mod; lia).
    assert (Hq : 60 <= d / 60000) by (apply Z.div_le_lower_bound; lia).
    rewrite (formatDelay_from_one_hour _ _ d) by lia.
    rewrite (formatDelay_from_one_hour _ _ (d - d mod 60000)) by lia.
    replace ((d - d mod 60000) / 60000) with (d / 60000); [reflexivity|].
    replace (d - d mod 60000) with (d / 60000 * 60000) by lia.
    symmetry. apply Z.div_mul. lia.
Qed.

Lemma C9_witness :
  formatDelay showZ showZ (Num 7323000) = "2h 2m"
  /\ formatDelay showZ showZ (Num 7323000) = formatDelay showZ showZ (Num 7320000).
Proof.
  pose proof (C9_formatDelay_round_trip Env.frozen Env.utc Env.momentRejects
                Env.addWeek showZ showZ 0%nat) as (_ & _ & Hshape & Hdrop).
  split.
  - apply (Hshape 7323000). lia.
  - apply (Hdrop 7323000). unfold two53. lia.
Defined.

(** From one day on it is days and hours that appear: a delay of one day,
    one hour and one minute prints as "1d 1h", not as its 25 hours and one
    minute, and the minute is dropped with the seconds. *)
Lemma C9_counterexample :
  let d := 86400000 + 3600000 + 60000 in
  3600000 <= d
  /\ formatDelay showZ showZ (Num d) = "1d 1h"
  /\ showZ (d / 3600000) ++ "h " ++ showZ ((d / 60000) mod 60) ++ "m" = "25h 1m"
  /\ formatDelay showZ showZ (Num d) <> "25h 1m"
  /\ formatDelay showZ showZ (Num d) = formatDelay showZ showZ (Num (d - 60000)).
Proof.
  cbv zeta. repeat split; try (vm_compute; reflexivity);
    vm_compute; discriminate.
Qed.

(* ================================================================== *)
(** * C8: validateDelay                                                 *)
(* ================================================================== *)

(** The bound that [validateDelay] computes, while it is exact. *)
Lemma maxMs_exact (maxDays : Z) :
  0 < maxDays -> maxDays * 86400000 < two53 ->
  mul (mul (mul (mul (Num maxDays) (Num 24)) (Num 60)) (Num 60)) (Num 1000)
  = Num (maxDays * 86400000).
Proof.
  intros Hpos Hb. unfold two53 in Hb.
  repeat (rewrite mul_exact by (unfold two53; lia)).
  f_equal. lia.
Qed.

(** C8, as the code has it.  For an integer delay [d] and a positive integer
    [maxDays] with [maxDays * 86400000] below 2^53, [validateDelay] accepts
    exactly when [0 < d <= maxDays * 86400000]; a delay of zero or less is
    refused with "Delay must be greater than 0", a delay over the bound with
    "Delay cannot exceed N days"; and an omitted [maxDays] stands for 30. *)
Theorem C8_validateDelay_bounds :
  forall (bigShow : Z -> string) (d maxDays : Z),
    0 < maxDays -> maxDays * 86400000 < two53 ->
    let v := validateDelay bigShow (Num d) (Some (Num maxDays)) in
    (dvIsValid v = true <-> 0 < d <= maxDays * 86400000)
    /\ (0 < d <= maxDays * 86400000 -> dvError v = None)
    /\ (d <= 0 -> dvError v = Some "Delay must be greater than 0")
    /\ (maxDays * 86400000 < d ->
        dvError v = Some ("Delay cannot exceed " ++ showZ maxDays ++ " days"))
    /\ validateDelay bigShow (Num d) None
       = validateDelay bigShow (Num d) (Some (Num 30)).
Proof.
  intros bigShow d maxDays Hpos Hb v. subst v. unfold validateDelay.
  rewrite (maxMs_exact maxDays Hpos Hb).
  cbn [le gt lt showNumber].
  assert (Hshow : (Z.abs maxDays <? two53) = true).
  { apply Z.ltb_lt. unfold two53 in *. lia. }
  rewrite Hshow.
  destruct (Z.leb_spec d 0) as [Hle|Hgt]; cbn [dvIsValid dvError].
  - repeat split; try (intros; lia); try reflexivity; try discriminate.
  - destruct (Z.ltb_spec (maxDays * 86400000) d) as [Hover|Hin];
      cbn [dvIsValid dvError].
    + repeat split; try (intros; lia); try reflexivity; try discriminate.
    + repeat split; try (intros; lia); try reflexivity; try discriminate.
Qed.

Lemma C8_witness :
  let v := validateDelay showZ (Num 2678400000) (Some (Num 30)) in
  (dvIsValid v = true <-> 0 < 2678400000 <= 30 * 86400000)
  /\ (0 < 2678400000 <= 30 * 86400000 -> dvError v = None)
  /\ (2678400000 <= 0 -> dvError v = Some "Delay must be greater than 0")
  /\ (30 * 86400000 < 2678400000 ->
      dvError v = Some ("Delay cannot exceed " ++ showZ 30 ++ " days"))
  /\ validateDelay showZ (Num 2678400000) None
     = validateDelay showZ (Num 2678400000) (Some (Num 30)).
Proof.
  apply (C8_validateDelay_bounds showZ 2678400000 30).
  - reflexivity.
  - reflexivity.
Defined.

(** [maxDays] = 10^15 + 1 is a double, and so is the delay below; the four
    rounded multiplications of [validateDelay] give that delay as the bound,
    so it is accepted, yet it is over [maxDays] times 86400000, and over the
    double nearest to that product as well. *)
Lemma C8_counterexample :
  let maxDays := 1000000000000001 in
  let d := 86400000000000100663296 in
  toNumber maxDays = Num maxDays
  /\ toNumber d = Num d
  /\ dvIsValid (validateDelay showZ (Num d) (Some (Num maxDays))) = true
  /\ ~ (0 < d <= maxDays * 86400000)
  /\ lt (toNumber (maxDays * 86400000)) (Num d) = true.
Proof.
  cbv zeta. repeat split; try (vm_compute; reflexivity).
  intros [_ H]. vm_compute in H. apply H. reflexivity.
Qed.

(* ================================================================== *)
(** * C5: unix timestamps                                               *)
(* ================================================================== *)

Lemma UNIX_TIMESTAMP_REGEX_spec (s : string) :
  UNIX_TIMESTAMP_REGEX s = true <->
  allDigits s = true /\ (10 <= String.length s <= 13)%nat.
Proof.
  unfold UNIX_TIMESTAMP_REGEX. rewrite !andb_true_iff, !Nat.leb_le. tauto.
Qed.

Lemma digits_ne (s : string) : (10 <= String.length s)%nat -> s <> "".
Proof. destruct s; simpl; [lia|discriminate]. Qed.

Lemma decimalValue_13 (s : string) :
  allDigits s = true -> (String.length s <= 13)%nat ->
  0 <= decimalValue s < 10000000000000.
Proof.
  intros Hd Hl. pose proof (decimalValue_bounds s Hd) as [H0 H1].
  split; [exact H0|].
  eapply Z.lt_le_trans; [exact H1|].
  change 10000000000000 with (10 ^ 13).
  apply Z.pow_le_mono_r; lia.
Qed.

Lemma decimalValue_10 (s : string) :
  allDigits s = true -> String.length s = 10%nat ->
  0 <= decimalValue s < 10000000000.
Proof.
  intros Hd Hl. pose proof (decimalValue_bounds s Hd) as H. rewrite Hl in H.
  exact H.
Qed.

(** C5, as the code has it.  The family takes the strings of 10 to 13
    digits and no others.  Ten digits are seconds since the epoch; eleven,
    twelve or thirteen digits are milliseconds.  A timestamp at or before the
    clock reading is refused with "Timestamp is in the past"; a later one is
    valid, and its delay is the difference in milliseconds. *)
Theorem C5_unix_timestamp :
  forall (clock : nat -> Z) (s : string) (k : nat),
    Z.abs (clock k) <= maxTime ->
    let now := clock k in
    let instant := if (String.length s =? 10)%nat
                   then decimalValue s * 1000 else decimalValue s in
    (UNIX_TIMESTAMP_REGEX s = true <->
     allDigits s = true /\ (10 <= String.length s <= 13)%nat)
    /\ (UNIX_TIMESTAMP_REGEX s = false ->
        parseUnixTimestamp clock s k =
        ({| isValid := false; delayMs := Num 0; timestamp := Num now;
            error := None; originalInput := s |}, S k))
    /\ (UNIX_TIMESTAMP_REGEX s = true -> instant <= now ->
        parseUnixTimestamp clock s k =
        ({| isValid := false; delayMs := Num 0; timestamp := Num (clock (S k));
            error := Some "Timestamp is in the past"; originalInput := s |},
         S (S k)))
    /\ (UNIX_TIMESTAMP_REGEX s = true -> now < instant ->
        parseUnixTimestamp clock s k =
        ({| isValid := true; delayMs := Num (instant - now);
            timestamp := Num instant; error := None; originalInput := s |},
         S k)).
Proof.
  intros clock s k Hclock now instant.
  split; [apply UNIX_TIMESTAMP_REGEX_spec|].
  split.
  { intros Hno. unfold parseUnixTimestamp. rewrite Hno. reflexivity. }
  assert (Hrun : UNIX_TIMESTAMP_REGEX s = true ->
            0 <= instant < 10000000000000
            /\ parseUnixTimestamp clock s k =
               (if instant <=? now
                then failure clock (Some "Timestamp is in the past") s (S k)
                else ({| isValid := true; delayMs := sub (Num instant) (Num now);
                         timestamp := Num instant; error := None;
                         originalInput := s |}, S k))).
  { intros Hyes. pose proof Hyes as Hm.
    apply UNIX_TIMESTAMP_REGEX_spec in Hm as [Hd [Hlo Hhi]].
    pose proof (decimalValue_13 s Hd Hhi) as Hv.
    assert (Hint : parseInt s = Num (decimalValue s)).
    { apply parseInt_small; [now apply digits_ne|exact Hd|unfold two53; lia]. }
    unfold parseUnixTimestamp. rewrite Hyes, Hint. cbn [negb].
    unfold strLength. cbn [strictEq]. subst instant. unfold now.
    destruct (Nat.eqb_spec (String.length s) 10) as [Hten|Hnot].
    - pose proof (decimalValue_10 s Hd Hten) as Hv10.
      rewrite Hten. change (Z.of_nat 10 =? 10) with true. cbv iota.
      rewrite mul_exact by (unfold two53; lia).
      split; [lia|].
      unfold ofNumber, TimeClip.
      destruct (Z.leb_spec (Z.abs (decimalValue s * 1000)) maxTime) as [_|Hbad];
        [|unfold maxTime in Hbad; lia].
      cbv [Clock.bind newDate Clock.read Clock.ret]. cbn [le getTime].
      destruct (decimalValue s * 1000 <=? clock k); reflexivity.
    - assert (Hne : (Z.of_nat (String.length s) =? 10) = false)
        by (apply Z.eqb_neq; lia).
      rewrite Hne. split; [lia|].
      unfold ofNumber, TimeClip.
      destruct (Z.leb_spec (Z.abs (decimalValue s)) maxTime) as [_|Hbad];
        [|unfold maxTime in Hbad; lia].
      cbv [Clock.bind newDate Clock.read Clock.ret]. cbn [le getTime].
      destruct (decimalValue s <=? clock k); reflexivity. }
  split.
  - intros Hyes Hpast. destruct (Hrun Hyes) as [_ ->].
    destruct (Z.leb_spec instant now) as [_|H]; [reflexivity|lia].
  - intros Hyes Hfuture. destruct (Hrun Hyes) as [Hrange ->].
    destruct (Z.leb_spec instant now) as [H|_]; [lia|].
    rewrite sub_exact; [reflexivity|].
    unfold maxTime in Hclock. unfold two53. fold now in Hclock. lia.
Qed.

Lemma C5_witness :
  parseUnixTimestamp Env.frozen "4102477200" 0%nat =
  ({| isValid := true; delayMs := Num 2397164400000;
      timestamp := Num 4102477200000; error := None;
      originalInput := "4102477200" |}, 1%nat)
  /\ parseUnixTimestamp Env.frozen "1640995200000" 0%nat =
     ({| isValid := false; delayMs := Num 0; timestamp := Num 1705312800000;
         error := Some "Timestamp is in the past";
         originalInput := "1640995200000" |}, 2%nat).
Proof.
  split.
  - apply (C5_unix_timestamp Env.frozen "4102477200" 0%nat);
      [vm_compute; discriminate|reflexivity|reflexivity].
  - apply (C5_unix_timestamp Env.frozen "1640995200000" 0%nat);
      [vm_compute; discriminate|reflexivity|vm_compute; discriminate].
Defined.

(** Eleven digits are taken by the family: the expression matches them, they
    are read as milliseconds, and the answer is the family's own error, not
    its answer to a string it does not match. *)
Lemma C5_counterexample :
  String.length "12345678901" = 11%nat
  /\ UNIX_TIMESTAMP_REGEX "12345678901" = true
  /\ parseUnixTimestamp Env.frozen "12345678901" 0%nat =
     ({| isValid := false; delayMs := Num 0; timestamp := Num 1705312800000;
         error := Some "Timestamp is in the past";
         originalInput := "12345678901" |}, 2%nat)
  /\ ~ (forall s, UNIX_TIMESTAMP_REGEX s = true ->
        String.length s = 10%nat \/ String.length s = 13%nat).
Proof.
  repeat split; try reflexivity.
  intros H. destruct (H "12345678901" eq_refl); discriminate.
Qed.

(* ================================================================== *)
(** * The calendar                                                      *)
(* ================================================================== *)

Ltac div_lia := Z.to_euclidean_division_equations; lia.

(** Day numbers of the first of January follow the mean Gregorian year
    within two days. *)
Lemma DayFromYear_drift (y : Z) :
  -800 <= 400 * DayFromYear y - 146097 * (y - 1970) <= 800.
Proof. unfold DayFromYear. div_lia. Qed.

(** [YearFromTime t] is the year whose first instant is at or before [t]
    and whose successor starts after [t]. *)
Lemma YearFromTime_spec (t : Z) :
  TimeFromYear (YearFromTime t) <= t < TimeFromYear (YearFromTime t + 1).
Proof.
  unfold YearFromTime, TimeFromYear.
  set (y := 1970 + t / 31556952000).
  pose proof (DayFromYear_drift (y - 1)).
  pose proof (DayFromYear_drift y).
  pose proof (DayFromYear_drift (y + 1)).
  pose proof (DayFromYear_drift (y + 2)).
  assert (Ht : 31556952000 * (y - 1970) <= t
               < 31556952000 * (y - 1970) + 31556952000).
  { subst y. pose proof (Z.div_mod t 31556952000).
    pose proof (Z.mod_pos_bound t 31556952000). lia. }
  clearbody y.
  destruct (Z.ltb_spec t (msPerDay * DayFromYear y)).
  - replace (y - 1 + 1) with y by lia. unfold msPerDay in *. lia.
  - destruct (Z.leb_spec (msPerDay * DayFromYear (y + 1)) t).
    + replace (y + 1 + 1) with (y + 2) by lia. unfold msPerDay in *. lia.
    + unfold msPerDay in *. lia.
Qed.

Lemma DayFromYear_succ (y : Z) :
  DayFromYear (y + 1) = DayFromYear y + DaysInYear y.
Proof.
  unfold DayFromYear, DaysInYear, isLeap.
  destruct (Z.eqb_spec (y mod 4) 0), (Z.eqb_spec (y mod 100) 0),
           (Z.eqb_spec (y mod 400) 0); cbn [andb orb negb]; div_lia.
Qed.

Lemma DayWithinYear_range (t : Z) :
  0 <= DayWithinYear t < DaysInYear (YearFromTime t).
Proof.
  unfold DayWithinYear, Day. pose proof (YearFromTime_spec t) as [Hlo Hhi].
  unfold TimeFromYear in *. rewrite DayFromYear_succ in Hhi.
  unfold msPerDay in *. div_lia.
Qed.

Lemma InLeapYear_DaysInYear (t : Z) :
  DaysInYear (YearFromTime t) = 365 + InLeapYear t
  /\ (InLeapYear t = 0 \/ InLeapYear t = 1).
Proof.
  unfold DaysInYear, InLeapYear. destruct (isLeap (YearFromTime t)); lia.
Qed.

Lemma monthOfYearDay_range (leap d : Z) : 0 <= monthOfYearDay leap d <= 11.
Proof.
  unfold monthOfYearDay.
  repeat match goal with
         | |- context [if ?a <? ?b then _ else _] => destruct (a <? b)
         end; lia.
Qed.

(** The day of the month is between 1 and 31. *)
Lemma dayOfMonth_range (leap d : Z) :
  (leap = 0 \/ leap = 1) -> 0 <= d < 365 + leap ->
  1 <= d - daysBeforeMonth leap (monthOfYearDay leap d) + 1 <= 31.
Proof.
  intros Hleap Hd. unfold monthOfYearDay.
  repeat match goal with
         | |- context [if ?a <? ?b then _ else _] =>
             destruct (Z.ltb_spec a b)
         end;
    unfold daysBeforeMonth;
    repeat match goal with
           | |- context [if ?c then _ else _] =>
               is_ground c;
               let v := eval vm_compute in c in
               change c with v; cbv iota
           end; lia.
Qed.

Lemma MonthFromTime_range (t : Z) : 0 <= MonthFromTime t <= 11.
Proof. apply monthOfYearDay_range. Qed.

Lemma DateFromTime_range (t : Z) : 1 <= DateFromTime t <= 31.
Proof.
  unfold DateFromTime, MonthFromTime.
  pose proof (DayWithinYear_range t) as Hd.
  destruct (InLeapYear_DaysInYear t) as [Hy Hl]. rewrite Hy in Hd.
  now apply dayOfMonth_range.
Qed.

Lemma dayOfMonthStart_in_year (y m : Z) :
  0 <= m <= 11 ->
  dayOfMonthStart y m
  = DayFromYear y + daysBeforeMonth (if isLeap y then 1 else 0) m.
Proof.
  intros Hm. unfold dayOfMonthStart.
  assert (Hq : m / 12 = 0) by (apply Z.div_small; lia).
  assert (Hr : m mod 12 = m) by (apply Z.mod_small; lia).
  rewrite Hq, Hr. replace (y + 0) with y by lia. reflexivity.
Qed.

(** The day number that [MakeDay] gives to the date of [t] moved by [j]
    days of the month is the day of [t] moved by [j]. *)
Lemma MakeDay_of_date (t j : Z) :
  dayOfMonthStart (YearFromTime t) (MonthFromTime t) + (DateFromTime t + j) - 1
  = Day t + j.
Proof.
  rewrite dayOfMonthStart_in_year by apply MonthFromTime_range.
  unfold DateFromTime, DayWithinYear, InLeapYear. lia.
Qed.

Lemma day_plus_time (t : Z) : Day t * msPerDay + TimeWithinDay t = t.
Proof.
  unfold Day, TimeWithinDay. pose proof (Z.div_mod t msPerDay).
  unfold msPerDay in *. lia.
Qed.

Section ZoneFacts.

Variable LocalTZA : Z -> bool -> Z.

(** [d.setHours(h, m, 0, 0)] *)
Lemma setHours_todayAt (now h m : Z) :
  setHours LocalTZA (Num now) (Num h) (Num m) (Num 0) (Num 0)
  = TimeClip (Num (todayAt LocalTZA now h m)).
Proof.
  unfold setHours, MakeTime, MakeDate, UTC, todayAt. cbv zeta.
  match goal with
  | |- TimeClip (Num (?a - _)) = TimeClip (Num (?b - _)) =>
      replace a with b by (unfold msPerSecond; lia)
  end.
  reflexivity.
Qed.

(** [d.setDate(d.getDate() + 1)] *)
Lemma setDate_next_day (tv : Z) :
  setDate LocalTZA (Num tv) (add (getDate LocalTZA (Num tv)) (Num 1))
  = TimeClip (Num (nextCalendarDay LocalTZA tv)).
Proof.
  unfold getDate. set (t := LocalTime LocalTZA tv).
  pose proof (DateFromTime_range t) as Hd.
  rewrite add_exact by (unfold two53; lia).
  unfold setDate, MakeDay, MakeDate, UTC, nextCalendarDay. fold t.
  rewrite (MakeDay_of_date t 1).
  assert (Hw : (Day t + 1) * msPerDay + TimeWithinDay t = t + msPerDay).
  { pose proof (day_plus_time t). lia. }
  rewrite Hw. reflexivity.
Qed.

End ZoneFacts.

(* ================================================================== *)
(** * C4: clock times                                                   *)
(* ================================================================== *)

Lemma spanDigits_digits (s : string) : allDigits (fst (spanDigits s)) = true.
Proof.
  induction s as [|c s IH]; simpl; [reflexivity|].
  destruct (isDigit c) eqn:Hc; [|reflexivity].
  destruct (spanDigits s) as [d r]. simpl in *. now rewrite Hc.
Qed.

Lemma meridiem_inv (s p : string) :
  meridiem s = Some p -> toLowerCase p = "am" \/ toLowerCase p = "pm".
Proof.
  unfold meridiem.
  destruct (String.eqb_spec (toLowerCase s) "am") as [Ha|_].
  - intros [= <-]. now left.
  - destruct (String.eqb_spec (toLowerCase s) "pm") as [Hp|_].
    + intros [= <-]. now right.
    + discriminate.
Qed.

(** What the groups of a clock time are. *)
Lemma clockGroups_inv (s g1 g2 : string) (g3 : option string) :
  clockGroups s = Some (g1, g2, g3) ->
  allDigits g1 = true /\ (1 <= String.length g1 <= 2)%nat
  /\ allDigits g2 = true /\ String.length g2 = 2%nat
  /\ (g3 = None \/ option_map toLowerCase g3 = Some "am"
      \/ option_map toLowerCase g3 = Some "pm").
Proof.
  unfold clockGroups. pose proof (spanDigits_digits s) as Hd.
  destruct (spanDigits s) as [h r1]. simpl in Hd.
  destruct ((1 <=? String.length h)%nat) eqn:H1; [|discriminate].
  destruct ((String.length h <=? 2)%nat) eqn:H2; [|discriminate].
  cbn [andb]. apply Nat.leb_le in H1, H2.
  destruct r1 as [|c r1]; [discriminate|].
  destruct (Ascii.eqb_spec c ":") as [->|Hc].
  2:{ each_char c; try discriminate; congruence. }
  destruct r1 as [|a [|b r3]]; try discriminate.
  destruct (isDigit a) eqn:Ha; [|discriminate].
  destruct (isDigit b) eqn:Hb; [|discriminate].
  cbn [andb].
  assert (Hmm : allDigits (String a (String b "")) = true)
    by (simpl; now rewrite Ha, Hb).
  destruct r3 as [|x r3].
  - intros [= <- <- <-]. repeat split; try assumption; try reflexivity. now left.
  - destruct (meridiem (trimStart (String x r3))) as [p|] eqn:Hp; [|discriminate].
    intros [= <- <- <-]. repeat split; try assumption; try reflexivity.
    right. simpl. destruct (meridiem_inv _ _ Hp) as [->| ->]; auto.
Qed.

Lemma decimalValue_two_digits (g : string) :
  allDigits g = true -> (String.length g <= 2)%nat -> 0 <= decimalValue g < 100.
Proof.
  intros Hd Hl. pose proof (decimalValue_bounds g Hd) as [H0 H1].
  split; [exact H0|]. eapply Z.lt_le_trans; [exact H1|].
  change 100 with (10 ^ 2). apply Z.pow_le_mono_r; lia.
Qed.

(** The hour conversion of the source is [hour24]. *)
Lemma to24Hour_hour24 (period : option string) (h : Z) :
  0 <= h < 100 ->
  (period = None \/ period = Some "am" \/ period = Some "pm") ->
  to24Hour period (Num h) = Num (hour24 period h).
Proof.
  intros Hh [->|[->| ->]]; unfold to24Hour, hour24; cbn [strictEq].
  - reflexivity.
  - change (String.eqb "am" "pm") with false.
    change (String.eqb "am" "am") with true. cbn [andb].
    destruct (h =? 12); reflexivity.
  - change (String.eqb "pm" "pm") with true.
    change (String.eqb "pm" "am") with false. cbn [andb negb].
    destruct (Z.eqb_spec h 12) as [->|Hne]; [reflexivity|].
    cbn [negb]. rewrite add_exact by (unfold two53; lia). reflexivity.
Qed.

Lemma hour24_range (period : option string) (h : Z) :
  0 <= h < 100 -> 0 <= hour24 period h < 112.
Proof.
  intros Hh. unfold hour24.
  destruct period as [p|]; [|lia].
  destruct (String.eqb_spec p "pm") as [->|Hp].
  - destruct (h =? 12); lia.
  - destruct (String.eqb_spec p "am") as [->|Ha].
    + destruct (h =? 12); lia.
    + assert (E : match p with
                  | "pm" => if h =? 12 then 12 else h + 12
                  | "am" => if h =? 12 then 0 else h
                  | _ => h
                  end = h \/ p = "am" \/ p = "pm").
      { clear Hh. destruct p as [|a [|b [|c p]]]; auto;
          each_char a; auto; each_char b; auto. }
      destruct E as [->|[?|?]]; [lia|congruence|congruence].
Qed.

Section ClockTime.

Variable clock : nat -> Z.
Variable LocalTZA : Z -> bool -> Z.

(** The zone offset is at most a day. *)
Hypothesis zone_bounded : forall t b, Z.abs (LocalTZA t b) <= msPerDay.

Lemma todayAt_near (now h m : Z) :
  0 <= h <= 23 -> 0 <= m <= 59 ->
  Z.abs (todayAt LocalTZA now h m - now) <= 3 * msPerDay.
Proof.
  intros Hh Hm. unfold todayAt, LocalTime, Day. cbv zeta.
  pose proof (zone_bounded now true) as H1.
  set (local := now + LocalTZA now true) in *.
  set (wall := local / msPerDay * msPerDay + h * msPerHour + m * msPerMinute).
  pose proof (zone_bounded wall false) as H2.
  assert (Hw : local - msPerDay <= wall <= local + msPerDay).
  { subst wall. pose proof (Z.div_mod local msPerDay).
    pose proof (Z.mod_pos_bound local msPerDay).
    unfold msPerDay, msPerHour, msPerMinute in *. lia. }
  assert (Hl : local = now + LocalTZA now true) by reflexivity.
  clearbody wall local. unfold msPerDay in *. lia.
Qed.

Lemma nextCalendarDay_near (t : Z) :
  Z.abs (nextCalendarDay LocalTZA t - t) <= 3 * msPerDay.
Proof.
  unfold nextCalendarDay, LocalTime. cbv zeta.
  pose proof (zone_bounded t true) as H1.
  pose proof (zone_bounded (t + LocalTZA t true + msPerDay) false) as H2.
  unfold msPerDay in *. lia.
Qed.

Lemma TimeClip_in_range (t : Z) : Z.abs t <= maxTime -> TimeClip (Num t) = Num t.
Proof.
  intros H. unfold TimeClip. destruct (Z.leb_spec (Z.abs t) maxTime); [reflexivity|lia].
Qed.

(** The clock-time family on a string its expression matches, with hour and
    minute in range. *)
Lemma parseAbsoluteTime_valid (s g1 g2 : string) (g3 : option string) (k : nat) :
  ABSOLUTE_TIME_REGEX s = Some (g1, g2, g3) ->
  let now := clock k in
  let h := hour24 (option_map toLowerCase g3) (decimalValue g1) in
  let m := decimalValue g2 in
  let today := todayAt LocalTZA now h m in
  let target := if today <=? now then nextCalendarDay LocalTZA today else today in
  h <= 23 -> m <= 59 ->
  Z.abs now + 6 * msPerDay <= maxTime ->
  parseAbsoluteTime clock LocalTZA s k =
  ({| isValid := true; delayMs := Num (target - now); timestamp := Num target;
      error := None; originalInput := s |}, S k).
Proof.
  intros Hmatch now h m today target Hh Hm Hnow.
  pose proof Hmatch as Hg. unfold ABSOLUTE_TIME_REGEX in Hg.
  apply clockGroups_inv in Hg as (Hd1 & Hl1 & Hd2 & Hl2 & Hp).
  pose proof (decimalValue_two_digits g1 Hd1 ltac:(lia)) as Hv1.
  pose proof (decimalValue_two_digits g2 Hd2 ltac:(lia)) as Hv2.
  assert (Hi1 : parseInt g1 = Num (decimalValue g1)).
  { apply parseInt_small; [destruct g1; simpl in *; [lia|discriminate]
                          |exact Hd1|unfold two53; lia]. }
  assert (Hi2 : parseInt g2 = Num (decimalValue g2)).
  { apply parseInt_small; [destruct g2; simpl in *; [lia|discriminate]
                          |exact Hd2|unfold two53; lia]. }
  assert (Hper : option_map toLowerCase g3 = None
                 \/ option_map toLowerCase g3 = Some "am"
                 \/ option_map toLowerCase g3 = Some "pm").
  { destruct Hp as [->|[?|?]]; auto. }
  pose proof (hour24_range (option_map toLowerCase g3) (decimalValue g1) Hv1) as Hh0.
  fold h in Hh0. fold m in Hv2.
  unfold parseAbsoluteTime. rewrite Hmatch, Hi1, Hi2.
  rewrite (to24Hour_hour24 _ _ Hv1 Hper). fold h. fold m.
  cbn [lt gt].
  destruct (Z.ltb_spec h 0) as [?|_]; [lia|].
  destruct (Z.ltb_spec 23 h) as [?|_]; [lia|].
  destruct (Z.ltb_spec m 0) as [?|_]; [lia|].
  destruct (Z.ltb_spec 59 m) as [?|_]; [lia|].
  cbn [orb]. cbv [Clock.bind newDate Clock.read Clock.ret]. fold now.
  pose proof (todayAt_near now h m ltac:(lia) ltac:(lia)) as Hnear. fold today in Hnear.
  pose proof (nextCalendarDay_near today) as Hnext.
  rewrite setHours_todayAt. fold today.
  rewrite TimeClip_in_range by (unfold msPerDay in *; lia).
  cbn [le]. unfold target.
  destruct (Z.leb_spec today now) as [Hpast|Hfuture].
  - rewrite setDate_next_day.
    rewrite TimeClip_in_range by (unfold msPerDay in *; lia).
    unfold getTime. rewrite sub_exact;
      [reflexivity|unfold msPerDay, maxTime, two53 in *; lia].
  - unfold getTime. rewrite sub_exact;
      [reflexivity|unfold msPerDay, maxTime, two53 in *; lia].
Qed.

End ClockTime.

(** C4.  For a string that the clock-time expression matches, H:MM with an
    optional am or pm, whose hour after conversion (12 am is 0, 12 pm is 12,
    any other pm hour is twelve more) is at most 23 and whose minute is at
    most 59: the result is valid; its timestamp is the instant of that clock
    time on today's local date, or, when that instant is not after the clock
    reading, the instant one calendar day later and no more; and its delay is
    the timestamp minus the clock reading.  The clock reading is at least six
    days inside the range of [Date] and the zone offset is at most a day. *)
Theorem C4_clock_time :
  forall (clock : nat -> Z) (LocalTZA : Z -> bool -> Z)
         (s g1 g2 : string) (g3 : option string) (k : nat),
    let now := clock k in
    let h := hour24 (option_map toLowerCase g3) (decimalValue g1) in
    let m := decimalValue g2 in
    let today := todayAt LocalTZA now h m in
    let target := if today <=? now then nextCalendarDay LocalTZA today else today in
    ABSOLUTE_TIME_REGEX s = Some (g1, g2, g3) ->
    h <= 23 -> m <= 59 ->
    Z.abs now + 6 * msPerDay <= maxTime ->
    (forall t b, Z.abs (LocalTZA t b) <= msPerDay) ->
    parseAbsoluteTime clock LocalTZA s k =
    ({| isValid := true; delayMs := Num (target - now); timestamp := Num target;
        error := None; originalInput := s |}, S k).
Proof.
  intros clock LocalTZA s g1 g2 g3 k now h m today target Hmatch Hh Hm Hnow Hzone.
  now apply parseAbsoluteTime_valid.
Qed.

Lemma C4_witness :
  parseAbsoluteTime Env.frozen Env.utc "12:30 AM" 0%nat =
  ({| isValid := true; delayMs := Num 52200000; timestamp := Num 1705365000000;
      error := None; originalInput := "12:30 AM" |}, 1%nat).
Proof.
  apply (C4_clock_time Env.frozen Env.utc "12:30 AM" "12" "30" (Some "AM") 0%nat).
  - reflexivity.
  - vm_compute. discriminate.
  - vm_compute. discriminate.
  - vm_compute. discriminate.
  - intros t b. vm_compute. discriminate.
Defined.

(** A string that the clock-time expression matches has a colon after its
    digits, so the relative-duration expression does not match it. *)
Lemma absolute_not_relative (s : string) (g : string * string * option string) :
  ABSOLUTE_TIME_REGEX s = Some g -> RELATIVE_TIME_REGEX s = None.
Proof.
  unfold ABSOLUTE_TIME_REGEX, clockGroups, RELATIVE_TIME_REGEX.
  destruct (spanDigits s) as [h r1].
  destruct ((1 <=? String.length h)%nat && (String.length h <=? 2)%nat);
    [|discriminate].
  destruct r1 as [|c r1]; [discriminate|].
  destruct (Ascii.eqb_spec c ":") as [->|Hc].
  - intros _. destruct h; [reflexivity|]. destruct r1; reflexivity.
  - each_char c; try discriminate; congruence.
Qed.

(** The same through [parseTime]: the relative-duration family declines
    after one reading of the clock, and the clock-time family answers. *)
Lemma parseTime_clock_time :
  forall (clock : nat -> Z) (LocalTZA : Z -> bool -> Z)
         (momentParse : string -> Clock.M MomentOutcome)
         (momentAddWeek : Z -> Z)
         (s g1 g2 : string) (g3 : option string) (k : nat),
    let input := toLowerCase (trim s) in
    let now := clock (S k) in
    let h := hour24 (option_map toLowerCase g3) (decimalValue g1) in
    let m := decimalValue g2 in
    let today := todayAt LocalTZA now h m in
    let target := if today <=? now then nextCalendarDay LocalTZA today else today in
    ABSOLUTE_TIME_REGEX input = Some (g1, g2, g3) ->
    h <= 23 -> m <= 59 ->
    Z.abs now + 6 * msPerDay <= maxTime ->
    (forall t b, Z.abs (LocalTZA t b) <= msPerDay) ->
    parseTime clock LocalTZA momentParse momentAddWeek s k =
    ({| isValid := true; delayMs := Num (target - now); timestamp := Num target;
        error := None; originalInput := input |}, S (S k)).
Proof.
  intros clock LocalTZA momentParse momentAddWeek s g1 g2 g3 k
         input now h m today target Hmatch Hh Hm Hnow Hzone.
  pose proof (parseAbsoluteTime_valid clock LocalTZA Hzone input g1 g2 g3 (S k)
                Hmatch Hh Hm Hnow) as Habs.
  unfold parseTime, Clock.bind. fold input.
  unfold parseRelativeTime at 1.
  rewrite (absolute_not_relative input _ Hmatch).
  rewrite failure_run. cbn [isValid]. rewrite Habs. reflexivity.
Qed.

(** In a zone whose offset never changes, the next calendar day is 24 hours
    later, and the clock time that [parseAbsoluteTime] settles on is after
    the clock reading. *)
Lemma constant_zone_clock_time (offset now h m : Z) :
  let zone := fun (_ : Z) (_ : bool) => offset in
  let today := todayAt zone now h m in
  let target := if today <=? now then nextCalendarDay zone today else today in
  0 <= h <= 23 -> 0 <= m <= 59 ->
  nextCalendarDay zone today = today + msPerDay
  /\ now < target <= now + msPerDay.
Proof.
  intros zone today target Hh Hm.
  assert (Hnext : nextCalendarDay zone today = today + msPerDay).
  { unfold nextCalendarDay, LocalTime, zone. lia. }
  split; [exact Hnext|].
  unfold target. rewrite Hnext.
  assert (Hday : now - msPerDay < today < now + msPerDay).
  { unfold today, todayAt, LocalTime, Day, zone. cbv zeta.
    pose proof (Z.div_mod (now + offset) msPerDay).
    pose proof (Z.mod_pos_bound (now + offset) msPerDay).
    unfold msPerDay, msPerHour, msPerMinute in *. lia. }
  destruct (Z.leb_spec today now); lia.
Qed.

(* ================================================================== *)
(** * C6: explicit dates                                                *)
(* ================================================================== *)

(** What the groups of an explicit date and time are. *)
Lemma DATE_TIME_REGEX_inv (s g1 g2 g3 g4 g5 : string) (g6 : option string) :
  DATE_TIME_REGEX s = Some (g1, g2, g3, g4, g5, g6) ->
  (allDigits g1 = true /\ (1 <= String.length g1 <= 2)%nat)
  /\ (allDigits g2 = true /\ (1 <= String.length g2 <= 2)%nat)
  /\ (allDigits g3 = true /\ String.length g3 = 4%nat)
  /\ (allDigits g4 = true /\ (1 <= String.length g4 <= 2)%nat)
  /\ (allDigits g5 = true /\ String.length g5 = 2%nat)
  /\ (g6 = None \/ option_map toLowerCase g6 = Some "am"
      \/ option_map toLowerCase g6 = Some "pm").
Proof.
  unfold DATE_TIME_REGEX.
  pose proof (spanDigits_digits s) as Hd1.
  destruct (spanDigits s) as [mo r1]. cbn [fst] in Hd1.
  destruct ((1 <=? String.length mo)%nat && (String.length mo <=? 2)%nat) eqn:Hl1;
    [|discriminate].
  apply andb_prop in Hl1 as [Hl1 Hl1']. apply Nat.leb_le in Hl1, Hl1'.
  destruct r1 as [|c1 r2]; [discriminate|].
  destruct (Ascii.eqb_spec c1 "/") as [->|Hc1].
  2:{ each_char c1; try discriminate; congruence. }
  pose proof (spanDigits_digits r2) as Hd2.
  destruct (spanDigits r2) as [d r3]. cbn [fst] in Hd2.
  destruct ((1 <=? String.length d)%nat && (String.length d <=? 2)%nat) eqn:Hl2;
    [|discriminate].
  apply andb_prop in Hl2 as [Hl2 Hl2']. apply Nat.leb_le in Hl2, Hl2'.
  destruct r3 as [|c2 r4]; [discriminate|].
  destruct (Ascii.eqb_spec c2 "/") as [->|Hc2].
  2:{ each_char c2; try discriminate; congruence. }
  pose proof (spanDigits_digits r4) as Hd3.
  destruct (spanDigits r4) as [y r5]. cbn [fst] in Hd3.
  destruct (Nat.eqb_spec (String.length y) 4) as [Hl3|]; [|discriminate].
  destruct r5 as [|w r6]; [discriminate|].
  destruct (isWhiteSpace w); [|discriminate].
  destruct (clockGroups (trimStart r6)) as [[[h mi] p]|] eqn:Hclock; [|discriminate].
  intros [= <- <- <- <- <- <-].
  apply clockGroups_inv in Hclock as (H4 & Hl4 & H5 & Hl5 & Hp).
  repeat split; try assumption; lia.
Qed.

Lemma decimalValue_four_digits (g : string) :
  allDigits g = true -> String.length g = 4%nat -> 0 <= decimalValue g < 10000.
Proof.
  intros Hd Hl. pose proof (decimalValue_bounds g Hd) as H. rewrite Hl in H.
  exact H.
Qed.

Lemma parseInt_group (g : string) (bound : Z) :
  allDigits g = true -> (1 <= String.length g)%nat ->
  0 <= decimalValue g < bound -> bound <= two53 ->
  parseInt g = Num (decimalValue g).
Proof.
  intros Hd Hl Hv Hb. apply parseInt_small; [|exact Hd|lia].
  destruct g; simpl in *; [lia|discriminate].
Qed.

Lemma daysBeforeMonth_range (leap m : Z) :
  (leap = 0 \/ leap = 1) -> 0 <= daysBeforeMonth leap m <= 335.
Proof.
  intros Hl. unfold daysBeforeMonth.
  repeat match goal with
         | |- context [if ?c then _ else _] => destruct c
         end; lia.
Qed.

Section DateTime.

Variable clock : nat -> Z.
Variable LocalTZA : Z -> bool -> Z.
Hypothesis zone_bounded : forall t b, Z.abs (LocalTZA t b) <= msPerDay.

(** The time value of a date written with at most four digits of year and
    two digits in every other field is well inside the range of [Date]. *)
Lemma dateTimeValue_range (year month day hour minute : Z) :
  0 <= year < 10000 -> 0 <= month < 100 -> 0 <= day < 100 ->
  0 <= hour < 112 -> 0 <= minute < 100 ->
  Z.abs (dateTimeValue LocalTZA year month day hour minute) <= 260000000000000.
Proof.
  intros Hy Hmo Hd Hh Hmi. unfold dateTimeValue. cbv zeta.
  set (yr := if (0 <=? year) && (year <=? 99) then 1900 + year else year).
  assert (Hyr : 0 <= yr < 10000).
  { subst yr. destruct (Z.leb_spec 0 year), (Z.leb_spec year 99);
      cbn [andb]; lia. }
  clearbody yr.
  set (wall := (dayOfMonthStart yr (month - 1) + day - 1) * msPerDay
               + hour * msPerHour + minute * msPerMinute).
  pose proof (zone_bounded wall false) as Hz.
  assert (Hwall : Z.abs wall <= 259000000000000).
  { subst wall. unfold dayOfMonthStart.
    set (ym := yr + (month - 1) / 12).
    assert (Hym : -1 <= ym < 10009) by (subst ym; div_lia).
    pose proof (DayFromYear_drift ym) as Hdrift.
    pose proof (daysBeforeMonth_range (if isLeap ym then 1 else 0)
                  ((month - 1) mod 12)
                  ltac:(destruct (isLeap ym); auto)) as Hdbm.
    unfold msPerDay, msPerHour, msPerMinute in *. lia. }
  unfold msPerDay in *. lia.
Qed.

(** The explicit date-time family on a string its expression matches: the
    instant is built from the fields as they are, it is never an invalid
    date, it is not moved, and it is refused when it is not after the clock
    reading. *)
Lemma parseDateTime_matched (s g1 g2 g3 g4 g5 : string) (g6 : option string)
      (k : nat) :
  DATE_TIME_REGEX s = Some (g1, g2, g3, g4, g5, g6) ->
  Z.abs (clock k) <= maxTime ->
  let now := clock k in
  let target := dateTimeValue LocalTZA (decimalValue g3) (decimalValue g1)
                  (decimalValue g2)
                  (hour24 (option_map toLowerCase g6) (decimalValue g4))
                  (decimalValue g5) in
  parseDateTime clock LocalTZA s k =
  if target <=? now
  then ({| isValid := false; delayMs := Num 0; timestamp := Num (clock (S k));
           error := Some "Date is in the past"; originalInput := s |}, S (S k))
  else ({| isValid := true; delayMs := Num (target - now); timestamp := Num target;
           error := None; originalInput := s |}, S k).
Proof.
  intros Hmatch Hclock now target.
  pose proof (DATE_TIME_REGEX_inv _ _ _ _ _ _ _ Hmatch)
    as ((Hd1 & Hl1) & (Hd2 & Hl2) & (Hd3 & Hl3) & (Hd4 & Hl4) & (Hd5 & Hl5) & Hp).
  pose proof (decimalValue_two_digits g1 Hd1 ltac:(lia)) as Hv1.
  pose proof (decimalValue_two_digits g2 Hd2 ltac:(lia)) as Hv2.
  pose proof (decimalValue_four_digits g3 Hd3 Hl3) as Hv3.
  pose proof (decimalValue_two_digits g4 Hd4 ltac:(lia)) as Hv4.
  pose proof (decimalValue_two_digits g5 Hd5 ltac:(lia)) as Hv5.
  assert (Hper : option_map toLowerCase g6 = None
                 \/ option_map toLowerCase g6 = Some "am"
                 \/ option_map toLowerCase g6 = Some "pm").
  { destruct Hp as [->|[?|?]]; auto. }
  pose proof (hour24_range (option_map toLowerCase g6) (decimalValue g4) Hv4) as Hh.
  pose proof (dateTimeValue_range _ _ _ _ _ Hv3 Hv1 Hv2 Hh Hv5) as Hrange.
  fold target in Hrange.
  unfold parseDateTime. rewrite Hmatch.
  rewrite (parseInt_group g1 100), (parseInt_group g2 100),
          (parseInt_group g3 10000), (parseInt_group g4 100),
          (parseInt_group g5 100)
    by (try assumption; try lia; unfold two53; lia).
  rewrite (to24Hour_hour24 _ _ Hv4 Hper).
  rewrite (sub_exact (decimalValue g1) 1) by (unfold two53; lia).
  assert (Htarget : ofFields LocalTZA (Num (decimalValue g3))
                      (Num (decimalValue g1 - 1)) (Num (decimalValue g2))
                      (Num (hour24 (option_map toLowerCase g6) (decimalValue g4)))
                      (Num (decimalValue g5)) (Num 0) (Num 0)
                    = Num target).
  { unfold ofFields.
    assert (Hyr : (if (0 <=? decimalValue g3) && (decimalValue g3 <=? 99)
                   then Num (1900 + decimalValue g3) else Num (decimalValue g3))
                  = Num (if (0 <=? decimalValue g3) && (decimalValue g3 <=? 99)
                         then 1900 + decimalValue g3 else decimalValue g3))
      by (destruct ((0 <=? decimalValue g3) && (decimalValue g3 <=? 99));
          reflexivity).
    rewrite Hyr. unfold MakeDay, MakeTime, MakeDate, UTC.
    rewrite TimeClip_in_range.
    - unfold target, dateTimeValue. cbv zeta. f_equal.
      unfold msPerSecond.
      match goal with
      | |- ?a - LocalTZA ?a _ = ?b - LocalTZA ?b _ =>
          replace a with b by lia; reflexivity
      end.
    - unfold target, dateTimeValue in Hrange. cbv zeta in Hrange.
      unfold msPerSecond.
      match goal with
      | H : Z.abs (?b - LocalTZA ?b _) <= _ |- Z.abs (?a - LocalTZA ?a _) <= _ =>
          replace a with b by lia
      end.
      unfold maxTime. lia. }
  rewrite Htarget.
  cbv [Clock.bind newDate Clock.read Clock.ret]. cbn [isNaN getTime le]. fold now.
  destruct (Z.leb_spec target now) as [Hpast|Hfuture]; [reflexivity|].
  unfold getTime. rewrite sub_exact; [reflexivity|].
  unfold maxTime in Hclock. fold now in Hclock. unfold two53. lia.
Qed.

End DateTime.

(** C6, evaluated on the code.  Month 13 of 2099 is not refused: the [Date]
    constructor carries the thirteenth month into January 2100, the time
    value is a number, the [isNaN] test does not fire, and the family answers
    exactly as it does for 1/01/2100, whatever the clock and the zone.  With
    the clock at 2024-01-15T10:00Z in UTC the answer is a valid result for
    2100-01-01T09:00Z.  A date before the clock reading is refused with
    "Date is in the past". *)
Theorem C6_month_13_is_accepted :
  (forall (clock : nat -> Z) (LocalTZA : Z -> bool -> Z) (k : nat),
      let r13 := fst (parseDateTime clock LocalTZA "13/01/2099 9:00am" k) in
      let r1 := fst (parseDateTime clock LocalTZA "1/01/2100 9:00am" k) in
      isValid r13 = isValid r1 /\ delayMs r13 = delayMs r1
      /\ timestamp r13 = timestamp r1 /\ error r13 = error r1)
  /\ parseDateTime Env.frozen Env.utc "13/01/2099 9:00am" 0%nat =
     ({| isValid := true; delayMs := Num 2397164400000;
         timestamp := Num 4102477200000; error := None;
         originalInput := "13/01/2099 9:00am" |}, 1%nat)
  /\ parseDateTime Env.frozen Env.utc "1/1/2020 9:00am" 0%nat =
     ({| isValid := false; delayMs := Num 0; timestamp := Num 1705312800000;
         error := Some "Date is in the past";
         originalInput := "1/1/2020 9:00am" |}, 2%nat).
Proof.
  split; [|split; reflexivity].
  intros clock LocalTZA k. cbv zeta.
  assert (Hsame : ofFields LocalTZA (Num 2099) (Num 12) (Num 1) (Num 9) (Num 0)
                           (Num 0) (Num 0)
                  = ofFields LocalTZA (Num 2100) (Num 0) (Num 1) (Num 9) (Num 0)
                             (Num 0) (Num 0)) by reflexivity.
  assert (H13 : parseDateTime clock LocalTZA "13/01/2099 9:00am" k =
                (now <- newDate clock ;;
                 let targetTime := ofFields LocalTZA (Num 2099) (Num 12) (Num 1)
                                            (Num 9) (Num 0) (Num 0) (Num 0) in
                 if isNaN (getTime targetTime) then
                   failure clock (Some "Invalid date") "13/01/2099 9:00am"
                 else if le targetTime now then
                   failure clock (Some "Date is in the past") "13/01/2099 9:00am"
                 else
                   Clock.ret {| isValid := true;
                                delayMs := sub (getTime targetTime) (getTime now);
                                timestamp := targetTime; error := None;
                                originalInput := "13/01/2099 9:00am" |}) k)
    by reflexivity.
  assert (H1 : parseDateTime clock LocalTZA "1/01/2100 9:00am" k =
               (now <- newDate clock ;;
                let targetTime := ofFields LocalTZA (Num 2100) (Num 0) (Num 1)
                                           (Num 9) (Num 0) (Num 0) (Num 0) in
                if isNaN (getTime targetTime) then
                  failure clock (Some "Invalid date") "1/01/2100 9:00am"
                else if le targetTime now then
                  failure clock (Some "Date is in the past") "1/01/2100 9:00am"
                else
                  Clock.ret {| isValid := true;
                               delayMs := sub (getTime targetTime) (getTime now);
                               timestamp := targetTime; error := None;
                               originalInput := "1/01/2100 9:00am" |}) k)
    by reflexivity.
  rewrite H13, H1. cbv zeta. rewrite Hsame.
  cbv [Clock.bind newDate Clock.read Clock.ret].
  destruct (isNaN (getTime (ofFields LocalTZA (Num 2100) (Num 0) (Num 1) (Num 9)
                                     (Num 0) (Num 0) (Num 0))));
    [repeat split|].
  destruct (le (ofFields LocalTZA (Num 2100) (Num 0) (Num 1) (Num 9)
                         (Num 0) (Num 0) (Num 0)) (Num (clock k)));
    repeat split.
Qed.

(* ================================================================== *)
(** * C7: cancelReminder                                                *)
(* ================================================================== *)

(** C7, as the code has it.  The promise of [cancelReminder] never rejects.
    It resolves to true exactly when [getJob] finds a job and [remove] does
    not raise, whatever the state of the job, and the store is then the one
    [remove] returns; it resolves to false when no job is found, and also
    when [getJob] or [remove] raises, with the store unchanged: a failure of
    the store and an unknown job give the same false. *)
Theorem C7_cancelReminder_outcome :
  forall (Store : Type) (getJob : Store -> string -> Outcome (option Job))
         (remove : Store -> Job -> Outcome Store) (st : Store) (jobId : string),
    let r := cancelReminder Store getJob remove st jobId in
    (fst r = Returned true \/ fst r = Returned false)
    /\ (fst r = Returned true <->
        exists job st', getJob st jobId = Returned (Some job)
                        /\ remove st job = Returned st' /\ snd r = st')
    /\ (fst r = Returned false <->
        snd r = st
        /\ (getJob st jobId = Returned None
            \/ (exists e, getJob st jobId = Threw e)
            \/ (exists job e, getJob st jobId = Returned (Some job)
                              /\ remove st job = Threw e))).
Proof.
  intros Store getJob remove st jobId r. subst r. unfold cancelReminder.
  destruct (getJob st jobId) as [[job|]|e] eqn:Hget.
  - destruct (remove st job) as [st'|e] eqn:Hrem; cbn [fst snd].
    + split; [now left|]. split.
      * split; [intros _; exists job, st'; auto|reflexivity].
      * split; [discriminate|].
        intros [_ [H|[[e H]|(j & e & H & Hr)]]]; try discriminate.
        injection H as <-. congruence.
    + split; [now right|]. split.
      * split; [discriminate|].
        intros (j & st' & H & Hr & _). injection H as <-. congruence.
      * split; [intros _; split; [reflexivity|]|reflexivity].
        right. right. exists job, e. auto.
  - cbn [fst snd]. split; [now right|]. split.
    + split; [discriminate|]. intros (j & st' & H & _). discriminate.
    + split; [intros _; split; [reflexivity|now left]|reflexivity].
  - cbn [fst snd]. split; [now right|]. split.
    + split; [discriminate|]. intros (j & st' & H & _). discriminate.
    + split; [intros _; split; [reflexivity|]|reflexivity].
      right. left. now exists e.
Qed.

Lemma C7_witness :
  exists job st',
    refGetJob (Env.storeWith true Delayed) "remind-1001-1705312800000"
      = Returned (Some job)
    /\ refRemove (Env.storeWith true Delayed) job = Returned st'
    /\ snd (cancelReminder RefStore refGetJob refRemove
              (Env.storeWith true Delayed) "remind-1001-1705312800000") = st'.
Proof.
  apply (C7_cancelReminder_outcome RefStore refGetJob refRemove
           (Env.storeWith true Delayed) "remind-1001-1705312800000").
  reflexivity.
Defined.

(** On the reference store: a completed job that is still retained is
    removed and the answer is true; with the store out of reach the answer
    is false, as it is for an identifier that no job has. *)
Lemma C7_counterexample :
  let cancel := cancelReminder RefStore refGetJob refRemove in
  cancel (Env.storeWith true Completed) "remind-1001-1705312800000"
    = (Returned true, Env.emptyStore)
  /\ refGetJob (Env.storeWith false Delayed) "remind-1001-1705312800000"
     = Threw (ErrorObject "Connection is closed.")
  /\ fst (cancel (Env.storeWith false Delayed) "remind-1001-1705312800000")
     = Returned false
  /\ fst (cancel Env.emptyStore "remind-1001-1705312800000") = Returned false.
Proof. cbv zeta. repeat split. Qed.

(** An active job, locked by its worker, is not removed. *)
Lemma cancel_active_job :
  cancelReminder RefStore refGetJob refRemove
    (Env.storeWith true Active) "remind-1001-1705312800000"
  = (Returned false, Env.storeWith true Active).
Proof. reflexivity. Qed.

(* ================================================================== *)
(** * C2: retries                                                       *)
(* ================================================================== *)

Section Retry.

Variable clock : nat -> Z.
Variable bigShow : Z -> string.
Variable Queue : Type.
Variable queueAdd : Queue -> Job -> Outcome Queue.

(** [processReminderJob] returns, whatever the Twilio call did. *)
Lemma processReminderJob_returns (audioCall ttsCall : Outcome TwilioCallResult)
      (job : Job) (k : nat) :
  exists returnvalue,
    processReminderJob clock audioCall ttsCall job k = (Returned returnvalue, S k).
Proof.
  unfold processReminderJob.
  destruct (match audioFile (data job) with
            | Some (String _ _) => audioCall
            | _ => ttsCall
            end) as [callResult|e].
  - cbv [Clock.bind Clock.read Clock.ret].
    destruct (success callResult); eexists; reflexivity.
  - cbv [Clock.bind Clock.read Clock.ret]. eexists; reflexivity.
Qed.

(** The retry job that [scheduleRetry] hands to [queue.add], for a job with a
    delay and a priority: the delay is the smaller of five minutes and the
    job's delay, the priority is one more, and it is attempted once. *)
Lemma scheduleRetry_options (job : Job) (q : Queue) (k : nat) (d p : Z) :
  delay (opts job) = Some (Num d) -> priority (opts job) = Some (Num p) ->
  0 <= d -> 0 <= p < two53 - 1 ->
  let retryId := "retry-" ++ id job ++ "-" ++ showNumber bigShow (Num (clock k)) in
  let retry := {| id := retryId; name := "reminder-retry"; data := data job;
                  opts := {| delay := Some (Num (Z.min 300000 d));
                             priority := Some (Num (p + 1));
                             jobId := Some retryId;
                             attempts := Some (Num 1) |} |} in
  scheduleRetry clock bigShow Queue queueAdd job q k =
  (match queueAdd q retry with Returned q' => q' | Threw _ => q end, S k).
Proof.
  intros Hd Hp Hd0 Hp0. cbv zeta. unfold scheduleRetry. rewrite Hd, Hp.
  cbv [Clock.bind Clock.read Clock.ret].
  assert (Hdelay : mathMin (mul (mul (Num 5) (Num 60)) (Num 1000))
                           (orElse (Some (Num d)) (Num 0))
                   = Num (Z.min 300000 d)).
  { change (mul (mul (Num 5) (Num 60)) (Num 1000)) with (Num 300000).
    unfold orElse, truthy. destruct (Z.eqb_spec d 0) as [->|Hnz]; cbn [negb].
    - reflexivity.
    - unfold mathMin. cbn [le].
      destruct (Z.leb_spec 300000 d); f_equal; lia. }
  assert (Hprio : add (orElse (Some (Num p)) (Num 0)) (Num 1) = Num (p + 1)).
  { unfold orElse, truthy. destruct (Z.eqb_spec p 0) as [->|Hnz]; cbn [negb].
    - reflexivity.
    - apply add_exact. lia. }
  rewrite Hdelay, Hprio.
  match goal with |- context [queueAdd q ?j] => destruct (queueAdd q j) end;
    reflexivity.
Qed.

(** A failed retry job is not scheduled again. *)
Lemma onFailed_retry_job (job : Job) (e : Thrown) (q : Queue) (k : nat) :
  name job = "reminder-retry" ->
  onFailed clock bigShow Queue queueAdd job e q k = (q, k).
Proof. intros Hn. unfold onFailed. rewrite Hn. reflexivity. Qed.

End Retry.

(** C2, evaluated on the code.  Whatever the Twilio call of a job does,
    succeed, report a failure or raise, [processReminderJob] returns a
    result, so the worker completes the job: the ['failed'] handler, the
    only caller of [shouldRetry] and [scheduleRetry], does not run and the
    queue is left as it was.  So it is for the job of the example when
    Twilio rejects the call with "ETIMEDOUT", a message that [shouldRetry]
    classifies as retryable: the job completes with a result whose [success]
    is false, and no retry job is added. *)
Theorem C2_failed_call_is_not_retried :
  (forall (clock : nat -> Z) (bigShow : Z -> string) (Queue : Type)
          (queueAdd : Queue -> Job -> Outcome Queue)
          (audioCall ttsCall : Outcome TwilioCallResult)
          (job : Job) (q : Queue) (k : nat),
      exists returnvalue,
        runJob clock bigShow Queue queueAdd audioCall ttsCall job q k
        = (JobCompleted returnvalue, q, S k))
  /\ shouldRetry "ETIMEDOUT" = true
  /\ runJob Env.frozen showZ (list Job) Env.listAdd
            (makeCallWithAudio (Threw (ErrorObject "ETIMEDOUT")))
            (makeCallWithTTS (Threw (ErrorObject "ETIMEDOUT")))
            Env.sampleJob [] 0%nat
     = (JobCompleted
          {| resultSuccess := false;
             resultMessageId := "remind-1001-1705312800000";
             resultTimestamp := Num 1705312800000;
             resultMessage := "Failed to make phone call: ETIMEDOUT";
             resultCallSid := None |},
        [], 1%nat).
Proof.
  split; [|split; reflexivity].
  intros clock bigShow Queue queueAdd audioCall ttsCall job q k.
  unfold runJob, Clock.bind.
  destruct (processReminderJob_returns clock audioCall ttsCall job k) as [r ->].
  exists r. reflexivity.
Qed.

(** Had the ['failed'] event fired for the job of the example, one retry job
    would have been added: thirty seconds of delay, priority one. *)
Lemma onFailed_sample_job :
  onFailed Env.frozen showZ (list Job) Env.listAdd Env.sampleJob
           (ErrorObject "ETIMEDOUT") [] 0%nat
  = ([{| id := "retry-remind-1001-1705312800000-1705312800000";
         name := "reminder-retry"; data := Env.sampleData;
         opts := {| delay := Some (Num 30000); priority := Some (Num 1);
                    jobId := Some "retry-remind-1001-1705312800000-1705312800000";
                    attempts := Some (Num 1) |} |}], 1%nat).
Proof. reflexivity. Qed.

(* ================================================================== *)
(** * Twilio: texts and phone numbers                               *)
(* ================================================================== *)

Lemma sanitizeMessage_cons (c : ascii) (s : string) :
  sanitizeMessage (String c s) = escapeChar c ++ sanitizeMessage s.
Proof. each_char c; reflexivity. Qed.

Lemma sanitizeMessage_escape (m : string) : sanitizeMessage m = escape m.
Proof.
  induction m as [|c m IH]; [reflexivity|].
  rewrite sanitizeMessage_cons, IH. reflexivity.
Qed.

Lemma occurs_app (c : ascii) (a b : string) :
  occurs c (a ++ b) = occurs c a || occurs c b.
Proof.
  induction a as [|x a IH]; simpl; [reflexivity|].
  rewrite IH. now rewrite orb_assoc.
Qed.

Lemma escapeChar_no_markup (a c : ascii) :
  In c markup -> occurs c (escapeChar a) = false.
Proof.
  intros Hc. simpl in Hc.
  destruct Hc as [<-|[<-|[<-|[<-|[]]]]]; each_char a; reflexivity.
Qed.

(** X1.  [sanitizeMessage] writes, for each character of the message, the
    entity of an ampersand, a less-than sign, a greater-than sign, a double
    quote or an apostrophe, and the character itself otherwise: its five
    passes do not escape again the ampersands that the entities bring.  No
    less-than sign, greater-than sign, double quote or apostrophe is left in
    the result. *)
Theorem sanitizeMessage_escapes (message : string) :
  sanitizeMessage message = escape message
  /\ forall c, In c markup -> occurs c (sanitizeMessage message) = false.
Proof.
  split; [apply sanitizeMessage_escape|].
  intros c Hc. rewrite sanitizeMessage_escape.
  induction message as [|a m IH]; [reflexivity|].
  simpl escape. rewrite occurs_app, IH, (escapeChar_no_markup a c Hc).
  reflexivity.
Qed.

(** How [escapeChar] starts: an entity opens with an ampersand and a letter
    or sign that tells the five apart; any other character stands for
    itself and is no ampersand. *)
Lemma escapeChar_cases (c : ascii) :
  (c = "&"%char /\ escapeChar c = "&amp;")
  \/ (c = "<"%char /\ escapeChar c = "&lt;")
  \/ (c = ">"%char /\ escapeChar c = "&gt;")
  \/ (c = doubleQuote /\ escapeChar c = "&quot;")
  \/ (c = "'"%char /\ escapeChar c = "&#39;")
  \/ (c <> "&"%char /\ escapeChar c = String c "").
Proof.
  each_char c;
    first [ now left
          | now (right; left)
          | now (right; right; left)
          | now (right; right; right; left)
          | now (right; right; right; right; left)
          | (right; right; right; right; right; split;
             [discriminate|reflexivity]) ].
Qed.

Lemma escape_injective (a b : string) : escape a = escape b -> a = b.
Proof.
  revert b. induction a as [|x a IH]; intros [|y b] H.
  - reflexivity.
  - exfalso. simpl in H.
    destruct (escapeChar_cases y) as [[_ E]|[[_ E]|[[_ E]|[[_ E]|[[_ E]|[_ E]]]]]];
      rewrite E in H; discriminate H.
  - exfalso. simpl in H.
    destruct (escapeChar_cases x) as [[_ E]|[[_ E]|[[_ E]|[[_ E]|[[_ E]|[_ E]]]]]];
      rewrite E in H; discriminate H.
  - simpl in H.
    destruct (escapeChar_cases x) as [[X E]|[[X E]|[[X E]|[[X E]|[[X E]|[X E]]]]]];
      destruct (escapeChar_cases y) as [[Y F]|[[Y F]|[[Y F]|[[Y F]|[[Y F]|[Y F]]]]]];
      rewrite E, F in H; simpl in H;
      try discriminate H;
      try (injection H as H; subst; f_equal; now apply IH);
      try (injection H as H1 H; subst; first [now f_equal; apply IH | congruence]).
Qed.

(** X2.  Two messages that differ are sanitised to texts that differ. *)
Theorem sanitizeMessage_injective (a b : string) :
  a <> b -> sanitizeMessage a <> sanitizeMessage b.
Proof.
  intros N H. apply N, escape_injective.
  now rewrite <- !sanitizeMessage_escape.
Qed.

Lemma sanitizeMessage_injective_witness :
  "a<b" <> "a&lt;b" /\ sanitizeMessage "a<b" <> sanitizeMessage "a&lt;b".
Proof.
  split; [discriminate|].
  apply (sanitizeMessage_injective "a<b" "a&lt;b"). discriminate.
Defined.

(* ---------------------------------------------------------------- *)
(** ** Phone numbers *)

Lemma takeDigits_spec (k : nat) (r rest : string) :
  takeDigits k r = Some rest <->
  exists ds, r = ds ++ rest /\ allDigits ds = true /\ String.length ds = k.
Proof.
  revert r. induction k as [|k IH]; intros r; simpl.
  - split.
    + intros [= <-]. exists "". repeat split.
    + intros (ds & -> & _ & L). destruct ds; [reflexivity|discriminate L].
  - destruct r as [|c r].
    + split; [discriminate|].
      intros (ds & E & _ & L). destruct ds; discriminate.
    + destruct (isDigit c) eqn:Dc.
      * rewrite IH. split.
        -- intros (ds & -> & A & L). exists (String c ds). simpl.
           rewrite Dc, A, L. repeat split.
        -- intros (ds & E & A & L). destruct ds as [|d ds]; [discriminate L|].
           simpl in E, A, L. injection E as <- ->. injection L as L.
           apply andb_prop in A. exists ds. repeat split; tauto.
      * split; [discriminate|].
        intros (ds & E & A & L). destruct ds as [|d ds]; [discriminate L|].
        simpl in E, A. injection E as <- _. rewrite Dc in A. discriminate A.
Qed.

Lemma allDigits_app (a b : string) :
  allDigits (a ++ b) = allDigits a && allDigits b.
Proof.
  induction a as [|c a IH]; simpl; [reflexivity|].
  rewrite IH. now rewrite andb_assoc.
Qed.

Lemma length_app (a b : string) :
  String.length (a ++ b) = (String.length a + String.length b)%nat.
Proof. induction a as [|c a IH]; simpl; [reflexivity|now rewrite IH]. Qed.

(** A digit string splits after any number of its digits. *)
Lemma split_digits (k : nat) (r : string) :
  allDigits r = true -> (k <= String.length r)%nat ->
  exists ds rest, r = ds ++ rest /\ allDigits ds = true /\ String.length ds = k
                  /\ allDigits rest = true
                  /\ String.length rest = (String.length r - k)%nat.
Proof.
  revert r. induction k as [|k IH]; intros r A L.
  - exists "", r. simpl. repeat split; [exact A|lia].
  - destruct r as [|c r]; [simpl in L; lia|].
    simpl in A, L. apply andb_prop in A as [Dc A].
    destruct (IH r A ltac:(lia)) as (ds & rest & -> & A1 & L1 & A2 & L2).
    exists (String c ds), rest. simpl. rewrite Dc, A1, L1.
    repeat split; [exact A2|exact L2].
Qed.

Lemma phoneRegex_spec (s : string) :
  phoneRegex s = true <->
  exists ds, s = String "+" ds /\ allDigits ds = true
             /\ (7 <= String.length ds <= 17)%nat.
Proof.
  split.
  - destruct s as [|c r]; [discriminate|].
    unfold phoneRegex.
    destruct (Ascii.eqb_spec c "+") as [->|N].
    2:{ each_char c; first [discriminate | congruence]. }
    intros H. apply existsb_exists in H as (k & Hk & H).
    destruct (takeDigits k r) as [rest|] eqn:T; [|discriminate].
    apply takeDigits_spec in T as (ds & -> & A & L).
    apply andb_prop in H as [A2 H]. apply andb_prop in H as [L1 L2].
    apply Nat.leb_le in L1, L2.
    exists (ds ++ rest). rewrite allDigits_app, A, A2, length_app.
    repeat split; simpl in Hk; lia.
  - intros (ds & -> & A & L). unfold phoneRegex.
    apply existsb_exists.
    assert (pick : exists k, In k [3; 2; 1]%nat
                             /\ (6 <= String.length ds - k <= 14)%nat
                             /\ (k <= String.length ds)%nat).
    { destruct (Nat.le_gt_cases 9 (String.length ds)).
      - exists 3%nat. simpl. split; [tauto|lia].
      - destruct (Nat.eq_dec (String.length ds) 8).
        + exists 2%nat. simpl. split; [tauto|lia].
        + exists 1%nat. simpl. split; [tauto|lia]. }
    destruct pick as (k & Hk & Hr & Hle).
    exists k. split; [exact Hk|].
    destruct (split_digits k ds A Hle) as (d1 & rest & E & A1 & L1 & A2 & L2).
    assert (T : takeDigits k ds = Some rest).
    { apply takeDigits_spec. exists d1. repeat split; assumption. }
    rewrite T, A2, L2. cbn [andb].
    apply andb_true_intro. split; apply Nat.leb_le; lia.
Qed.

Lemma removeNonDigits_digits (s : string) : allDigits (removeNonDigits s) = true.
Proof.
  induction s as [|c s IH]; simpl; [reflexivity|].
  destruct (isDigit c) eqn:D; simpl; [now rewrite D|exact IH].
Qed.

Lemma startsWith_plus (s : string) :
  startsWith "+" s = true <-> exists r, s = String "+" r.
Proof.
  destruct s as [|c r]; cbn [startsWith].
  - split; [discriminate|intros [? [=]]].
  - rewrite andb_true_r. split.
    + intros H. apply Ascii.eqb_eq in H. subst. now exists r.
    + intros (? & [= <- _]). apply Ascii.eqb_refl.
Qed.

Lemma formatPhoneNumber_cases (s : string) :
  let digits := removeNonDigits s in
  (startsWith "+" s = true /\ formatPhoneNumber s = s)
  \/ (startsWith "+" s = false /\ String.length digits = 10%nat
      /\ formatPhoneNumber s = "+1" ++ digits)
  \/ (startsWith "+" s = false /\ String.length digits <> 10%nat
      /\ formatPhoneNumber s = "+" ++ digits).
Proof.
  intros digits. unfold formatPhoneNumber. fold digits.
  destruct (startsWith "+" s) eqn:P; [now left|right].
  destruct (String.length digits =? 10)%nat eqn:L10.
  - apply Nat.eqb_eq in L10. now left.
  - apply Nat.eqb_neq in L10. right.
    destruct ((String.length digits =? 11)%nat && startsWith "1" digits);
      repeat split; assumption.
Qed.

(** X3.  [validatePhoneNumber] accepts a string exactly when it is a plus
    sign followed by decimal digits only, at least 7 and at most 17 of them:
    the two counts of its expression add up. *)
Theorem validatePhoneNumber_shape (phoneNumber : string) :
  validatePhoneNumber phoneNumber = true <->
  exists ds, phoneNumber = String "+" ds /\ allDigits ds = true
             /\ (7 <= String.length ds <= 17)%nat.
Proof. unfold validatePhoneNumber. apply phoneRegex_spec. Qed.

(** X4.  What [formatPhoneNumber] returns starts with a plus sign, and
    formatting it once more leaves it as it is. *)
Theorem formatPhoneNumber_idempotent (phoneNumber : string) :
  startsWith "+" (formatPhoneNumber phoneNumber) = true
  /\ formatPhoneNumber (formatPhoneNumber phoneNumber)
     = formatPhoneNumber phoneNumber.
Proof.
  assert (P : startsWith "+" (formatPhoneNumber phoneNumber) = true).
  { destruct (formatPhoneNumber_cases phoneNumber)
      as [[P ->]|[(_ & _ & ->)|(_ & _ & ->)]];
      [exact P|reflexivity|reflexivity]. }
  split; [exact P|].
  destruct (formatPhoneNumber_cases (formatPhoneNumber phoneNumber))
    as [[_ E]|[(N & _)|(N & _)]]; [exact E|congruence|congruence].
Qed.

(** X5.  For a number given without a leading plus sign, the formatted
    number passes [validatePhoneNumber] exactly when the input holds at
    least 7 and at most 17 digits, whatever else stands between them. *)
Theorem formatPhoneNumber_then_validate (phoneNumber : string) :
  startsWith "+" phoneNumber = false ->
  (validatePhoneNumber (formatPhoneNumber phoneNumber) = true <->
   (7 <= String.length (removeNonDigits phoneNumber) <= 17)%nat).
Proof.
  intros P. unfold validatePhoneNumber. rewrite phoneRegex_spec.
  pose proof (removeNonDigits_digits phoneNumber) as A.
  destruct (formatPhoneNumber_cases phoneNumber)
    as [[Q _]|[(_ & L & ->)|(_ & L & ->)]]; [congruence| |].
  - split; [intros _; lia|intros _].
    exists (String "1" (removeNonDigits phoneNumber)).
    cbn [String.append allDigits String.length]. rewrite A, L.
    repeat split; lia.
  - split.
    + intros (ds & [= <-] & _ & R). exact R.
    + intros R. exists (removeNonDigits phoneNumber). now repeat split.
Qed.

Lemma formatPhoneNumber_then_validate_witness :
  startsWith "+" "(555) 123-4567" = false
  /\ (validatePhoneNumber (formatPhoneNumber "(555) 123-4567") = true <->
      (7 <= String.length (removeNonDigits "(555) 123-4567") <= 17)%nat).
Proof.
  split; [reflexivity|].
  apply (formatPhoneNumber_then_validate "(555) 123-4567"). reflexivity.
Defined.

(** X6.  An input without a leading plus sign that holds ten digits, in any
    punctuation, is formatted to +1 followed by the ten digits, which has
    the format the configuration asks of the Twilio number and of the target
    number. *)
Theorem formatPhoneNumber_ten_digits (phoneNumber : string) :
  startsWith "+" phoneNumber = false ->
  String.length (removeNonDigits phoneNumber) = 10%nat ->
  formatPhoneNumber phoneNumber = "+1" ++ removeNonDigits phoneNumber
  /\ Config.twilioPhoneNumberFormat (formatPhoneNumber phoneNumber) = true
  /\ Config.targetPhoneNumberFormat (formatPhoneNumber phoneNumber) = true.
Proof.
  intros P L.
  pose proof (removeNonDigits_digits phoneNumber) as A.
  assert (E : formatPhoneNumber phoneNumber = "+1" ++ removeNonDigits phoneNumber).
  { destruct (formatPhoneNumber_cases phoneNumber)
      as [[Q _]|[(_ & _ & E)|(_ & N & _)]]; [congruence|exact E|contradiction]. }
  split; [exact E|]. split.
  - rewrite E. cbn [String.append Config.twilioPhoneNumberFormat].
    rewrite A, L. reflexivity.
  - unfold Config.targetPhoneNumberFormat. rewrite E. apply phoneRegex_spec.
    exists (String "1" (removeNonDigits phoneNumber)).
    cbn [String.append allDigits String.length]. rewrite A, L.
    repeat split; lia.
Qed.

Lemma formatPhoneNumber_ten_digits_witness :
  formatPhoneNumber "(555) 123-4567" = "+15551234567"
  /\ Config.twilioPhoneNumberFormat (formatPhoneNumber "(555) 123-4567") = true
  /\ Config.targetPhoneNumberFormat (formatPhoneNumber "(555) 123-4567") = true.
Proof.
  apply (formatPhoneNumber_ten_digits "(555) 123-4567"); reflexivity.
Defined.

(* ================================================================== *)
(** * Google Calendar: from events to jobs                          *)
(* ================================================================== *)

Section CalendarFacts.

Variable clock : nat -> Z.
Variable bigShow : Z -> string.
Variable toISOString : Z -> string.
Variable Queue : Type.
Variable queueAdd : Queue -> Job -> Outcome Queue.
Variable toLocaleTimeString : Date -> string.

Local Abbreviation processCalendarEvent' :=
  (processCalendarEvent clock bigShow toISOString Queue queueAdd
                        toLocaleTimeString).

Local Abbreviation calendarJob' :=
  (calendarJob bigShow toISOString toLocaleTimeString).

Lemma scheduleEventReminder_run (event : CalendarEvent) (d : Z) (q : Queue)
      (k : nat) :
  scheduleEventReminder clock bigShow toISOString Queue queueAdd
                        toLocaleTimeString event (Num d) q k
  = match queueAdd q (calendarJob' event (clock k) (clock (S k)) d) with
    | Returned q' => (q', S (S (S k)))
    | Threw _ => (q, S (S k))
    end.
Proof.
  unfold scheduleEventReminder, addReminder, calendarJob, Clock.bind, Clock.read,
    Clock.ret.
  cbn [optTtsVoice optAudioFile optPriority orString orElse truthy].
  change (negb (10 =? 0)) with true. cbv iota.
  change ("remind-" ++ "calendar-" ++ eventId event ++ "-"
          ++ showNumber bigShow (Num (clock (S k))))
    with ("remind-calendar-" ++ eventId event ++ "-"
          ++ showNumber bigShow (Num (clock (S k)))).
  destruct (queueAdd q _) as [q'|e]; [|reflexivity].
  destruct (ofNumber _); reflexivity.
Qed.

Lemma processCalendarEvent_run (event : CalendarEvent) (q : Queue)
        (k : nat) (s : Z) :
  let now := clock k in
  startTime event = Num s ->
  Z.abs (s - now) < two53 ->
  processCalendarEvent' event q k =
  if s <=? now then (q, S k)
  else
    match queueAdd q (calendarJob' event (clock (S k)) (clock (S (S k)))
                                  (Z.max 0 (s - now - 600000))) with
    | Returned q' => (q', S (S (S (S k))))
    | Threw _ => (q, S (S (S k)))
    end.
Proof.
  intros now Hs Hr.
  unfold processCalendarEvent, newDate, Clock.bind, Clock.read, Clock.ret.
  rewrite Hs. unfold getTime. fold now.
  rewrite (sub_exact s now Hr).
  change (mul (mul (Num 10) (Num 60)) (Num 1000)) with (Num 600000).
  cbn [le]. replace (s - now <=? 0) with (s <=? now)
    by (destruct (Z.leb_spec s now), (Z.leb_spec (s - now) 0); lia || reflexivity).
  destruct (Z.leb_spec s now) as [Hle|Hgt]; [reflexivity|].
  rewrite (sub_exact (s - now) 600000) by (unfold two53 in *; lia).
  unfold gt. cbn [lt le].
  destruct (Z.ltb_spec 0 (s - now - 600000)) as [Hfar|Hnear].
  - rewrite scheduleEventReminder_run.
    replace (Z.max 0 (s - now - 600000)) with (s - now - 600000) by lia.
    reflexivity.
  - replace (s - now <=? 600000) with true by (symmetry; apply Z.leb_le; lia).
    replace (0 <? s - now) with true by (symmetry; apply Z.ltb_lt; lia).
    cbn [andb]. rewrite scheduleEventReminder_run.
    replace (Z.max 0 (s - now - 600000)) with 0 by lia.
    reflexivity.
Qed.

Lemma processCalendarEvent_invalid_start (event : CalendarEvent) (q : Queue)
      (k : nat) :
  startTime event = NaN -> processCalendarEvent' event q k = (q, S k).
Proof.
  intros Hs. unfold processCalendarEvent, newDate, Clock.bind, Clock.read,
               Clock.ret.
  rewrite Hs. reflexivity.
Qed.

End CalendarFacts.

Section SyncFacts.

Variable clock : nat -> Z.
Variable bigShow : Z -> string.
Variable toISOString : Z -> string.
Variable toLocaleTimeString : Date -> string.
Variable dateParse : string -> Date.
Variable googleCalendarId : string.
Variable eventsList : Z -> Outcome (option (list EventItem)).

Variables t0 t1 : Z.
Hypothesis clock_window : forall n, t0 <= clock n <= t1.
Hypothesis window_in_range : - maxTime <= t0 /\ t1 + msPerDay <= maxTime.

Local Abbreviation processEvents' :=
  (processEvents clock bigShow toISOString (list Job) Env.listAdd
                 toLocaleTimeString).

Lemma processEvents_jobs (events : list CalendarEvent) :
  Forall (fun e => settled t0 t1 (startTime e)) events ->
  forall (q : list Job) (k : nat),
  exists jobs k',
    processEvents' events q k = ((q ++ jobs)%list, k')
    /\ map (fun j => messageId (data j)) jobs
       = map (fun e => "calendar-" ++ eventId e)
             (filter (fun e => startsAfter t1 (startTime e)) events)
    /\ Forall calendarReminder jobs.
Proof.
  induction 1 as [|e events He _ IH]; intros q k.
  - exists [], k. cbn. rewrite app_nil_r. repeat split. constructor.
  - cbn [processEvents]. unfold Clock.bind.
    pose proof (clock_window k) as Hk.
    destruct (startTime e) as [s| | |] eqn:Es; cbn [settled] in He;
      try contradiction.
    + destruct He as (Hside & H0 & H1).
      rewrite (processCalendarEvent_run clock bigShow toISOString (list Job)
                 Env.listAdd toLocaleTimeString e q k s Es)
        by (unfold two53 in *; lia).
      cbn [filter]. rewrite Es. cbn [startsAfter].
      destruct (Z.leb_spec s (clock k)) as [Hle|Hgt].
      * replace (t1 <? s) with false by (symmetry; apply Z.ltb_ge; lia).
        apply IH.
      * replace (t1 <? s) with true by (symmetry; apply Z.ltb_lt; lia).
        cbn [Env.listAdd].
        destruct (IH (q ++ [calendarJob bigShow toISOString toLocaleTimeString e
                                        (clock (S k)) (clock (S (S k)))
                                        (Z.max 0 (s - clock k - 600000))])%list
                     (S (S (S (S k))))) as (jobs & k' & E & M & F).
        eexists (_ :: jobs), k'. rewrite E, <- app_assoc. cbn [app map].
        split; [reflexivity|]. split; [now rewrite M|].
        constructor; [|exact F].
        unfold calendarReminder. cbn. repeat split.
        exists (Z.max 0 (s - clock k - 600000)). split; [reflexivity|lia].
    + rewrite (processCalendarEvent_invalid_start clock bigShow toISOString
                 (list Job) Env.listAdd toLocaleTimeString e q k Es).
      cbn [filter]. rewrite Es. cbn [startsAfter]. apply IH.
Qed.

Lemma remindable_events (items : list EventItem) :
  map (fun e => "calendar-" ++ eventId e)
      (filter (fun e => startsAfter t1 (startTime e))
              (eventsOfItems dateParse googleCalendarId items))
  = map (fun item => "calendar-" ++ orString (itemId item) "")
        (filter (remindable dateParse t1) items).
Proof.
  induction items as [|item items IH]; [reflexivity|].
  cbn [eventsOfItems filter]. unfold remindable at 1.
  destruct (itemStart item) as [[[|c r]|]|]; try exact IH.
  cbn [filter eventOfItem startTime].
  destruct (startsAfter t1 (dateParse (String c r))); [|exact IH].
  cbn [map eventOfItem eventId]. now rewrite IH.
Qed.

(** X8.  A synchronisation whose clock readings lie between [t0] and [t1],
    for a calendar that answers with [items], none of which starts inside
    that window: it resolves, and it adds to the queue, whatever the queue
    holds already, one job for each item that has a start date-time after
    the window, in the order of the answer, with the message id made of
    [calendar-] and the id of the item.  Items without a start date-time,
    all-day events for one, and items that have started are passed over.
    Each job is a reminder of the user [google-calendar] on the channel
    [calendar-system], of priority 10, with a delay that is not negative. *)
Theorem syncCalendarEvents_jobs (items : list EventItem) (q : list Job)
        (k : nat) :
  eventsList (clock k) = Returned (Some items) ->
  Forall (fun e => settled t0 t1 (startTime e))
         (eventsOfItems dateParse googleCalendarId items) ->
  exists jobs k',
    syncCalendarEvents clock bigShow toISOString (list Job) Env.listAdd
                       toLocaleTimeString dateParse googleCalendarId
                       eventsList q k
    = (Returned tt, (q ++ jobs)%list, k')
    /\ map (fun j => messageId (data j)) jobs
       = map (fun item => "calendar-" ++ orString (itemId item) "")
             (filter (remindable dateParse t1) items)
    /\ Forall calendarReminder jobs.
Proof.
  intros Hlist Hset.
  unfold syncCalendarEvents, fetchUpcomingEvents, newDate, Clock.bind,
    Clock.read, Clock.ret.
  change (mul (mul (mul (Num 24) (Num 60)) (Num 60)) (Num 1000))
    with (Num msPerDay).
  pose proof (clock_window k) as Hk. destruct window_in_range as [Hlo Hhi].
  unfold getTime.
  rewrite add_exact by (unfold maxTime, msPerDay, two53 in *; lia).
  unfold ofNumber.
  rewrite TimeClip_in_range by (unfold maxTime, msPerDay in *; lia).
  rewrite Hlist.
  destruct (processEvents_jobs _ Hset q (S k)) as (jobs & k' & E & M & F).
  exists jobs, k'. rewrite E. split; [reflexivity|].
  split; [|exact F]. rewrite M. apply remindable_events.
Qed.

End SyncFacts.

Lemma syncCalendarEvents_jobs_witness :
  exists jobs k',
    syncCalendarEvents Env.frozen showZ showZ (list Job) Env.listAdd
                       (fun _ => "11:00 AM") Samples.dateParse "primary"
                       (fun _ => Returned (Some Samples.items)) [] 0%nat
    = (Returned tt, ([] ++ jobs)%list, k')
    /\ map (fun j => messageId (data j)) jobs
       = map (fun item => "calendar-" ++ orString (itemId item) "")
             (filter (remindable Samples.dateParse 1705312800000) Samples.items)
    /\ Forall calendarReminder jobs.
Proof.
  apply (syncCalendarEvents_jobs Env.frozen showZ showZ (fun _ => "11:00 AM")
           Samples.dateParse "primary"
           (fun _ => Returned (Some Samples.items))
           1705312800000 1705312800000).
  - intros n. vm_compute. split; discriminate.
  - vm_compute. split; discriminate.
  - reflexivity.
  - constructor; [|constructor; [|constructor]].
    + split; [right; reflexivity|split; reflexivity].
    + split; [left; discriminate|split; reflexivity].
Defined.

(** ** When the reminder of a calendar event is due *)

Section CalendarDue.

Variable clock : nat -> Z.
Variable bigShow : Z -> string.
Variable toISOString : Z -> string.
Variable toLocaleTimeString : Date -> string.

(** X7.  An event that starts at [s], looked at when the clock reads [now]:
    if it has started, nothing is added to the queue; otherwise one job is
    added, and the instant it is due, [now] plus its delay, is ten minutes
    before the start, or [now] itself when that has passed.  The job carries
    the message id made of [calendar-] and the id of the event, the user
    [google-calendar] and priority 10. *)
Theorem processCalendarEvent_due (event : CalendarEvent) (q : list Job)
        (k : nat) (s : Z) :
  let now := clock k in
  let after := fst (processCalendarEvent clock bigShow toISOString (list Job)
                      Env.listAdd toLocaleTimeString event q k) in
  startTime event = Num s ->
  Z.abs (s - now) < two53 ->
  if s <=? now then after = q
  else exists job d,
         after = (q ++ [job])%list
         /\ delay (opts job) = Some (Num d)
         /\ now + d = Z.max now (s - 600000)
         /\ messageId (data job) = "calendar-" ++ eventId event
         /\ userId (data job) = "google-calendar"
         /\ priority (opts job) = Some (Num 10).
Proof.
  intros now after Hs Hr. unfold after.
  rewrite (processCalendarEvent_run clock bigShow toISOString (list Job)
             Env.listAdd toLocaleTimeString event q k s Hs Hr).
  fold now. destruct (Z.leb_spec s now) as [Hle|Hgt]; [reflexivity|].
  cbn [Env.listAdd fst]. eexists. exists (Z.max 0 (s - now - 600000)).
  split; [reflexivity|]. cbn. repeat split. lia.
Qed.

End CalendarDue.

Lemma processCalendarEvent_due_witness :
  exists job d,
    fst (processCalendarEvent Env.frozen showZ showZ (list Job) Env.listAdd
           (fun _ => "11:00 AM")
           {| eventId := "e1"; summary := "Review"; description := "";
              startTime := Num 1705316400000; endTime := None; location := "";
              attendees := []; calendarId := "primary" |} [] 0%nat)
    = ([] ++ [job])%list
    /\ delay (opts job) = Some (Num d)
    /\ Env.frozen 0%nat + d = Z.max (Env.frozen 0%nat) (1705316400000 - 600000)
    /\ messageId (data job) = "calendar-" ++ "e1"
    /\ userId (data job) = "google-calendar"
    /\ priority (opts job) = Some (Num 10).
Proof.
  apply (processCalendarEvent_due Env.frozen showZ showZ (fun _ => "11:00 AM")
           {| eventId := "e1"; summary := "Review"; description := "";
              startTime := Num 1705316400000; endTime := None; location := "";
              attendees := []; calendarId := "primary" |} [] 0%nat
           1705316400000 eq_refl).
  vm_compute. reflexivity.
Defined.

(* ================================================================== *)
(** * The queue: adding a reminder                                  *)
(* ================================================================== *)

(** ** Adding a reminder *)

Section AddReminder.

Variable clock : nat -> Z.
Variable bigShow : Z -> string.
Variable toISOString : Z -> string.
Variable Queue : Type.
Variable queueAdd : Queue -> Job -> Outcome Queue.

Local Abbreviation addReminder' :=
  (addReminder clock bigShow toISOString Queue queueAdd).

(** Beyond the range of [Date], a sum does not come back into it by
    rounding. *)
Lemma ofNumber_out_of_range (x : Z) :
  maxTime < x -> ofNumber (toNumber x) = NaN.
Proof.
  intros Hx. destruct (Z.lt_ge_cases x two53) as [Hs|Hb].
  - rewrite toNumber_exact by (unfold maxTime in Hx; lia).
    unfold ofNumber, TimeClip.
    destruct (Z.leb_spec (Z.abs x) maxTime); [lia|reflexivity].
  - destruct (toNumber_big x Hb) as [->|(m & -> & Hm)]; [reflexivity|].
    unfold ofNumber, TimeClip.
    destruct (Z.leb_spec (Z.abs m) maxTime);
      [unfold maxTime, two53 in *; lia|reflexivity].
Qed.

(** X9.  [addReminder] with a delay of [d] milliseconds hands [queue.add] a
    job named [reminder], with that delay and the id made of [remind-], the
    message id and the clock reading.  If [queue.add] rejects, so does the
    call, with the same error.  If it resolves, the call resolves with the
    job when the due instant, the clock reading plus [d], is an instant a
    [Date] can hold; beyond the last of them, 8,640,000,000,000,000, the
    line that logs the due date raises a [RangeError]: the call rejects
    although the job is in the queue. *)
Theorem addReminder_settles (message userId channelId messageId : string)
        (options : option ReminderOptions) (d : Z) (q : Queue) (k : nat) :
  let logged := clock (2 + k) in
  0 <= logged + d ->
  exists job,
    name job = "reminder"
    /\ id job = "remind-" ++ messageId ++ "-"
                ++ showNumber bigShow (Num (clock (1 + k)))
    /\ delay (opts job) = Some (Num d)
    /\ addReminder' message (Num d) userId channelId messageId options q k
       = match queueAdd q job with
         | Returned q' =>
             (if logged + d <=? maxTime then Returned job
              else Threw (ErrorObject "Invalid time value"), q', (3 + k)%nat)
         | Threw e => (Threw e, q, (2 + k)%nat)
         end.
Proof.
  intros logged Hnn. unfold addReminder, Clock.bind, Clock.read, Clock.ret.
  eexists. split; [|split; [|split]];
    [| |
     |match goal with
      | |- context [queueAdd q ?j] => instantiate (1 := j)
      end];
    try reflexivity.
  destruct (queueAdd q _) as [q'|e]; [|reflexivity].
  cbn [add]. change (clock (S (S k))) with logged.
  destruct (Z.leb_spec (logged + d) maxTime) as [Hin|Hout].
  - rewrite (toNumber_exact (logged + d))
      by (unfold maxTime, two53 in *; lia).
    unfold ofNumber. rewrite TimeClip_in_range by lia. reflexivity.
  - rewrite (ofNumber_out_of_range _ Hout). reflexivity.
Qed.

End AddReminder.

Lemma addReminder_settles_witness :
  exists job,
    name job = "reminder"
    /\ id job = "remind-" ++ "1001" ++ "-"
                ++ showNumber showZ (Num (Env.frozen (1 + 0)%nat))
    /\ delay (opts job) = Some (Num 10000000000000000)
    /\ addReminder Env.frozen showZ showZ (list Job) Env.listAdd
         "Stand-up" (Num 10000000000000000) "42" "7" "1001" None [] 0%nat
       = match Env.listAdd [] job with
         | Returned q' =>
             (if Env.frozen (2 + 0)%nat + 10000000000000000 <=? maxTime
              then Returned job
              else Threw (ErrorObject "Invalid time value"), q', (3 + 0)%nat)
         | Threw e => (Threw e, [], (2 + 0)%nat)
         end.
Proof.
  apply (addReminder_settles Env.frozen showZ showZ (list Job) Env.listAdd
           "Stand-up" "42" "7" "1001" None 10000000000000000 [] 0%nat).
  vm_compute. discriminate.
Defined.

(* ---------------------------------------------------------------- *)
(** ** Job ids *)

Lemma showZ_value (n : Z) : 0 <= n -> decimalValue (showZ n) = n.
Proof.
  intros Hn. destruct (Z.eq_dec n 0) as [->|Hz]; [reflexivity|].
  now apply showZ_digits; lia.
Qed.

Lemma showNumber_injective (bigShow : Z -> string) (a b : Z) :
  0 <= a < two53 -> 0 <= b < two53 ->
  showNumber bigShow (Num a) = showNumber bigShow (Num b) -> a = b.
Proof.
  intros Ha Hb. unfold showNumber.
  destruct (Z.ltb_spec (Z.abs a) two53); [|lia].
  destruct (Z.ltb_spec (Z.abs b) two53); [|lia].
  intros E. rewrite <- (showZ_value a), <- (showZ_value b) by lia.
  now rewrite E.
Qed.

Lemma append_cancel (a x y : string) : a ++ x = a ++ y -> x = y.
Proof.
  induction a as [|c a IH]; [trivial|].
  cbn. intros [= E]. now apply IH.
Qed.

Section JobIds.

Variable clock : nat -> Z.
Variable bigShow : Z -> string.
Variable toISOString : Z -> string.
Variable Queue : Type.
Variable queueAdd : Queue -> Job -> Outcome Queue.

Local Abbreviation addReminder' :=
  (addReminder clock bigShow toISOString Queue queueAdd).

Lemma addReminder_returned_id (message : string) (delayMs : number)
      (userId channelId messageId : string) (options : option ReminderOptions)
      (q : Queue) (k : nat) (job : Job) :
  fst (fst (addReminder' message delayMs userId channelId messageId options q k))
  = Returned job ->
  id job = "remind-" ++ messageId ++ "-" ++ showNumber bigShow (Num (clock (S k))).
Proof.
  unfold addReminder, Clock.bind, Clock.read, Clock.ret.
  destruct (queueAdd q _) as [q'|e]; [|intros H; discriminate H].
  destruct (ofNumber _); cbn [fst]; intros H;
    first [discriminate H | injection H as <-; reflexivity].
Qed.

(** X10.  Two calls of [addReminder] for the same message id that resolve
    give their jobs the same id exactly when the clock read the same
    millisecond at both: the id is the message id and that reading, nothing
    else. *)
Theorem addReminder_job_ids
        (message1 message2 : string) (delay1 delay2 : number)
        (userId1 userId2 channelId1 channelId2 messageId : string)
        (options1 options2 : option ReminderOptions)
        (q1 q2 : Queue) (k1 k2 : nat) (job1 job2 : Job) :
  fst (fst (addReminder' message1 delay1 userId1 channelId1 messageId options1
                         q1 k1)) = Returned job1 ->
  fst (fst (addReminder' message2 delay2 userId2 channelId2 messageId options2
                         q2 k2)) = Returned job2 ->
  0 <= clock (1 + k1) < two53 -> 0 <= clock (1 + k2) < two53 ->
  (id job1 = id job2 <-> clock (1 + k1) = clock (1 + k2)).
Proof.
  intros H1 H2 R1 R2.
  rewrite (addReminder_returned_id _ _ _ _ _ _ _ _ _ H1),
          (addReminder_returned_id _ _ _ _ _ _ _ _ _ H2).
  cbn [Nat.add] in *. split.
  - intros E. apply append_cancel, append_cancel, append_cancel in E.
    exact (showNumber_injective bigShow _ _ R1 R2 E).
  - intros ->. reflexivity.
Qed.

End JobIds.

Lemma addReminder_job_ids_witness :
  exists job1 job2,
    fst (fst (addReminder Samples.ticking showZ showZ (list Job) Env.listAdd
                "Call mom" (Num 2700000) "42" "7" "1001" None [] 0%nat))
    = Returned job1
    /\ fst (fst (addReminder Samples.ticking showZ showZ (list Job) Env.listAdd
                   "Call dad" (Num 60000) "42" "7" "1001" None [] 3%nat))
       = Returned job2
    /\ (id job1 = id job2 <-> Samples.ticking 1%nat = Samples.ticking 4%nat).
Proof.
  do 2 eexists. split; [reflexivity|]. split; [reflexivity|].
  apply (addReminder_job_ids Samples.ticking showZ showZ (list Job) Env.listAdd
           "Call mom" "Call dad" (Num 2700000) (Num 60000) "42" "42" "7" "7"
           "1001" None None [] [] 0%nat 3%nat).
  - reflexivity.
  - reflexivity.
  - vm_compute. split; [discriminate|reflexivity].
  - vm_compute. split; [discriminate|reflexivity].
Defined.

(* ================================================================== *)
(** * The time parser: limits, round trips, and what a result holds *)
(* ================================================================== *)

Section ClockTimeValues.

Variable clock : nat -> Z.
Variable LocalTZA : Z -> bool -> Z.

(** A clock time whose hour, after the am/pm conversion, is above 23, or
    whose minute is above 59, is refused by its family. *)
Lemma parseAbsoluteTime_invalid (s g1 g2 : string) (g3 : option string) (k : nat) :
  ABSOLUTE_TIME_REGEX s = Some (g1, g2, g3) ->
  let h := hour24 (option_map toLowerCase g3) (decimalValue g1) in
  let m := decimalValue g2 in
  23 < h \/ 59 < m ->
  parseAbsoluteTime clock LocalTZA s k =
  ({| isValid := false; delayMs := Num 0; timestamp := Num (clock k);
      error := Some "Invalid time values"; originalInput := s |}, S k).
Proof.
  intros Hmatch h m Hbad.
  pose proof Hmatch as Hg. unfold ABSOLUTE_TIME_REGEX in Hg.
  apply clockGroups_inv in Hg as (Hd1 & Hl1 & Hd2 & Hl2 & Hp).
  pose proof (decimalValue_two_digits g1 Hd1 ltac:(lia)) as Hv1.
  pose proof (decimalValue_two_digits g2 Hd2 ltac:(lia)) as Hv2.
  assert (Hi1 : parseInt g1 = Num (decimalValue g1)).
  { apply (parseInt_group g1 100); [exact Hd1|lia|exact Hv1|unfold two53; lia]. }
  assert (Hi2 : parseInt g2 = Num (decimalValue g2)).
  { apply (parseInt_group g2 100); [exact Hd2|lia|exact Hv2|unfold two53; lia]. }
  assert (Hper : option_map toLowerCase g3 = None
                 \/ option_map toLowerCase g3 = Some "am"
                 \/ option_map toLowerCase g3 = Some "pm").
  { destruct Hp as [->|[?|?]]; auto. }
  unfold parseAbsoluteTime. rewrite Hmatch, Hi1, Hi2.
  rewrite (to24Hour_hour24 _ _ Hv1 Hper). fold h. fold m.
  cbn [lt gt].
  assert (Hor : (h <? 0) || (23 <? h) || (m <? 0) || (59 <? m) = true).
  { destruct Hbad as [Hh|Hm].
    - replace (23 <? h) with true by (symmetry; now apply Z.ltb_lt).
      now rewrite orb_true_r.
    - replace (59 <? m) with true by (symmetry; now apply Z.ltb_lt).
      now rewrite orb_true_r. }
  rewrite Hor. reflexivity.
Qed.

End ClockTimeValues.

Section FixedZone.

Variable clock : nat -> Z.
Variable offset : Z.
Hypothesis offset_bounded : Z.abs offset <= msPerDay.

Lemma absolute_fixed_zone
        (s g1 g2 : string) (g3 : option string) (k : nat) :
  ABSOLUTE_TIME_REGEX s = Some (g1, g2, g3) ->
  Z.abs (clock k) + 6 * msPerDay <= maxTime ->
  let h := hour24 (option_map toLowerCase g3) (decimalValue g1) in
  let m := decimalValue g2 in
  let r := fst (parseAbsoluteTime clock (fun _ _ => offset) s k) in
  if (h <=? 23) && (m <=? 59)
  then isValid r = true
       /\ exists d, delayMs r = Num d /\ 0 < d <= msPerDay
                    /\ timestamp r = Num (clock k + d)
  else isValid r = false /\ error r = Some "Invalid time values".
Proof.
  intros Hmatch Hclock h m r.
  destruct (Z.leb_spec h 23) as [Hh|Hh]; cbn [andb].
  2:{ unfold r. rewrite (parseAbsoluteTime_invalid clock _ s g1 g2 g3 k Hmatch)
        by (left; exact Hh). split; reflexivity. }
  destruct (Z.leb_spec m 59) as [Hm|Hm].
  2:{ unfold r. rewrite (parseAbsoluteTime_invalid clock _ s g1 g2 g3 k Hmatch)
        by (right; exact Hm). split; reflexivity. }
  assert (Hz : forall (t : Z) (b : bool),
             Z.abs ((fun (_ : Z) (_ : bool) => offset) t b) <= msPerDay)
    by (intros; exact offset_bounded).
  pose proof (parseAbsoluteTime_valid clock (fun _ _ => offset) Hz s g1 g2 g3 k
                Hmatch Hh Hm Hclock) as Hrun.
  cbv zeta in Hrun. unfold r. rewrite Hrun. cbn [fst isValid delayMs timestamp].
  split; [reflexivity|].
  pose proof Hmatch as Hg. unfold ABSOLUTE_TIME_REGEX in Hg.
  apply clockGroups_inv in Hg as (Hd1 & Hl1 & Hd2 & Hl2 & Hp).
  pose proof (decimalValue_two_digits g1 Hd1 ltac:(lia)) as Hv1.
  pose proof (decimalValue_two_digits g2 Hd2 ltac:(lia)) as Hv2.
  pose proof (hour24_range (option_map toLowerCase g3) (decimalValue g1) Hv1) as Hh0.
  pose proof (constant_zone_clock_time offset (clock k) h m
                ltac:(unfold h; lia) ltac:(unfold m; lia)) as [_ Hin].
  cbv zeta in Hin. fold h m.
  match goal with
  | |- exists d, Num ?x = Num d /\ _ => exists x
  end.
  split; [reflexivity|]. split; [lia|]. f_equal. lia.
Qed.

End FixedZone.

Lemma thirty_days (bigShow : Z -> string) (delay : number) (x : Z) :
  0 < x -> reaches delay x ->
  dvIsValid (validateDelay bigShow delay None) = true <-> x <= 30 * 86400000.
Proof.
  intros Hx Hd. unfold validateDelay.
  rewrite (reaches_positive delay x Hx Hd).
  change (mul (mul (mul (mul (Num 30) (Num 24)) (Num 60)) (Num 60)) (Num 1000))
    with (Num 2592000000).
  unfold reaches in Hd. destruct (Z.ltb_spec x two53) as [Hs|Hb].
  - subst delay. unfold gt. cbn [lt].
    destruct (Z.ltb_spec 2592000000 x); cbn [dvIsValid]; split;
      intros; try discriminate; try reflexivity; lia.
  - assert (Hgt : gt delay (Num 2592000000) = true).
    { destruct Hd as [->|(m & -> & Hm)]; [reflexivity|].
      unfold gt. cbn [lt]. apply Z.ltb_lt. unfold two53 in Hm. lia. }
    rewrite Hgt. cbn [dvIsValid]. unfold two53 in Hb.
    split; [discriminate|lia].
Qed.

(** X11.  A relative duration, a positive number [n] followed by a unit
    letter, is valid for [parseTime], and [validateDelay] with its default
    limit accepts the delay read exactly when [n] units are at most thirty
    days; so it is also for a number so large that the delay read is a
    rounded double or infinity. *)
Theorem relative_duration_limit :
  forall (clock : nat -> Z) (LocalTZA : Z -> bool -> Z)
         (momentParse : string -> Clock.M MomentOutcome)
         (momentAddWeek : Z -> Z) (bigShow : Z -> string)
         (n : Z) (u : ascii) (k : nat),
    0 < n -> In u unitLetters ->
    let r := fst (parseTime clock LocalTZA momentParse momentAddWeek
                            (showZ n ++ String u "") k) in
    isValid r = true
    /\ (dvIsValid (validateDelay bigShow (delayMs r) None) = true
        <-> n * unitMs (lowerChar u) <= 30 * 86400000).
Proof.
  intros clock LocalTZA momentParse momentAddWeek bigShow n u k Hpos Hu r.
  destruct (showZ_digits n Hpos) as (Hne & Hds & Hv).
  destruct (lower_unit_letter u Hu) as (Hl & _ & _).
  apply unitLetters_spec in Hu.
  destruct (parseRelativeTime_reaches clock (showZ n) (lowerChar u) k
              Hne Hds Hl ltac:(lia)) as (delay & Hrel & Hreach).
  rewrite Hv in Hreach.
  assert (Hr : r = fst (parseRelativeTime clock
                          (showZ n ++ String (lowerChar u) "") k)).
  { unfold r. rewrite parseTime_relative;
      rewrite (normalise_relative (showZ n) u Hne Hds Hu);
      [reflexivity|rewrite Hrel; reflexivity]. }
  rewrite Hr, Hrel. cbn [fst isValid delayMs]. split; [reflexivity|].
  apply thirty_days; [|exact Hreach].
  assert (0 < unitMs (lowerChar u)).
  { repeat (destruct Hl as [<-|Hl]; [eval_unitMs; lia|]). destruct Hl. }
  nia.
Qed.

Lemma relative_duration_limit_witness :
  let r := fst (parseTime Env.frozen Env.utc Env.momentRejects Env.addWeek
                          (showZ 45 ++ String "m" "") 0%nat) in
  isValid r = true
  /\ (dvIsValid (validateDelay showZ (delayMs r) None) = true
      <-> 45 * unitMs (lowerChar "m") <= 30 * 86400000).
Proof.
  apply (relative_duration_limit Env.frozen Env.utc Env.momentRejects
           Env.addWeek showZ 45 "m"%char 0%nat).
  - reflexivity.
  - simpl. tauto.
Defined.

Section FormatThenParse.

Variable bigShow : Z -> string.
Variable bigFormat : Z -> string.

Lemma formatDelay_wholeUnit (d : Z) :
  wholeUnit d ->
  exists (n : Z) (u : ascii),
    formatDelay bigShow bigFormat (Num d) = showZ n ++ String u ""
    /\ In u ["s"; "m"; "h"; "d"]%char /\ 0 < n /\ d = n * unitMs u.
Proof.
  intros [[Hr Hm]|[[Hr Hm]|[[Hr Hm]|[Hr Hm]]]].
  - exists (d / 1000), "s"%char. eval_unitMs.
    split; [|split; [simpl; tauto|div_lia]].
    unfold formatDelay.
    destruct (Z.ltb_spec d 1000); [lia|].
    destruct (Z.leb_spec two53 d); [unfold two53 in *; lia|].
    destruct (Z.ltb_spec (d / 1000) 60); [reflexivity|div_lia].
  - exists (d / 60000), "m"%char. eval_unitMs.
    split; [|split; [simpl; tauto|div_lia]].
    unfold formatDelay.
    destruct (Z.ltb_spec d 1000); [lia|].
    destruct (Z.leb_spec two53 d); [unfold two53 in *; lia|].
    destruct (Z.ltb_spec (d / 1000) 60); [div_lia|].
    destruct (Z.ltb_spec (d / 1000 / 60) 60); [|div_lia].
    destruct (Z.ltb_spec 0 ((d / 1000) mod 60)); [div_lia|].
    replace (d / 1000 / 60) with (d / 60000) by div_lia. reflexivity.
  - exists (d / 3600000), "h"%char. eval_unitMs.
    split; [|split; [simpl; tauto|div_lia]].
    rewrite formatDelay_from_one_hour by (unfold two53; lia). cbv zeta.
    destruct (Z.ltb_spec (d / 60000 / 60) 24); [|div_lia].
    destruct (Z.ltb_spec 0 ((d / 60000) mod 60)); [div_lia|].
    replace (d / 60000 / 60) with (d / 3600000) by div_lia. reflexivity.
  - exists (d / 86400000), "d"%char. eval_unitMs.
    split; [|split; [simpl; tauto|div_lia]].
    rewrite formatDelay_from_one_hour by lia. cbv zeta.
    destruct (Z.ltb_spec (d / 60000 / 60) 24); [div_lia|].
    destruct (Z.ltb_spec 0 ((d / 60000 / 60) mod 24)); [div_lia|].
    replace (d / 60000 / 60 / 24) with (d / 86400000) by div_lia. reflexivity.
Qed.

(** X12.  [parseTime] reads what [formatDelay] writes: for a delay that is a
    whole number of seconds below a minute, of minutes below an hour, of
    hours below a day, or of days, the text of [formatDelay] is a valid
    input whose delay is the delay that was formatted. *)
Theorem formatDelay_parses_back :
  forall (clock : nat -> Z) (LocalTZA : Z -> bool -> Z)
         (momentParse : string -> Clock.M MomentOutcome)
         (momentAddWeek : Z -> Z) (d : Z) (k : nat),
    wholeUnit d ->
    parseTime clock LocalTZA momentParse momentAddWeek
              (formatDelay bigShow bigFormat (Num d)) k
    = ({| isValid := true; delayMs := Num d;
          timestamp := ofNumber (add (Num (clock k)) (Num d));
          error := None;
          originalInput := formatDelay bigShow bigFormat (Num d) |}, S k).
Proof.
  intros clock LocalTZA momentParse momentAddWeek d k Hd.
  assert (Hb : d < two53).
  { destruct Hd as [[H _]|[[H _]|[[H _]|[H _]]]]; unfold two53 in *; lia. }
  destruct (formatDelay_wholeUnit d Hd) as (n & u & -> & Hu & Hn & ->).
  destruct (showZ_digits n Hn) as (Hne & Hds & Hv).
  assert (Hlow : lowerChar u = u /\ In u unitLetters).
  { cbn in Hu. destruct Hu as [<-|[<-|[<-|[<-|[]]]]]; split;
      first [reflexivity | (simpl; tauto)]. }
  destruct Hlow as [Hlow Hin].
  pose proof (relative_duration_digits clock LocalTZA momentParse momentAddWeek
                (showZ n) u k Hne Hds Hin) as H.
  cbv zeta in H. rewrite Hv, Hlow in H. apply H; [exact Hn|exact Hb].
Qed.

End FormatThenParse.

Lemma formatDelay_parses_back_witness :
  parseTime Env.frozen Env.utc Env.momentRejects Env.addWeek
            (formatDelay showZ showZ (Num 7200000)) 0%nat
  = ({| isValid := true; delayMs := Num 7200000;
        timestamp := ofNumber (add (Num (Env.frozen 0%nat)) (Num 7200000));
        error := None;
        originalInput := formatDelay showZ showZ (Num 7200000) |}, 1%nat).
Proof.
  apply (formatDelay_parses_back showZ showZ Env.frozen Env.utc
           Env.momentRejects Env.addWeek 7200000 0%nat).
  right. right. left. split; [split; [discriminate|reflexivity]|reflexivity].
Defined.

(* ---------------------------------------------------------------- *)
(** ** Valid results carry a delay above zero *)

Lemma toNumber_not_NaN (z : Z) : toNumber z <> NaN.
Proof.
  unfold toNumber. destruct (_ <=? _); [destruct (_ <? _)|]; discriminate.
Qed.

(** A number that is not at or below zero is above zero, or is no number. *)
Lemma not_le_zero (a : number) : le a (Num 0) = false -> a = NaN \/ aboveZero a.
Proof.
  unfold aboveZero. destruct a as [x| | |]; cbn; intros H;
    try discriminate; auto.
  right. apply Z.ltb_lt. apply Z.leb_gt in H. exact H.
Qed.

Section ValidDelay.

Variable clock : nat -> Z.
Variable LocalTZA : Z -> bool -> Z.
Variable momentParse : string -> Clock.M MomentOutcome.
Variable momentAddWeek : Z -> Z.

Hypothesis clock_in_range : forall n, Z.abs (clock n) + 6 * msPerDay <= maxTime.

Lemma relative_valid_positive (s : string) (k : nat) :
  isValid (fst (parseRelativeTime clock s k)) = true ->
  aboveZero (delayMs (fst (parseRelativeTime clock s k))).
Proof.
  unfold parseRelativeTime.
  destruct (RELATIVE_TIME_REGEX s) as [[g1 g2]|] eqn:R; [|discriminate].
  assert (Hg : g1 <> "" /\ allDigits g1 = true).
  { unfold RELATIVE_TIME_REGEX in R. pose proof (spanDigits_digits s) as Hd.
    destruct (spanDigits s) as [[|d ds] [|u [|? ?]]]; try discriminate.
    destruct (isUnitLetter u); [|discriminate].
    injection R as <- _. split; [discriminate|exact Hd]. }
  destruct Hg as [Hne Hds].
  rewrite (parseInt_digits _ Hne Hds).
  pose proof (decimalValue_bounds _ Hds) as [Hn _].
  generalize dependent (decimalValue g1). intros n Hn.
  destruct (le (toNumber n) (Num 0)) eqn:Hle; [discriminate|].
  assert (Hpos : aboveZero (toNumber n)).
  { apply toNumber_positive. destruct (Z.eq_dec n 0) as [->|]; [discriminate Hle|lia]. }
  repeat match goal with
         | |- context [if String.eqb ?a ?b then _ else _] =>
             destruct (String.eqb a b)
         end;
    try discriminate; intros _;
    cbv [Clock.bind dateNow Clock.read Clock.ret]; cbn [fst delayMs];
    repeat (apply mul_positive; [|lia]); exact Hpos.
Qed.

Lemma dateTime_valid_positive (s : string) (k : nat) :
  (forall t b, Z.abs (LocalTZA t b) <= msPerDay) ->
  isValid (fst (parseDateTime clock LocalTZA s k)) = true ->
  exists d, delayMs (fst (parseDateTime clock LocalTZA s k)) = Num d /\ 0 < d.
Proof.
  intros Hz.
  destruct (DATE_TIME_REGEX s) as [[[[[[g1 g2] g3] g4] g5] g6]|] eqn:R.
  - assert (Hc : Z.abs (clock k) <= maxTime)
      by (pose proof (clock_in_range k); unfold msPerDay in *; lia).
    rewrite (parseDateTime_matched clock LocalTZA Hz s g1 g2 g3 g4 g5 g6 k R Hc).
    cbv zeta.
    match goal with
    | |- context [?t <=? ?n] => destruct (Z.leb_spec t n) as [|Hlt]
    end; [discriminate|].
    intros _. eexists. split; [reflexivity|lia].
  - unfold parseDateTime. rewrite R. discriminate.
Qed.

Lemma unix_valid_positive (s : string) (k : nat) :
  isValid (fst (parseUnixTimestamp clock s k)) = true ->
  exists d, delayMs (fst (parseUnixTimestamp clock s k)) = Num d /\ 0 < d.
Proof.
  unfold parseUnixTimestamp.
  destruct (UNIX_TIMESTAMP_REGEX s) eqn:R; cbn [negb]; [|discriminate].
  apply UNIX_TIMESTAMP_REGEX_spec in R as [Hd [Hlo Hhi]].
  pose proof (decimalValue_13 s Hd Hhi) as Hv.
  rewrite (parseInt_small s) by
    first [now apply digits_ne | exact Hd | (unfold two53; lia)].
  assert (Hc : Z.abs (clock k) <= maxTime)
    by (pose proof (clock_in_range k); unfold msPerDay in *; lia).
  assert (Htarget : exists t,
             (if strictEq (strLength s) (Num 10)
              then ofNumber (mul (Num (decimalValue s)) (Num 1000))
              else ofNumber (Num (decimalValue s))) = Num t
             /\ 0 <= t < 10000000000000).
  { unfold strLength. cbn [strictEq].
    destruct (Z.eqb_spec (Z.of_nat (String.length s)) 10) as [Hten|_].
    - pose proof (decimalValue_10 s Hd ltac:(lia)) as Hv10.
      rewrite mul_exact by (unfold two53; lia).
      exists (decimalValue s * 1000). split; [|lia].
      apply TimeClip_in_range. unfold maxTime. lia.
    - exists (decimalValue s). split; [|lia].
      apply TimeClip_in_range. unfold maxTime. lia. }
  destruct Htarget as (t & -> & Ht).
  cbv [Clock.bind newDate Clock.read Clock.ret]. cbn [le getTime].
  destruct (Z.leb_spec t (clock k)) as [|Hlt]; [discriminate|].
  intros _. cbn [fst delayMs]. unfold getTime.
  rewrite sub_exact by (unfold maxTime, two53 in *; lia).
  eexists. split; [reflexivity|lia].
Qed.

Lemma natural_valid_positive (s : string) (k : nat) :
  isValid (fst (parseNaturalLanguage clock momentParse momentAddWeek s k)) = true ->
  aboveZero (delayMs (fst (parseNaturalLanguage clock momentParse momentAddWeek
                                               s k))).
Proof.
  unfold parseNaturalLanguage, Clock.bind.
  destruct (momentParse (toLowerCase s) k) as [[| |p] k1]; try discriminate.
  cbv [Clock.read].
  match goal with
  | |- context [le ?d (Num 0)] => destruct (le d (Num 0)) eqn:Hle
  end; [discriminate|].
  intros _. cbv [Clock.ret]. cbn [fst delayMs].
  apply not_le_zero in Hle as [Hnan|Hpos]; [|exact Hpos].
  exfalso. unfold sub in Hnan. cbn [neg add] in Hnan.
  exact (toNumber_not_NaN _ Hnan).
Qed.

End ValidDelay.

Ltac family_cases :=
  cbv [failure Clock.bind newDate dateNow Clock.read Clock.ret];
  repeat match goal with
         | |- context [match ?x with _ => _ end] => destruct x
         end;
  cbn [fst isValid error];
  intros; congruence.

Lemma relative_valid_error (clock : nat -> Z) (s : string) (k : nat) :
  isValid (fst (parseRelativeTime clock s k)) = true ->
  error (fst (parseRelativeTime clock s k)) = None.
Proof. unfold parseRelativeTime. family_cases. Qed.

Lemma absolute_valid_error (clock : nat -> Z) (LocalTZA : Z -> bool -> Z)
      (s : string) (k : nat) :
  isValid (fst (parseAbsoluteTime clock LocalTZA s k)) = true ->
  error (fst (parseAbsoluteTime clock LocalTZA s k)) = None.
Proof. unfold parseAbsoluteTime. family_cases. Qed.

Lemma dateTime_valid_error (clock : nat -> Z) (LocalTZA : Z -> bool -> Z)
      (s : string) (k : nat) :
  isValid (fst (parseDateTime clock LocalTZA s k)) = true ->
  error (fst (parseDateTime clock LocalTZA s k)) = None.
Proof. unfold parseDateTime. family_cases. Qed.

Lemma unix_valid_error (clock : nat -> Z) (s : string) (k : nat) :
  isValid (fst (parseUnixTimestamp clock s k)) = true ->
  error (fst (parseUnixTimestamp clock s k)) = None.
Proof. unfold parseUnixTimestamp. family_cases. Qed.

Section ValidResults.

Variable clock : nat -> Z.
Variable LocalTZA : Z -> bool -> Z.
Variable momentParse : string -> Clock.M MomentOutcome.
Variable momentAddWeek : Z -> Z.

(** A valid result of [parseTime] is the valid result of one of the five
    families, run on the trimmed, lower-case input at some clock reading. *)
Lemma parseTime_valid_family (P : TimeParseResult -> Prop) (s : string) (k : nat) :
  let input := toLowerCase (trim s) in
  (forall n, isValid (fst (parseRelativeTime clock input n)) = true ->
             P (fst (parseRelativeTime clock input n))) ->
  (forall n, isValid (fst (parseAbsoluteTime clock LocalTZA input n)) = true ->
             P (fst (parseAbsoluteTime clock LocalTZA input n))) ->
  (forall n, isValid (fst (parseDateTime clock LocalTZA input n)) = true ->
             P (fst (parseDateTime clock LocalTZA input n))) ->
  (forall n, isValid (fst (parseUnixTimestamp clock input n)) = true ->
             P (fst (parseUnixTimestamp clock input n))) ->
  (forall n, isValid (fst (parseNaturalLanguage clock momentParse momentAddWeek
                                                input n)) = true ->
             P (fst (parseNaturalLanguage clock momentParse momentAddWeek
                                          input n))) ->
  isValid (fst (parseTime clock LocalTZA momentParse momentAddWeek s k)) = true ->
  P (fst (parseTime clock LocalTZA momentParse momentAddWeek s k)).
Proof.
  intros input H1 H2 H3 H4 H5. unfold parseTime, Clock.bind. fold input.
  pose proof (H1 k) as G1.
  destruct (parseRelativeTime clock input k) as [r1 k1].
  destruct (isValid r1) eqn:E1; [intros _; now apply G1|]. clear G1.
  pose proof (H2 k1) as G2.
  destruct (parseAbsoluteTime clock LocalTZA input k1) as [r2 k2].
  destruct (isValid r2) eqn:E2; [intros _; now apply G2|]. clear G2.
  pose proof (H3 k2) as G3.
  destruct (parseDateTime clock LocalTZA input k2) as [r3 k3].
  destruct (isValid r3) eqn:E3; [intros _; now apply G3|]. clear G3.
  pose proof (H4 k3) as G4.
  destruct (parseUnixTimestamp clock input k3) as [r4 k4].
  destruct (isValid r4) eqn:E4; [intros _; now apply G4|]. clear G4.
  pose proof (H5 k4) as G5.
  destruct (parseNaturalLanguage clock momentParse momentAddWeek input k4)
    as [r5 k5].
  destruct (isValid r5) eqn:E5; [intros _; now apply G5|].
  discriminate.
Qed.

Hypothesis clock_in_range : forall n, Z.abs (clock n) + 6 * msPerDay <= maxTime.
Hypothesis zone_bounded : forall t b, Z.abs (LocalTZA t b) <= msPerDay.

Lemma absolute_valid_number (s : string) (k : nat) :
  isValid (fst (parseAbsoluteTime clock LocalTZA s k)) = true ->
  exists d, delayMs (fst (parseAbsoluteTime clock LocalTZA s k)) = Num d.
Proof.
  destruct (ABSOLUTE_TIME_REGEX s) as [[[g1 g2] g3]|] eqn:R.
  - set (h := hour24 (option_map toLowerCase g3) (decimalValue g1)).
    set (m := decimalValue g2).
    destruct (Z.le_gt_cases h 23) as [Hh|Hh];
      [destruct (Z.le_gt_cases m 59) as [Hm|Hm]|].
    + rewrite (parseAbsoluteTime_valid clock LocalTZA zone_bounded s g1 g2 g3 k R
                 Hh Hm (clock_in_range k)).
      intros _. eexists. reflexivity.
    + rewrite (parseAbsoluteTime_invalid clock LocalTZA s g1 g2 g3 k R)
        by (right; exact Hm). discriminate.
    + rewrite (parseAbsoluteTime_invalid clock LocalTZA s g1 g2 g3 k R)
        by (left; exact Hh). discriminate.
  - unfold parseAbsoluteTime. rewrite R. discriminate.
Qed.

(** A valid result never carries a delay that is not a number. *)
Lemma parseTime_valid_not_NaN (s : string) (k : nat) :
  isValid (fst (parseTime clock LocalTZA momentParse momentAddWeek s k)) = true ->
  delayMs (fst (parseTime clock LocalTZA momentParse momentAddWeek s k)) <> NaN.
Proof.
  apply (parseTime_valid_family (fun r => delayMs r <> NaN)); intros n Hv.
  - pose proof (relative_valid_positive clock _ _ Hv) as Hp.
    intros E. rewrite E in Hp. discriminate Hp.
  - destruct (absolute_valid_number _ _ Hv) as (d & ->). discriminate.
  - destruct (dateTime_valid_positive clock LocalTZA clock_in_range _ _
                zone_bounded Hv) as (d & -> & _). discriminate.
  - destruct (unix_valid_positive clock clock_in_range _ _ Hv) as (d & -> & _).
    discriminate.
  - pose proof (natural_valid_positive clock momentParse momentAddWeek _ _ Hv)
      as Hp.
    intros E. rewrite E in Hp. discriminate Hp.
Qed.

End ValidResults.

Section ValidResultsFixedZone.

Variable clock : nat -> Z.
Variable offset : Z.
Variable momentParse : string -> Clock.M MomentOutcome.
Variable momentAddWeek : Z -> Z.

Hypothesis clock_in_range : forall n, Z.abs (clock n) + 6 * msPerDay <= maxTime.
Hypothesis offset_bounded : Z.abs offset <= msPerDay.

(** X13.  In a zone with a fixed offset of at most a day, and with a clock
    at least six days inside the range of [Date]: whatever the input, a
    valid result of [parseTime] carries a delay above zero and no error. *)
Theorem parseTime_valid_delay_positive (timeString : string) (k : nat) :
  let r := fst (parseTime clock (fun _ _ => offset) momentParse momentAddWeek
                          timeString k) in
  isValid r = true -> aboveZero (delayMs r) /\ error r = None.
Proof.
  intros r Hv. split.
  - revert Hv. unfold r.
    apply (parseTime_valid_family clock (fun _ _ => offset) momentParse
             momentAddWeek (fun r => aboveZero (delayMs r))); intros n Hv.
    + exact (relative_valid_positive clock _ _ Hv).
    + destruct (ABSOLUTE_TIME_REGEX (toLowerCase (trim timeString)))
        as [[[g1 g2] g3]|] eqn:R.
      * pose proof (absolute_fixed_zone clock offset offset_bounded
                      _ g1 g2 g3 n R (clock_in_range n)) as H.
        cbv zeta in H.
        destruct ((_ <=? 23) && (_ <=? 59)).
        -- destruct H as (_ & d & -> & Hd & _). unfold aboveZero. cbn.
           apply Z.ltb_lt. lia.
        -- destruct H as [H _]. congruence.
      * revert Hv. unfold parseAbsoluteTime. rewrite R. discriminate.
    + destruct (dateTime_valid_positive clock (fun _ _ => offset) clock_in_range
                  _ _ (fun _ _ => offset_bounded) Hv) as (d & -> & Hd).
      unfold aboveZero. cbn. now apply Z.ltb_lt.
    + destruct (unix_valid_positive clock clock_in_range _ _ Hv) as (d & -> & Hd).
      unfold aboveZero. cbn. now apply Z.ltb_lt.
    + exact (natural_valid_positive clock momentParse momentAddWeek _ _ Hv).
  - revert Hv. unfold r.
    apply (parseTime_valid_family clock (fun _ _ => offset) momentParse
             momentAddWeek (fun r => error r = None)); intros n.
    + apply relative_valid_error.
    + apply absolute_valid_error.
    + apply dateTime_valid_error.
    + apply unix_valid_error.
    + apply parseNaturalLanguage_result.
Qed.

End ValidResultsFixedZone.

Lemma parseTime_valid_delay_positive_witness :
  let r := fst (parseTime Env.frozen (fun _ _ => 3600000) Env.momentRejects
                          Env.addWeek "45m" 0%nat) in
  aboveZero (delayMs r) /\ error r = None.
Proof.
  apply (parseTime_valid_delay_positive Env.frozen 3600000 Env.momentRejects
           Env.addWeek).
  - intros n. vm_compute. discriminate.
  - vm_compute. discriminate.
  - reflexivity.
Defined.

(** X14.  Whatever the input, an invalid result of [parseTime] is this one
    record: a delay of zero, the clock reading as its time stamp, the input
    as it was given, neither trimmed nor put in lower case, and the general
    message about the input. *)
Theorem parseTime_invalid_result :
  forall (clock : nat -> Z) (LocalTZA : Z -> bool -> Z)
         (momentParse : string -> Clock.M MomentOutcome)
         (momentAddWeek : Z -> Z) (timeString : string) (k : nat),
    let run := parseTime clock LocalTZA momentParse momentAddWeek timeString k in
    isValid (fst run) = false ->
    exists n,
      run = ({| isValid := false; delayMs := Num 0; timestamp := Num (clock n);
                error := Some (unableToParse timeString);
                originalInput := timeString |}, S n).
Proof.
  intros clock LocalTZA momentParse momentAddWeek s k. cbv zeta.
  unfold parseTime, Clock.bind.
  destruct (parseRelativeTime clock (toLowerCase (trim s)) k) as [r1 k1].
  destruct (isValid r1) eqn:E1; [simpl; congruence|].
  destruct (parseAbsoluteTime clock LocalTZA (toLowerCase (trim s)) k1) as [r2 k2].
  destruct (isValid r2) eqn:E2; [simpl; congruence|].
  destruct (parseDateTime clock LocalTZA (toLowerCase (trim s)) k2) as [r3 k3].
  destruct (isValid r3) eqn:E3; [simpl; congruence|].
  destruct (parseUnixTimestamp clock (toLowerCase (trim s)) k3) as [r4 k4].
  destruct (isValid r4) eqn:E4; [simpl; congruence|].
  destruct (parseNaturalLanguage clock momentParse momentAddWeek
              (toLowerCase (trim s)) k4) as [r5 k5].
  destruct (isValid r5) eqn:E5; [simpl; congruence|].
  intros _. exists k5. reflexivity.
Qed.

Lemma parseTime_invalid_result_witness :
  exists n,
    parseTime Env.frozen Env.utc Env.momentRejects Env.addWeek "soon" 0%nat
    = ({| isValid := false; delayMs := Num 0; timestamp := Num (Env.frozen n);
          error := Some (unableToParse "soon");
          originalInput := "soon" |}, S n).
Proof.
  apply (parseTime_invalid_result Env.frozen Env.utc Env.momentRejects
           Env.addWeek "soon" 0%nat).
  reflexivity.
Defined.

(** X15.  In a zone with a fixed offset of at most a day, an input that the
    clock-time expression matches, H:MM with an optional am or pm: when the
    hour, after the am/pm conversion, is at most 23 and the minute at most
    59, [parseTime] returns a valid result whose delay is above zero and at
    most 24 hours and whose time stamp is the clock reading plus the delay;
    otherwise the clock-time family answers that the time values are
    invalid. *)
Theorem clock_time_within_a_day :
  forall (clock : nat -> Z) (offset : Z)
         (momentParse : string -> Clock.M MomentOutcome)
         (momentAddWeek : Z -> Z)
         (s g1 g2 : string) (g3 : option string) (k : nat),
    let input := toLowerCase (trim s) in
    let h := hour24 (option_map toLowerCase g3) (decimalValue g1) in
    let m := decimalValue g2 in
    ABSOLUTE_TIME_REGEX input = Some (g1, g2, g3) ->
    Z.abs offset <= msPerDay ->
    Z.abs (clock (S k)) + 6 * msPerDay <= maxTime ->
    if (h <=? 23) && (m <=? 59)
    then exists d,
           0 < d <= msPerDay
           /\ parseTime clock (fun _ _ => offset) momentParse momentAddWeek s k
              = ({| isValid := true; delayMs := Num d;
                    timestamp := Num (clock (S k) + d); error := None;
                    originalInput := input |}, S (S k))
    else parseAbsoluteTime clock (fun _ _ => offset) input (S k)
         = ({| isValid := false; delayMs := Num 0;
               timestamp := Num (clock (S k));
               error := Some "Invalid time values";
               originalInput := input |}, S (S k)).
Proof.
  intros clock offset momentParse momentAddWeek s g1 g2 g3 k input h m
         Hmatch Hoff Hclock.
  destruct (Z.leb_spec h 23) as [Hh|Hh]; cbn [andb].
  2:{ apply (parseAbsoluteTime_invalid clock _ input g1 g2 g3 (S k) Hmatch).
      left. exact Hh. }
  destruct (Z.leb_spec m 59) as [Hm|Hm].
  2:{ apply (parseAbsoluteTime_invalid clock _ input g1 g2 g3 (S k) Hmatch).
      right. exact Hm. }
  pose proof (parseTime_clock_time clock (fun _ _ => offset) momentParse
                momentAddWeek s g1 g2 g3 k Hmatch Hh Hm Hclock
                (fun _ _ => Hoff)) as Hrun.
  cbv zeta in Hrun. fold input h m in Hrun.
  pose proof Hmatch as Hg. unfold ABSOLUTE_TIME_REGEX in Hg.
  apply clockGroups_inv in Hg as (Hd1 & Hl1 & Hd2 & Hl2 & Hp).
  pose proof (decimalValue_two_digits g1 Hd1 ltac:(lia)) as Hv1.
  pose proof (decimalValue_two_digits g2 Hd2 ltac:(lia)) as Hv2.
  pose proof (hour24_range (option_map toLowerCase g3) (decimalValue g1) Hv1)
    as Hh0.
  pose proof (constant_zone_clock_time offset (clock (S k)) h m
                ltac:(unfold h; lia) ltac:(unfold m; lia)) as [_ Hin].
  cbv zeta in Hin.
  match type of Hrun with
  | _ = ({| isValid := _; delayMs := Num ?x; timestamp := _; error := _;
            originalInput := _ |}, _) => exists x
  end.
  split; [lia|]. rewrite Hrun. do 3 f_equal. lia.
Qed.

Lemma clock_time_within_a_day_witness :
  exists d,
    0 < d <= msPerDay
    /\ parseTime Env.frozen (fun _ _ => 3600000) Env.momentRejects Env.addWeek
                 " 9:30 PM " 0%nat
       = ({| isValid := true; delayMs := Num d;
             timestamp := Num (Env.frozen 1%nat + d); error := None;
             originalInput := toLowerCase (trim " 9:30 PM ") |}, 2%nat).
Proof.
  apply (clock_time_within_a_day Env.frozen 3600000 Env.momentRejects
           Env.addWeek " 9:30 PM " "9" "30" (Some "pm") 0%nat eq_refl).
  - vm_compute. discriminate.
  - vm_compute. discriminate.
Defined.

(* ================================================================== *)
(** * The Discord bot: reading and answering commands               *)
(* ================================================================== *)

Lemma spanNonSpace_spec (s : string) :
  s = fst (spanNonSpace s) ++ snd (spanNonSpace s)
  /\ anySpace (fst (spanNonSpace s)) = false.
Proof.
  induction s as [|c s [IH1 IH2]]; [split; reflexivity|].
  cbn [spanNonSpace]. destruct (isWhiteSpace c) eqn:W; [split; reflexivity|].
  destruct (spanNonSpace s) as [g r]. cbn [fst snd] in *.
  split; [cbn; now rewrite <- IH1|cbn; now rewrite W, IH2].
Qed.

Lemma spanNonSpace_word (t : string) :
  anySpace t = false -> spanNonSpace t = (t, "").
Proof.
  induction t as [|c t IH]; [reflexivity|].
  cbn. intros H. apply orb_false_elim in H as [W H].
  rewrite W, (IH H). reflexivity.
Qed.

Lemma trimStart_word (t : string) : anySpace t = false -> trimStart t = t.
Proof.
  destruct t as [|c t]; [reflexivity|].
  cbn. intros H. apply orb_false_elim in H as [W _]. now rewrite W.
Qed.

Lemma trimEnd_word (t : string) : anySpace t = false -> trimEnd t = t.
Proof.
  induction t as [|c t IH]; [reflexivity|].
  cbn [anySpace trimEnd]. intros H. apply orb_false_elim in H as [W H].
  rewrite (IH H). destruct t; [now rewrite W|reflexivity].
Qed.

Lemma timeFlagHere_inv (s g after : string) :
  timeFlagHere s = Some (g, after) ->
  exists w r, s = String "-" (String "t" (String w r))
              /\ isWhiteSpace w = true
              /\ spanNonSpace (trimStart r) = (g, after) /\ g <> "".
Proof.
  unfold timeFlagHere.
  destruct s as [|a s1]; [intros H; discriminate H|].
  destruct s1 as [|b s2]; [each_char a; intros H; discriminate H|].
  destruct s2 as [|w r];
    [each_char a; try (intros H; discriminate H);
     each_char b; intros H; discriminate H|].
  destruct (Ascii.eqb_spec a "-") as [->|N];
    [|each_char a; first [intros H; discriminate H | congruence]].
  destruct (Ascii.eqb_spec b "t") as [->|N];
    [|each_char b; first [intros H; discriminate H | congruence]].
  destruct (isWhiteSpace w) eqn:W; [|intros H; discriminate H].
  destruct (spanNonSpace (trimStart r)) as [[|c g'] r'] eqn:E;
    [intros H; discriminate H|].
  intros [= <- <-]. exists w, r. repeat split; [exact W|exact E|discriminate].
Qed.

Lemma timeFlagHere_token (s g after : string) :
  timeFlagHere s = Some (g, after) -> g <> "" /\ anySpace g = false.
Proof.
  intros H. apply timeFlagHere_inv in H as (w & r & _ & _ & E & N).
  split; [exact N|].
  pose proof (spanNonSpace_spec (trimStart r)) as [_ H].
  now rewrite E in H.
Qed.

Lemma timeFlag_token (s before g after : string) :
  timeFlag s = Some (before, g, after) -> g <> "" /\ anySpace g = false.
Proof.
  revert before g after. induction s as [|c s IH]; intros before g after.
  - cbn. intros H. discriminate H.
  - cbn [timeFlag].
    destruct (timeFlagHere (String c s)) as [[g' a']|] eqn:E.
    + intros [= _ <- _]. exact (timeFlagHere_token _ _ _ E).
    + destruct (timeFlag s) as [[[b' g'] a']|]; [|intros H; discriminate H].
      intros [= _ <- _]. exact (IH _ _ _ eq_refl).
Qed.

Lemma lowerChar_space (c : ascii) : isWhiteSpace (lowerChar c) = isWhiteSpace c.
Proof. each_char c; reflexivity. Qed.

Lemma toLowerCase_anySpace (s : string) : anySpace (toLowerCase s) = anySpace s.
Proof.
  induction s as [|c s IH]; [reflexivity|].
  cbn. now rewrite lowerChar_space, IH.
Qed.

Lemma spanDigits_split (s : string) :
  s = fst (spanDigits s) ++ snd (spanDigits s).
Proof.
  induction s as [|c s IH]; [reflexivity|].
  cbn [spanDigits]. destruct (isDigit c); [|reflexivity].
  destruct (spanDigits s) as [d r]. cbn [fst snd] in *. cbn. now rewrite <- IH.
Qed.

Lemma anySpace_app (a b : string) :
  anySpace (a ++ b) = anySpace a || anySpace b.
Proof.
  induction a as [|c a IH]; [reflexivity|].
  cbn. rewrite IH. now rewrite orb_assoc.
Qed.

Lemma anySpace_rest (s : string) :
  anySpace s = false -> anySpace (snd (spanDigits s)) = false.
Proof.
  intros H. rewrite (spanDigits_split s), anySpace_app in H.
  now apply orb_false_elim in H as [_ H].
Qed.

(** The date-time expression asks for white space between the date and the
    time: it matches no string that has none. *)
Lemma DATE_TIME_REGEX_needs_space (s : string) :
  anySpace s = false -> DATE_TIME_REGEX s = None.
Proof.
  intros H. unfold DATE_TIME_REGEX.
  pose proof (anySpace_rest s H) as H1.
  destruct (spanDigits s) as [mo r1]. cbn [snd] in H1.
  destruct ((1 <=? String.length mo) && (String.length mo <=? 2))%nat;
    [|reflexivity].
  destruct r1 as [|c1 r2]; [reflexivity|].
  destruct (Ascii.eqb_spec c1 "/") as [->|N];
    [|each_char c1; first [reflexivity | congruence]].
  cbn [anySpace] in H1. apply orb_false_elim in H1 as [_ H2].
  pose proof (anySpace_rest r2 H2) as H3.
  destruct (spanDigits r2) as [d r3]. cbn [snd] in H3.
  destruct ((1 <=? String.length d) && (String.length d <=? 2))%nat;
    [|reflexivity].
  destruct r3 as [|c3 r4]; [reflexivity|].
  destruct (Ascii.eqb_spec c3 "/") as [->|N];
    [|each_char c3; first [reflexivity | congruence]].
  cbn [anySpace] in H3. apply orb_false_elim in H3 as [_ H4].
  pose proof (anySpace_rest r4 H4) as H5.
  destruct (spanDigits r4) as [y r5]. cbn [snd] in H5.
  destruct (String.length y =? 4)%nat; [|reflexivity].
  destruct r5 as [|w r6]; [reflexivity|].
  cbn [anySpace] in H5. apply orb_false_elim in H5 as [W _].
  now rewrite W.
Qed.

(* ---------------------------------------------------------------- *)
(** ** The time of a reminder command is one word *)

(** X16.  The time that [parseReminderCommand] finds after [-t] is one word:
    it is not empty and holds no white space.  The date-time family, whose
    expression asks for white space between the date and the time, therefore
    finds no match in it: a date with a time cannot be given to [?remind]. *)
Theorem remind_time_is_one_word :
  forall (clock : nat -> Z) (LocalTZA : Z -> bool -> Z)
         (content before timeString after : string) (k : nat),
    timeFlag content = Some (before, timeString, after) ->
    timeString <> "" /\ anySpace timeString = false
    /\ parseDateTime clock LocalTZA (toLowerCase (trim timeString)) k
       = ({| isValid := false; delayMs := Num 0; timestamp := Num (clock k);
             error := None;
             originalInput := toLowerCase (trim timeString) |}, S k).
Proof.
  intros clock LocalTZA content before t after k H.
  destruct (timeFlag_token _ _ _ _ H) as [Hne Hsp].
  split; [exact Hne|]. split; [exact Hsp|].
  unfold trim. rewrite (trimStart_word t Hsp), (trimEnd_word t Hsp).
  unfold parseDateTime.
  rewrite DATE_TIME_REGEX_needs_space by (now rewrite toLowerCase_anySpace).
  reflexivity.
Qed.

Lemma remind_time_is_one_word_witness :
  "12/31/2024" <> "" /\ anySpace "12/31/2024" = false
  /\ parseDateTime Env.frozen Env.utc (toLowerCase (trim "12/31/2024")) 0%nat
     = ({| isValid := false; delayMs := Num 0;
           timestamp := Num (Env.frozen 0%nat); error := None;
           originalInput := toLowerCase (trim "12/31/2024") |}, 1%nat).
Proof.
  apply (remind_time_is_one_word Env.frozen Env.utc
           "Project deadline -t 12/31/2024 5pm"
           "Project deadline " "12/31/2024" " 5pm" 0%nat).
  reflexivity.
Defined.

(* ---------------------------------------------------------------- *)
(** ** Cancelling *)

Section CancelReplies.

Variable clock : nat -> Z.
Variable Store : Type.
Variable getJob : Store -> string -> Outcome (option Job).
Variable remove : Store -> Job -> Outcome Store.

(** X20.  [handleCancelCommand] hands exactly one embed to
    [safeSendMessage]: the request for a job id, the confirmation, or the
    notice that no reminder was found with that id; it never sends the
    notice that cancelling failed.  When [queue.getJob] rejects, the store
    is left as it was and the notice is that no reminder was found. *)
Theorem handleCancelCommand_replies (message : Message) (st : Store)
        (sent : list Embed) (k : nat) :
  let content := trim (slice 7 (msgContent message)) in
  exists st' e,
    handleCancelCommand clock Store getJob remove message (st, sent) k
    = ((st', (sent ++ [e])%list), S k)
    /\ (e = ErrorEmbed "Please provide a job ID to cancel. Use `?list` to see your reminders."
                       (Num (clock k))
        \/ e = ReminderCancelledEmbed
                 ("Successfully cancelled reminder with ID: " ++ content)
                 (Num (clock k))
        \/ e = ErrorEmbed ("No reminder found with ID: " ++ content)
                          (Num (clock k)))
    /\ (content <> "" -> (exists err, getJob st content = Threw err) ->
        st' = st
        /\ e = ErrorEmbed ("No reminder found with ID: " ++ content)
                          (Num (clock k))).
Proof.
  intros content. unfold handleCancelCommand. fold content.
  destruct content as [|c r] eqn:Ec.
  - exists st. eexists. split; [reflexivity|]. split; [now left|].
    intros N. now contradiction N.
  - unfold cancelReminder. cbn [fst snd].
    destruct (getJob st (String c r)) as [[job|]|err] eqn:G.
    + destruct (remove st job) as [st'|err].
      * exists st'. eexists. split; [reflexivity|]. split; [right; now left|].
        intros _ (err & [=]).
      * exists st. eexists. split; [reflexivity|]. split; [right; now right|].
        intros _ (err' & [=]).
    + exists st. eexists. split; [reflexivity|]. split; [right; now right|].
      intros _ (err' & [=]).
    + exists st. eexists. split; [reflexivity|]. split; [right; now right|].
      intros _ _. split; reflexivity.
Qed.

End CancelReplies.

(* ---------------------------------------------------------------- *)
(** ** Reading a reminder command *)

Lemma timeFlagHere_other (c : ascii) (s : string) :
  c <> "-"%char -> timeFlagHere (String c s) = None.
Proof.
  intros N. unfold timeFlagHere.
  each_char c; first [reflexivity | congruence].
Qed.

Lemma timeFlagHere_word (t : string) :
  t <> "" -> anySpace t = false -> timeFlagHere ("-t " ++ t) = Some (t, "").
Proof.
  intros Hne Hsp. cbn [String.append timeFlagHere].
  change (isWhiteSpace " ") with true. cbv iota.
  rewrite (trimStart_word t Hsp), (spanNonSpace_word t Hsp).
  destruct t; [congruence|reflexivity].
Qed.

Lemma timeFlag_found (msg t : string) :
  occurs "-" msg = false -> t <> "" -> anySpace t = false ->
  timeFlag (msg ++ " -t " ++ t) = Some (msg ++ " ", t, "").
Proof.
  intros Hm Hne Hsp. induction msg as [|c msg IH].
  - cbn [String.append]. cbn [timeFlag].
    rewrite (timeFlagHere_other " " _) by discriminate.
    change (String "-" (String "t" (String " " t))) with ("-t " ++ t).
    destruct t as [|a t']; [congruence|].
    cbn [String.append]. cbn [timeFlag].
    change (String "-" (String "t" (String " " (String a t'))))
      with ("-t " ++ String a t').
    rewrite (timeFlagHere_word (String a t') Hne Hsp). reflexivity.
  - cbn [occurs] in Hm. apply orb_false_elim in Hm as [Hc Hm].
    specialize (IH Hm). cbn [String.append] in IH |- *. cbn [timeFlag].
    rewrite timeFlagHere_other by (intros ->; discriminate Hc).
    rewrite IH. reflexivity.
Qed.

Lemma trimEnd_space (s : string) (w : ascii) :
  isWhiteSpace w = true -> trimEnd (s ++ String w "") = trimEnd s.
Proof.
  intros W. induction s as [|c s IH].
  - cbn. now rewrite W.
  - cbn [String.append trimEnd]. now rewrite IH.
Qed.

Lemma append_empty (s : string) : s ++ "" = s.
Proof. induction s as [|c s IH]; [reflexivity|cbn; now rewrite IH]. Qed.

Lemma trimStart_length (s : string) :
  (String.length (trimStart s) <= String.length s)%nat.
Proof.
  induction s as [|c s IH]; [cbn; lia|].
  cbn [trimStart]. destruct (isWhiteSpace c); cbn [String.length]; lia.
Qed.

(** A text that [trimStart] leaves alone, when it is not empty, starts with
    a character that is no white space. *)
Lemma trimStart_fixed (s : string) :
  trimStart s = s -> s <> "" ->
  exists c r, s = String c r /\ isWhiteSpace c = false.
Proof.
  destruct s as [|c r]; [congruence|]. intros H _.
  exists c, r. split; [reflexivity|].
  destruct (isWhiteSpace c) eqn:W; [|reflexivity].
  cbn [trimStart] in H. rewrite W in H.
  pose proof (trimStart_length r) as L. rewrite H in L. cbn in L. lia.
Qed.

Lemma trimStart_app_fixed (s r : string) :
  trimStart s = s -> s <> "" -> trimStart (s ++ r) = s ++ r.
Proof.
  intros H N. destruct (trimStart_fixed s H N) as (c & s' & -> & W).
  cbn. now rewrite W.
Qed.

Section ReadCommand.

Variable clock : nat -> Z.
Variable LocalTZA : Z -> bool -> Z.
Variable momentParse : string -> Clock.M MomentOutcome.
Variable momentAddWeek : Z -> Z.

Local Abbreviation parseReminderCommand' :=
  (parseReminderCommand clock LocalTZA momentParse momentAddWeek).
Local Abbreviation parseTime' :=
  (parseTime clock LocalTZA momentParse momentAddWeek).

(** X17.  A command text made of a message without a hyphen that is not
    blank, the flag [-t] and one word: [parseReminderCommand] hands the word
    to [parseTime]; when the result is valid, the command is valid with the
    trimmed message and the delay and time stamp of the result; when it is
    not, the command is invalid with the trimmed message, a delay of zero, a
    fresh clock reading and the error of the result. *)
Theorem parseReminderCommand_reads (msg t : string) (k : nat) :
  occurs "-" msg = false -> trim msg <> "" ->
  t <> "" -> anySpace t = false ->
  parseReminderCommand' (msg ++ " -t " ++ t) k =
  let timeResult := fst (parseTime' t k) in
  let k' := snd (parseTime' t k) in
  if isValid timeResult
  then ({| cmdMessage := trim msg; cmdDelayMs := delayMs timeResult;
           cmdTimestamp := timestamp timeResult; cmdIsValid := true;
           cmdError := None |}, k')
  else ({| cmdMessage := trim msg; cmdDelayMs := Num 0;
           cmdTimestamp := Num (clock k'); cmdIsValid := false;
           cmdError := error timeResult |}, S k').
Proof.
  intros Hm Hmsg Hne Hsp. unfold parseReminderCommand.
  rewrite (timeFlag_found msg t Hm Hne Hsp), append_empty.
  assert (Ht : trim (msg ++ " ") = trim msg).
  { unfold trim. destruct (trimStart msg) as [|c r] eqn:E.
    - exfalso. apply Hmsg. unfold trim. now rewrite E.
    - assert (Es : trimStart (msg ++ " ") = String c r ++ " ").
      { clear Hmsg Hm. revert E. induction msg as [|a m IH];
          [discriminate|].
        cbn [String.append trimStart].
        destruct (isWhiteSpace a); [exact IH|].
        intros [= -> ->]. reflexivity. }
      rewrite Es. now apply trimEnd_space. }
  rewrite Ht. destruct (trim msg) as [|c r] eqn:E; [congruence|].
  unfold Clock.bind. destruct (parseTime' t k) as [timeResult k'].
  cbn [fst snd]. destruct (isValid timeResult); reflexivity.
Qed.

End ReadCommand.

Lemma parseReminderCommand_reads_witness :
  parseReminderCommand Env.frozen Env.utc Env.momentRejects Env.addWeek
                       ("Call mom" ++ " -t " ++ "45m") 0%nat
  = ({| cmdMessage := "Call mom"; cmdDelayMs := Num 2700000;
        cmdTimestamp := Num 1705315500000; cmdIsValid := true;
        cmdError := None |}, 1%nat).
Proof.
  apply (parseReminderCommand_reads Env.frozen Env.utc Env.momentRejects
           Env.addWeek "Call mom" "45m" 0%nat).
  - reflexivity.
  - discriminate.
  - discriminate.
  - reflexivity.
Defined.

(* ---------------------------------------------------------------- *)
(** ** What a reminder command can put in the queue *)

Lemma validateDelay_valid_number (bigShow : Z -> string) (delay : number)
      (maxDays : Z) :
  0 < maxDays -> maxDays * 86400000 < two53 -> delay <> NaN ->
  dvIsValid (validateDelay bigShow delay (Some (Num maxDays))) = true ->
  exists d, delay = Num d /\ 0 < d <= maxDays * 86400000.
Proof.
  intros Hpos Hmax Hnan. unfold validateDelay.
  rewrite (maxMs_exact maxDays Hpos Hmax).
  destruct delay as [d| | |]; [| | |congruence].
  - cbn [le gt lt].
    destruct (Z.leb_spec d 0); [intros E; discriminate E|].
    destruct (Z.ltb_spec (maxDays * 86400000) d); [intros E; discriminate E|].
    intros _. exists d. split; [reflexivity|lia].
  - cbn. intros E. discriminate E.
  - cbn. intros E. discriminate E.
Qed.

Section RemindLimit.

Variable clock : nat -> Z.
Variable LocalTZA : Z -> bool -> Z.
Variable momentParse : string -> Clock.M MomentOutcome.
Variable momentAddWeek : Z -> Z.
Variable bigShow : Z -> string.
Variable bigFormat : Z -> string.
Variable toISOString : Z -> string.
Variable toLocaleString : Date -> string.
Variable Store : Type.
Variable queueAdd : Store -> Job -> Outcome Store.
Variable maxDays : Z.

Hypothesis clock_in_range : forall n, Z.abs (clock n) + 6 * msPerDay <= maxTime.
Hypothesis zone_bounded : forall t b, Z.abs (LocalTZA t b) <= msPerDay.
Hypothesis maxDays_positive : 0 < maxDays.
Hypothesis maxDays_exact : maxDays * 86400000 < two53.

Lemma parseReminderCommand_valid (content : string) (k : nat) :
  let parsed := fst (parseReminderCommand clock LocalTZA momentParse
                                          momentAddWeek content k) in
  cmdIsValid parsed = true -> cmdDelayMs parsed <> NaN.
Proof.
  cbv zeta. unfold parseReminderCommand.
  destruct (timeFlag content) as [[[before t] after]|];
    [|intros H; discriminate H].
  destruct (trim (before ++ after)); [intros H; discriminate H|].
  unfold Clock.bind.
  pose proof (parseTime_valid_not_NaN clock LocalTZA momentParse momentAddWeek
                clock_in_range zone_bounded t k) as Hn.
  destruct (parseTime clock LocalTZA momentParse momentAddWeek t k)
    as [timeResult k'].
  cbn [fst] in Hn. destruct (isValid timeResult); cbn [negb];
    [|intros H; discriminate H].
  intros _. cbn [fst cmdDelayMs]. now apply Hn.
Qed.

(** X18.  Whatever the message, [handleRemindCommand] leaves the store as it
    was, or it has added one job: a job named [reminder], of the author of
    the message, whose delay is a number of milliseconds above zero and at
    most the configured number of days.  The clock is at least six days
    inside the range of [Date], the zone offset at most a day, and the
    number of days positive and exact in milliseconds. *)
Theorem handleRemindCommand_within_limit (message : Message) (st : Store)
        (sent : list Embed) (k : nat) :
  let after :=
    fst (fst (handleRemindCommand clock LocalTZA momentParse momentAddWeek
                bigShow bigFormat toISOString toLocaleString (Num maxDays)
                Store queueAdd message (st, sent) k)) in
  after = st
  \/ exists job d,
       queueAdd st job = Returned after
       /\ name job = "reminder"
       /\ userId (data job) = msgAuthorId message
       /\ delay (opts job) = Some (Num d)
       /\ 0 < d <= maxDays * 86400000.
Proof.
  cbv zeta. unfold handleRemindCommand.
  destruct (trim (slice 7 (msgContent message))) as [|c r]; [now left|].
  unfold Clock.bind.
  pose proof (parseReminderCommand_valid (String c r) k) as Hv. cbv zeta in Hv.
  destruct (parseReminderCommand clock LocalTZA momentParse momentAddWeek
              (String c r) k) as [parsed k1].
  cbn [fst] in Hv.
  destruct (cmdIsValid parsed); cbn [negb]; [|now left].
  specialize (Hv eq_refl).
  pose proof (validateDelay_valid_number bigShow (cmdDelayMs parsed) maxDays
                maxDays_positive maxDays_exact Hv) as Hd.
  destruct (dvIsValid (validateDelay bigShow (cmdDelayMs parsed)
                                     (Some (Num maxDays))));
    cbn [negb]; [|now left].
  destruct (Hd eq_refl) as (d & Ed & Hrange).
  unfold addReminder, Clock.bind, Clock.read, Clock.ret. cbn [fst snd].
  match goal with
  | |- context [queueAdd st ?j] =>
      destruct (queueAdd st j) as [st'|err] eqn:Q; [|now left];
      right; exists j, d
  end.
  split.
  - rewrite Q. f_equal. destruct (ofNumber _); reflexivity.
  - cbn. rewrite Ed. repeat split; lia.
Qed.

End RemindLimit.

Lemma handleRemindCommand_within_limit_witness :
  let after :=
    fst (fst (handleRemindCommand Env.frozen Env.utc Env.momentRejects
                Env.addWeek showZ showZ showZ (fun _ => "1/15/2024")
                (Num 30) (list Job) Env.listAdd Samples.remindMessage
                ([], []) 0%nat)) in
  after = []
  \/ exists job d,
       Env.listAdd [] job = Returned after
       /\ name job = "reminder"
       /\ userId (data job) = msgAuthorId Samples.remindMessage
       /\ delay (opts job) = Some (Num d)
       /\ 0 < d <= 30 * 86400000.
Proof.
  apply (handleRemindCommand_within_limit Env.frozen Env.utc Env.momentRejects
           Env.addWeek showZ showZ showZ (fun _ => "1/15/2024")
           (list Job) Env.listAdd 30).
  - intros n. vm_compute. discriminate.
  - intros t b. vm_compute. discriminate.
  - reflexivity.
  - reflexivity.
Defined.

(* ---------------------------------------------------------------- *)
(** ** A reminder command, from the message to the queue *)

Lemma append_assoc3 (a b c : string) : (a ++ b) ++ c = a ++ b ++ c.
Proof. induction a as [|x a IH]; [reflexivity|cbn; now rewrite IH]. Qed.

Lemma occurs_digits (ds : string) : allDigits ds = true -> anySpace ds = false.
Proof.
  induction ds as [|c ds IH]; [reflexivity|].
  cbn. intros H. apply andb_prop in H as [Hc H].
  destruct (isDigit_facts c Hc) as (W & _). now rewrite W, IH.
Qed.

Lemma trim_message_space (msg : string) :
  trimStart msg = msg -> trimEnd msg = msg -> msg <> "" ->
  trim (msg ++ " ") = msg.
Proof.
  intros Hs He Hn. unfold trim.
  rewrite (trimStart_app_fixed msg " " Hs Hn).
  rewrite trimEnd_space by reflexivity. exact He.
Qed.

Section EndToEnd.

Variable clock : nat -> Z.
Variable LocalTZA : Z -> bool -> Z.
Variable momentParse : string -> Clock.M MomentOutcome.
Variable momentAddWeek : Z -> Z.
Variable bigShow : Z -> string.
Variable bigFormat : Z -> string.
Variable toISOString : Z -> string.
Variable toLocaleString : Date -> string.
Variable Store : Type.
Variable queueAdd : Store -> Job -> Outcome Store.
Variable getJob : Store -> string -> Outcome (option Job).
Variable remove : Store -> Job -> Outcome Store.
Variable handleListCommand : Message -> (Store * list Embed) -> Clock.M (Store * list Embed).
Variable handleHelpCommand : Message -> (Store * list Embed) -> Clock.M (Store * list Embed).
Variable handleStatusCommand : Message -> (Store * list Embed) -> Clock.M (Store * list Embed).
Variable handleCalendarCommand : Message -> (Store * list Embed) -> Clock.M (Store * list Embed).

(** X19.  From the message to the queue.  A message of a user that reads
    [?remind], a text, [-t], a positive number [n] and a unit letter, where
    the text is not empty, has no white space at either end and no hyphen,
    and [n] units are within the configured limit: [handleMessage] hands
    [queue.add] the job of that text, due in [n] units, of that author,
    channel and message.  If [queue.add] resolves, the store is the one it
    gives and the reply is the embed that confirms the reminder, with the
    formatted delay and the id of the job; if it rejects, the store is as it
    was and the reply is the notice that scheduling failed. *)
Theorem remind_command_schedules (message : Message) (msg : string) (n : Z)
        (u : ascii) (maxDays : Z) (st : Store) (sent : list Embed) (k : nat) :
  let due := n * unitMs (lowerChar u) in
  let job := reminderJob bigShow toISOString message msg due
                         (clock (1 + k)) (clock (2 + k)) in
  msgAuthorBot message = false ->
  msgContent message = "?remind " ++ msg ++ " -t " ++ showZ n ++ String u "" ->
  msg <> "" -> trimStart msg = msg -> trimEnd msg = msg ->
  occurs "-" msg = false ->
  0 < n -> In u unitLetters ->
  0 < maxDays -> maxDays * 86400000 < two53 -> due <= maxDays * 86400000 ->
  Z.abs (clock (3 + k)) + due <= maxTime ->
  handleMessage clock LocalTZA momentParse momentAddWeek bigShow bigFormat
                toISOString toLocaleString (Num maxDays) Store queueAdd
                getJob remove handleListCommand handleHelpCommand
                handleStatusCommand handleCalendarCommand
                message (st, sent) k
  = match queueAdd st job with
    | Returned st' =>
        ((st', (sent ++
                [ReminderSetEmbed
                   ("**Message:** " ++ msg)
                   ("In " ++ formatDelay bigShow bigFormat (Num due) ++ " ("
                    ++ toLocaleString (ofNumber (add (Num (clock k)) (Num due)))
                    ++ ")")
                   (id job) (Num (clock (4 + k)))])%list),
         (5 + k)%nat)
    | Threw _ =>
        ((st, (sent ++
               [ErrorEmbed "Failed to schedule your reminder. Please try again."
                           (Num (clock (3 + k)))])%list),
         (4 + k)%nat)
    end.
Proof.
  intros due job Hbot Hcontent Hne Hs He Hm Hn Hu Hmax1 Hmax2 Hdue Hlog.
  destruct (showZ_digits n Hn) as (Hdne & Hds & Hv).
  pose proof Hu as Hu'. apply unitLetters_spec in Hu'.
  destruct (unitLetter_facts u Hu') as (_ & Hw & _).
  set (t := showZ n ++ String u "").
  assert (Ht : t <> "" /\ anySpace t = false).
  { unfold t. split; [destruct (showZ n); discriminate|].
    rewrite anySpace_app, (occurs_digits _ Hds). cbn. now rewrite Hw. }
  destruct Ht as [Htne Htsp].
  assert (Hend : trimEnd (msg ++ " -t " ++ t) = msg ++ " -t " ++ t).
  { unfold t. rewrite <- !append_assoc3. apply trimEnd_last. exact Hw. }
  destruct (trimStart_fixed msg Hs Hne) as (c & m & Emsg & Wc).
  assert (Hcontent' : trim (" " ++ msg ++ " -t " ++ t) = msg ++ " -t " ++ t).
  { unfold trim. cbn [String.append trimStart].
    change (isWhiteSpace " ") with true. cbv iota.
    rewrite (trimStart_app_fixed msg _ Hs Hne). exact Hend. }
  assert (Hcmd : trim ("remind " ++ msg ++ " -t " ++ t)
                 = "remind " ++ msg ++ " -t " ++ t).
  { unfold trim.
    assert (Es : trimStart ("remind " ++ msg ++ " -t " ++ t)
                 = "remind " ++ msg ++ " -t " ++ t) by reflexivity.
    assert (Ea : "remind " ++ msg ++ " -t " ++ t
                 = ("remind " ++ msg ++ " -t " ++ showZ n) ++ String u "")
      by (unfold t; now rewrite !append_assoc3).
    rewrite Es, Ea. apply trimEnd_last. exact Hw. }
  assert (Hpos : 0 < due).
  { unfold due. destruct (lower_unit_letter u Hu) as (Hl & _ & _).
    repeat (destruct Hl as [<-|Hl]; [eval_unitMs; lia|]). destruct Hl. }
  (* the dispatch *)
  unfold handleMessage. rewrite Hbot, Hcontent. fold t.
  change (startsWith "?" ("?remind " ++ msg ++ " -t " ++ t)) with true.
  cbn [orb negb].
  change (slice 1 ("?remind " ++ msg ++ " -t " ++ t))
    with ("remind " ++ msg ++ " -t " ++ t).
  rewrite Hcmd.
  change (startsWith "remind" ("remind " ++ msg ++ " -t " ++ t)) with true.
  cbv iota.
  (* the handler *)
  unfold handleRemindCommand. rewrite Hcontent. fold t.
  change (slice 7 ("?remind " ++ msg ++ " -t " ++ t))
    with (" " ++ msg ++ " -t " ++ t).
  rewrite Hcontent'.
  assert (Hshape : exists r, msg ++ " -t " ++ t = String c r)
    by (rewrite Emsg; eexists; reflexivity).
  destruct Hshape as (r & Er). rewrite Er. cbv iota. rewrite <- Er. clear r Er.
  (* the command *)
  assert (Hcommand :
            parseReminderCommand clock LocalTZA momentParse momentAddWeek
                                 (msg ++ " -t " ++ t) k
            = ({| cmdMessage := msg; cmdDelayMs := Num due;
                  cmdTimestamp := ofNumber (add (Num (clock k)) (Num due));
                  cmdIsValid := true; cmdError := None |}, S k)).
  { unfold parseReminderCommand.
    rewrite (timeFlag_found msg t Hm Htne Htsp), append_empty.
    rewrite (trim_message_space msg Hs He Hne).
    rewrite Emsg. cbv iota. rewrite <- Emsg.
    pose proof (relative_duration_digits clock LocalTZA momentParse momentAddWeek
                  (showZ n) u k Hdne Hds Hu) as Hparse.
    cbv zeta in Hparse. rewrite Hv in Hparse. fold due t in Hparse.
    unfold Clock.bind.
    rewrite Hparse by (first [exact Hn | unfold due in *; lia]).
    reflexivity. }
  unfold Clock.bind at 1. rewrite Hcommand.
  cbv beta iota zeta delta [cmdIsValid cmdDelayMs cmdMessage cmdTimestamp negb].
  (* the limit *)
  assert (Hlimit : validateDelay bigShow (Num due) (Some (Num maxDays))
                   = {| dvIsValid := true; dvError := None |}).
  { unfold validateDelay. rewrite (maxMs_exact maxDays Hmax1 Hmax2).
    unfold gt. cbn [le lt].
    destruct (Z.leb_spec due 0); [lia|].
    destruct (Z.ltb_spec (maxDays * 86400000) due); [lia|]. reflexivity. }
  rewrite Hlimit. cbv beta iota zeta delta [dvIsValid negb].
  (* the queue *)
  unfold addReminder, Clock.bind, Clock.read, Clock.ret.
  cbn [fst snd orString orElse].
  change (queueAdd st _) with (queueAdd st job).
  destruct (queueAdd st job) as [st'|err]; [|reflexivity].
  rewrite add_exact by (unfold maxTime, two53 in *; cbn [Nat.add] in Hlog; lia).
  unfold ofNumber at 1.
  rewrite TimeClip_in_range by (cbn [Nat.add] in Hlog; lia).
  reflexivity.
Qed.

End EndToEnd.

Lemma remind_command_schedules_witness :
  handleMessage Samples.ticking Env.utc Env.momentRejects Env.addWeek
                showZ showZ showZ (fun _ => "1/15/2024") (Num 30)
                (list Job) Env.listAdd
                (fun _ _ => Returned None) (fun q _ => Returned q)
                (fun _ w => Clock.ret w) (fun _ w => Clock.ret w)
                (fun _ w => Clock.ret w) (fun _ w => Clock.ret w)
                Samples.remindMessage ([], []) 0%nat
  = (([reminderJob showZ showZ Samples.remindMessage "Call mom" 2700000
                   1705312800001 1705312800002],
      [ReminderSetEmbed "**Message:** Call mom" "In 45m (1/15/2024)"
                        "remind-1001-1705312800002" (Num 1705312800004)]),
     5%nat).
Proof.
  apply (remind_command_schedules Samples.ticking Env.utc Env.momentRejects
           Env.addWeek showZ showZ showZ (fun _ => "1/15/2024")
           (list Job) Env.listAdd
           (fun _ _ => Returned None) (fun q _ => Returned q)
           (fun _ w => Clock.ret w) (fun _ w => Clock.ret w)
           (fun _ w => Clock.ret w) (fun _ w => Clock.ret w)
           Samples.remindMessage "Call mom" 45 "m"%char 30 [] [] 0%nat).
  - reflexivity.
  - reflexivity.
  - discriminate.
  - reflexivity.
  - reflexivity.
  - reflexivity.
  - reflexivity.
  - simpl. tauto.
  - reflexivity.
  - reflexivity.
  - vm_compute. discriminate.
  - vm_compute. discriminate.
Defined.

(* ================================================================== *)
(** * The worker: retries                                           *)
(* ================================================================== *)

Lemma startsWith_app (p s b : string) :
  startsWith p s = true -> startsWith p (s ++ b) = true.
Proof.
  revert s. induction p as [|c p IH]; intros s; [reflexivity|].
  destruct s as [|x s]; [intros H; discriminate H|].
  cbn [startsWith String.append]. intros H. apply andb_prop in H as [H1 H2].
  now rewrite H1, (IH _ H2).
Qed.

Lemma includes_app_r (s p b : string) :
  includes s p = true -> includes (s ++ b) p = true.
Proof.
  induction s as [|c s IH].
  - cbn [includes]. rewrite orb_false_r. intros H.
    destruct p; [destruct b; reflexivity|discriminate H].
  - cbn [includes String.append]. intros H.
    apply orb_prop in H as [H|H].
    + change (String c (s ++ b)) with (String c s ++ b).
      rewrite (startsWith_app _ _ b H). reflexivity.
    + rewrite (IH H). apply orb_true_r.
Qed.

Lemma includes_app_l (a s p : string) :
  includes s p = true -> includes (a ++ s) p = true.
Proof.
  intros H. induction a as [|c a IH]; [exact H|].
  cbn [String.append includes]. rewrite IH. apply orb_true_r.
Qed.

Lemma lowerChar_idempotent (c : ascii) : lowerChar (lowerChar c) = lowerChar c.
Proof. each_char c; reflexivity. Qed.

Lemma toLowerCase_idempotent (s : string) :
  toLowerCase (toLowerCase s) = toLowerCase s.
Proof.
  induction s as [|c s IH]; [reflexivity|].
  cbn. now rewrite lowerChar_idempotent, IH.
Qed.

(** X21.  [shouldRetry] does not tell upper case from lower case, and an
    error message that contains a retryable message is retryable, whatever
    precedes and follows it. *)
Theorem shouldRetry_in_context (before errorMessage after : string) :
  shouldRetry (toLowerCase errorMessage) = shouldRetry errorMessage
  /\ (shouldRetry errorMessage = true ->
      shouldRetry (before ++ errorMessage ++ after) = true).
Proof.
  split.
  - unfold shouldRetry. now rewrite toLowerCase_idempotent.
  - unfold shouldRetry. intros H.
    apply existsb_exists in H as (kw & Hin & Hkw).
    apply existsb_exists. exists kw. split; [exact Hin|].
    rewrite !toLowerCase_app. now apply includes_app_l, includes_app_r.
Qed.

(* ---------------------------------------------------------------- *)
(** ** The failure handler retries once *)

Section RetryOnce.

Variable clock : nat -> Z.
Variable bigShow : Z -> string.

Local Abbreviation onFailed' := (onFailed clock bigShow (list Job) Env.listAdd).

(** X22.  The handler of the worker's [failed] event adds a job to the queue
    exactly when the failed job is named [reminder] and the message of the
    error is retryable: one job, named [reminder-retry], with the data of
    the failed job and one attempt.  When that retry job fails in its turn,
    whatever the error, the handler leaves the queue as it is: a reminder is
    retried once. *)
Theorem retry_is_final (job : Job) (e : Thrown) (q : list Job) (k : nat) :
  let after := fst (onFailed' job e q k) in
  if String.eqb (name job) "reminder"
     && match e with
        | ErrorObject m => shouldRetry m
        | OtherValue => false
        end
  then exists retry,
         after = (q ++ [retry])%list
         /\ name retry = "reminder-retry"
         /\ data retry = data job
         /\ attempts (opts retry) = Some (Num 1)
         /\ forall e' q' k', onFailed' retry e' q' k' = (q', k')
  else after = q.
Proof.
  cbv zeta. unfold onFailed, handleFailedJob.
  destruct (String.eqb (name job) "reminder"); cbn [andb]; [|reflexivity].
  destruct e as [m|]; [|reflexivity].
  destruct (shouldRetry m); [|reflexivity].
  unfold scheduleRetry, Clock.bind, Clock.read, Clock.ret.
  cbn [Env.listAdd fst]. eexists. split; [reflexivity|].
  cbn [name data opts attempts]. repeat split.
Qed.

End RetryOnce.

(* ---------------------------------------------------------------- *)
(** ** Forcing a job *)

Section ForceFacts.

Variable clock : nat -> Z.
Variable audioCall : Outcome TwilioCallResult.
Variable ttsCall : Outcome TwilioCallResult.
Variable Store : Type.
Variable getJob : Store -> string -> Outcome (option Job).

(** X24.  [forceProcessJob] always resolves, and it resolves with [true]
    exactly when [queue.getJob] found the job, whether the phone call went
    through or not. *)
Theorem forceProcessJob_outcome (st : Store) (jobId : string) (k : nat) :
  exists b k',
    forceProcessJob clock audioCall ttsCall Store getJob st jobId k
    = (Returned b, k')
    /\ (b = true <-> exists job, getJob st jobId = Returned (Some job)).
Proof.
  unfold forceProcessJob.
  destruct (getJob st jobId) as [[job|]|e].
  - destruct (processReminderJob_returns clock audioCall ttsCall job k)
      as (rv & Hrv).
    unfold Clock.bind. rewrite Hrv. exists true, (S k).
    split; [reflexivity|]. split; [intros _; now exists job|reflexivity].
  - exists false, k. split; [reflexivity|].
    split; [intros H; discriminate H|intros (job & [=])].
  - exists false, k. split; [reflexivity|].
    split; [intros H; discriminate H|intros (job & [=])].
Qed.

End ForceFacts.

(* ---------------------------------------------------------------- *)
(** ** The older worker retries every failed call *)

Section CompletedFacts.

Variable clock : nat -> Z.
Variable bigShow : Z -> string.
Variable audioCall : Outcome TwilioCallResult.
Variable ttsCall : Outcome TwilioCallResult.

Hypothesis audio_fails : failing audioCall.
Hypothesis tts_fails : failing ttsCall.

Local Abbreviation processCompletedJob' :=
  (processCompletedJob clock bigShow (list Job) Env.listAdd audioCall ttsCall).

Lemma processCompletedJob_failing (job : Job) (result : ReminderJobResult)
      (q : list Job) (k : nat) :
  exists retry final,
    processCompletedJob' job result q k = (final, (q ++ [retry])%list, S k)
    /\ resultSuccess final = false
    /\ name retry = "reminder-retry"
    /\ data retry = data job
    /\ id retry = "retry-" ++ id job ++ "-" ++ showNumber bigShow (Num (clock k)).
Proof.
  unfold processCompletedJob.
  assert (Hcall : failing (match audioFile (data job) with
                           | Some (String _ _) => audioCall
                           | _ => ttsCall
                           end)).
  { destruct (audioFile (data job)) as [[|c r]|]; assumption. }
  destruct (match audioFile (data job) with
            | Some (String _ _) => audioCall
            | _ => ttsCall
            end) as [callResult|e]; cbn [failing] in Hcall.
  - rewrite Hcall.
    unfold scheduleRetry, Clock.bind, Clock.read, Clock.ret.
    cbn [Env.listAdd]. do 2 eexists. split; [reflexivity|]. repeat split.
  - unfold scheduleRetry, Clock.bind, Clock.read, Clock.ret.
    cbn [Env.listAdd]. do 2 eexists. split; [reflexivity|]. repeat split.
Qed.

(** X25.  The older worker, which places the call when a job has completed.
    When the calls fail, by a result without success or by raising,
    [processCompletedJob] marks the result as failed and adds a retry job
    with the data of the job, whatever the name of the job and whatever the
    error; handed that retry job, it adds a retry of the retry: no name and
    no count of attempts is looked at. *)
Theorem processCompletedJob_retries (job : Job)
        (result result' : ReminderJobResult) (q : list Job) (k : nat) :
  exists retry retry' final final',
    processCompletedJob' job result q k = (final, (q ++ [retry])%list, S k)
    /\ processCompletedJob' retry result' (q ++ [retry])%list (S k)
       = (final', (q ++ [retry; retry'])%list, S (S k))
    /\ resultSuccess final = false /\ resultSuccess final' = false
    /\ name retry = "reminder-retry" /\ name retry' = "reminder-retry"
    /\ data retry = data job /\ data retry' = data job
    /\ id retry' = "retry-retry-" ++ id job ++ "-"
                   ++ showNumber bigShow (Num (clock k)) ++ "-"
                   ++ showNumber bigShow (Num (clock (S k))).
Proof.
  destruct (processCompletedJob_failing job result q k)
    as (retry & final & E & S1 & N1 & D1 & I1).
  destruct (processCompletedJob_failing retry result' (q ++ [retry])%list (S k))
    as (retry' & final' & E' & S2 & N2 & D2 & I2).
  exists retry, retry', final, final'.
  rewrite <- app_assoc in E'. cbn [app] in E'.
  repeat split; try assumption.
  - congruence.
  - rewrite I2, I1. cbn [String.append].
    rewrite !append_assoc3. reflexivity.
Qed.

End CompletedFacts.

Lemma processCompletedJob_retries_witness :
  exists retry retry' final final',
    processCompletedJob Env.frozen showZ (list Job) Env.listAdd
                        Samples.refused Samples.refused Env.sampleJob
                        Samples.placeholder [] 0%nat
    = (final, ([] ++ [retry])%list, 1%nat)
    /\ processCompletedJob Env.frozen showZ (list Job) Env.listAdd
                           Samples.refused Samples.refused retry
                           Samples.placeholder ([] ++ [retry])%list 1%nat
       = (final', ([] ++ [retry; retry'])%list, 2%nat)
    /\ resultSuccess final = false /\ resultSuccess final' = false
    /\ name retry = "reminder-retry" /\ name retry' = "reminder-retry"
    /\ data retry = data Env.sampleJob /\ data retry' = data Env.sampleJob
    /\ id retry' = "retry-retry-" ++ id Env.sampleJob ++ "-"
                   ++ showNumber showZ (Num (Env.frozen 0%nat)) ++ "-"
                   ++ showNumber showZ (Num (Env.frozen 1%nat)).
Proof.
  apply (processCompletedJob_retries Env.frozen showZ Samples.refused
           Samples.refused).
  - reflexivity.
  - reflexivity.
Defined.

(** X23.  When a job named [reminder], with a delay of [d] milliseconds and
    a priority [p], fails with a retryable error, the retry job that the
    handler adds is due after the smaller of five minutes and [d], counted
    from the failure, has priority [p + 1] and one attempt, and its id is
    made of [retry-], the id of the failed job and the clock reading. *)
Theorem retry_delay_and_priority :
  forall (clock : nat -> Z) (bigShow : Z -> string)
         (job : Job) (m : string) (q : list Job) (k : nat) (d p : Z),
    name job = "reminder" -> shouldRetry m = true ->
    delay (opts job) = Some (Num d) -> priority (opts job) = Some (Num p) ->
    0 <= d -> 0 <= p < two53 - 1 ->
    exists retry,
      onFailed clock bigShow (list Job) Env.listAdd job (ErrorObject m) q k
      = ((q ++ [retry])%list, S k)
      /\ delay (opts retry) = Some (Num (Z.min 300000 d))
      /\ priority (opts retry) = Some (Num (p + 1))
      /\ attempts (opts retry) = Some (Num 1)
      /\ jobId (opts retry) = Some (id retry)
      /\ id retry = "retry-" ++ id job ++ "-" ++ showNumber bigShow (Num (clock k)).
Proof.
  intros clock bigShow job m q k d p Hname Hretry Hd Hp Hd0 Hp0.
  unfold onFailed, handleFailedJob. rewrite Hname, Hretry.
  change ("reminder" =? "reminder")%string with true. cbv iota.
  rewrite (scheduleRetry_options clock bigShow (list Job) Env.listAdd job q k d p
             Hd Hp Hd0 Hp0).
  cbn [Env.listAdd]. eexists. split; [reflexivity|]. repeat split.
Qed.

Lemma retry_delay_and_priority_witness :
  exists retry,
    onFailed Env.frozen showZ (list Job) Env.listAdd Env.sampleJob
             (ErrorObject "connect ETIMEDOUT") [] 0%nat
    = (([] ++ [retry])%list, 1%nat)
    /\ delay (opts retry) = Some (Num (Z.min 300000 30000))
    /\ priority (opts retry) = Some (Num (0 + 1))
    /\ attempts (opts retry) = Some (Num 1)
    /\ jobId (opts retry) = Some (id retry)
    /\ id retry = "retry-" ++ id Env.sampleJob ++ "-"
                  ++ showNumber showZ (Num (Env.frozen 0%nat)).
Proof.
  apply (retry_delay_and_priority Env.frozen showZ Env.sampleJob
           "connect ETIMEDOUT" [] 0%nat 30000 0).
  - reflexivity.
  - reflexivity.
  - reflexivity.
  - reflexivity.
  - discriminate.
  - split; [discriminate|reflexivity].
Defined.

(* ================================================================== *)
(** * The Redis connection: reading the server report               *)
(* ================================================================== *)

Lemma splitLines_cons (a : ascii) (s : string) :
  a <> cr -> splitLines (String a s) = consFirst a (splitLines s).
Proof.
  intros N. cbn [splitLines]. destruct s as [|b s']; [reflexivity|].
  destruct (Ascii.eqb_spec a cr) as [E|_]; [contradiction|reflexivity].
Qed.

Lemma splitLines_one (l : string) : oneLine l -> splitLines l = [l].
Proof.
  unfold oneLine. induction l as [|a l IH]; [reflexivity|].
  cbn [occurs]. intros H. apply orb_false_elim in H as [Ha Hl].
  rewrite splitLines_cons by (intros ->; discriminate Ha).
  now rewrite (IH Hl).
Qed.

Lemma splitLines_line (l s : string) :
  oneLine l -> splitLines (l ++ crlf ++ s) = l :: splitLines s.
Proof.
  unfold oneLine. induction l as [|a l IH]; [reflexivity|].
  cbn [occurs]. intros H. apply orb_false_elim in H as [Ha Hl].
  cbn [String.append].
  rewrite splitLines_cons by (intros ->; discriminate Ha).
  now rewrite (IH Hl).
Qed.

Lemma splitLines_concat (l : string) (lines : list string) :
  Forall oneLine (l :: lines) ->
  splitLines (String.concat crlf (l :: lines)) = l :: lines.
Proof.
  revert l. induction lines as [|l' lines IH]; intros l H.
  - cbn [String.concat]. apply splitLines_one. now inversion H.
  - inversion H as [|? ? Hl Hrest]; subst.
    change (String.concat crlf (l :: l' :: lines))
      with (l ++ crlf ++ String.concat crlf (l' :: lines)).
    rewrite (splitLines_line l _ Hl), (IH l' Hrest). reflexivity.
Qed.

Lemma splitColon_key (key s : string) :
  occurs ":" key = false -> splitColon (key ++ ":" ++ s) = key :: splitColon s.
Proof.
  induction key as [|a key IH]; [reflexivity|].
  cbn [occurs]. intros H. apply orb_false_elim in H as [Ha Hk].
  cbn [String.append splitColon]. rewrite Ha.
  change (key ++ String ":" s) with (key ++ ":" ++ s).
  now rewrite (IH Hk).
Qed.

Lemma splitColon_plain (value : string) :
  occurs ":" value = false -> splitColon value = [value].
Proof.
  induction value as [|a value IH]; [reflexivity|].
  cbn [occurs]. intros H. apply orb_false_elim in H as [Ha Hv].
  cbn [splitColon]. rewrite Ha, (IH Hv). reflexivity.
Qed.

Lemma splitColon_value (value rest : string) :
  occurs ":" value = false ->
  rest = "" \/ (exists w, rest = String ":" w) ->
  exists more, splitColon (value ++ rest) = value :: more.
Proof.
  intros Hv [->|(w & ->)].
  - rewrite append_empty. exists []. now apply splitColon_plain.
  - exists (splitColon w). now apply (splitColon_key value w).
Qed.

Lemma includes_colon (key s : string) : includes (key ++ ":" ++ s) ":" = true.
Proof.
  induction key as [|a key IH]; [reflexivity|].
  cbn [String.append includes].
  change (key ++ String ":" s) with (key ++ ":" ++ s).
  rewrite IH. apply orb_true_r.
Qed.

Lemma readLine_entry (result : InfoRecord) (key value rest : string) :
  occurs ":" key = false -> occurs ":" value = false ->
  key <> "__proto__" ->
  rest = "" \/ (exists w, rest = String ":" w) ->
  readLine result (key ++ ":" ++ value ++ rest) = (key, Some value) :: result.
Proof.
  intros Hk Hv Hp Hrest. unfold readLine.
  rewrite includes_colon, (splitColon_key key _ Hk).
  destruct (splitColon_value value rest Hv Hrest) as (more & ->).
  cbn [hd nth_error]. unfold assign.
  destruct (String.eqb_spec key "__proto__"); [contradiction|reflexivity].
Qed.

Lemma readLine_other (result : InfoRecord) (line key : string) :
  (includes line ":" = true -> keyOf line <> key) ->
  getOwn (readLine result line) key = getOwn result key.
Proof.
  intros H. unfold readLine.
  destruct (includes line ":"); [|reflexivity].
  specialize (H eq_refl). unfold keyOf in H. cbv zeta. unfold assign.
  destruct (String.eqb (hd "" (splitColon line)) "__proto__"); [reflexivity|].
  cbn [getOwn].
  destruct (String.eqb_spec (hd "" (splitColon line)) key);
    [contradiction|reflexivity].
Qed.

Lemma readLines_other (lines : list string) (key : string) :
  Forall (fun l => includes l ":" = true -> keyOf l <> key) lines ->
  forall result,
    getOwn (fold_left readLine lines result) key = getOwn result key.
Proof.
  induction 1 as [|l lines Hl _ IH]; intros result; [reflexivity|].
  cbn [fold_left]. rewrite IH. now apply readLine_other.
Qed.

(** X26.  [getInfo] on a report whose lines are separated by a carriage
    return and a line feed and hold no carriage return themselves: for a
    line made of a key, a colon and a value, the object returned holds the
    value under the key, provided that the key is not [__proto__] and that
    no later line has the same key.  Of a value that holds a colon, what
    precedes the colon is kept and the rest is dropped. *)
Theorem getInfo_reads (before after : list string) (key value rest : string) :
  let line := key ++ ":" ++ value ++ rest in
  let lines := (before ++ [line] ++ after)%list in
  occurs ":" key = false -> occurs ":" value = false ->
  key <> "__proto__" ->
  rest = "" \/ (exists w, rest = String ":" w) ->
  Forall oneLine lines ->
  Forall (fun l => includes l ":" = true -> keyOf l <> key) after ->
  exists result,
    getInfo (Some (Returned (String.concat crlf lines))) = Returned result
    /\ getOwn result key = Some (Some value).
Proof.
  intros line lines Hk Hv Hp Hrest Hlines Hafter. unfold getInfo.
  eexists. split; [reflexivity|].
  assert (Hsplit : splitLines (String.concat crlf lines) = lines).
  { unfold lines in *. destruct before as [|l before];
      cbn [app] in *; now apply splitLines_concat. }
  rewrite Hsplit. unfold lines.
  rewrite !fold_left_app. cbn [fold_left].
  rewrite (readLines_other after key Hafter). unfold line.
  rewrite (readLine_entry _ key value rest Hk Hv Hp Hrest).
  cbn [getOwn]. now rewrite String.eqb_refl.
Qed.

Lemma getInfo_reads_witness :
  exists result,
    getInfo (Some (Returned
      (String.concat crlf
         (["# Server"; "redis_version:7.2.4"]
          ++ ["executable:/usr/local/bin/redis-server"]
          ++ ["# Clients"; "connected_clients:3"; ""])%list)))
    = Returned result
    /\ getOwn result "executable" = Some (Some "/usr/local/bin/redis-server").
Proof.
  apply (getInfo_reads ["# Server"; "redis_version:7.2.4"]
           ["# Clients"; "connected_clients:3"; ""]
           "executable" "/usr/local/bin/redis-server" "").
  - reflexivity.
  - reflexivity.
  - discriminate.
  - left. reflexivity.
  - repeat constructor.
  - repeat constructor; discriminate.
Defined.

(* ---------------------------------------------------------------- *)

Lemma usedMemoryHere_other (c : ascii) (s : string) :
  c <> "u"%char -> usedMemoryHere (String c s) = None.
Proof.
  intros N. unfold usedMemoryHere. cbn [afterPrefix].
  destruct (Ascii.eqb_spec "u" c) as [E|_]; [congruence|reflexivity].
Qed.

Lemma usedMemoryMatch_here (s g : string) :
  usedMemoryHere s = Some g -> usedMemoryMatch s = Some g.
Proof. intros H. destruct s; cbn [usedMemoryMatch]; now rewrite H. Qed.

Lemma showZ_shape (n : Z) :
  0 <= n -> showZ n <> "" /\ allDigits (showZ n) = true /\ decimalValue (showZ n) = n.
Proof.
  intros Hn. destruct (Z.eq_dec n 0) as [->|Hz].
  - repeat split. discriminate.
  - apply showZ_digits. lia.
Qed.

(** X27.  [getMemoryUsage] on a report that holds [used_memory:] followed by
    the digits of a number below 2^53 and then no further digit, with no
    letter u before it: the number is returned. *)
Theorem getMemoryUsage_reads (before rest : string) (n : Z) :
  occurs "u" before = false -> 0 <= n < two53 ->
  rest = "" \/ (exists c r, rest = String c r /\ isDigit c = false) ->
  getMemoryUsage (Some (Returned (before ++ "used_memory:" ++ showZ n ++ rest)))
  = Returned (Num n).
Proof.
  intros Hb Hn Hrest. unfold getMemoryUsage. f_equal.
  destruct (showZ_shape n ltac:(lia)) as (Hne & Hds & Hv).
  assert (Hhere : usedMemoryHere ("used_memory:" ++ showZ n ++ rest)
                  = Some (showZ n)).
  { unfold usedMemoryHere.
    change (afterPrefix "used_memory:" ("used_memory:" ++ showZ n ++ rest))
      with (Some (showZ n ++ rest)).
    assert (Hspan : fst (spanDigits (showZ n ++ rest)) = showZ n).
    { destruct Hrest as [->|(c & r & -> & Hc)].
      - now rewrite append_empty, (spanDigits_all _ Hds).
      - now rewrite (spanDigits_stop _ c r Hds Hc). }
    cbv iota beta. rewrite Hspan. destruct (showZ n); [congruence|reflexivity]. }
  assert (Hmatch : usedMemoryMatch (before ++ "used_memory:" ++ showZ n ++ rest)
                   = Some (showZ n)).
  { induction before as [|c before IH].
    - change (usedMemoryMatch ("used_memory:" ++ showZ n ++ rest)
              = Some (showZ n)).
      now apply usedMemoryMatch_here.
    - cbn [occurs] in Hb. apply orb_false_elim in Hb as [Hc Hb].
      cbn [String.append usedMemoryMatch].
      rewrite usedMemoryHere_other by (intros ->; discriminate Hc).
      exact (IH Hb). }
  rewrite Hmatch. rewrite parseInt_small; [now rewrite Hv|exact Hne|exact Hds|lia].
Qed.

Lemma getMemoryUsage_reads_witness :
  getMemoryUsage
    (Some (Returned (String.concat crlf ["# Memory"] ++ crlf ++ "used_memory:"
                     ++ showZ 1048576
                     ++ String cr (String lf "used_memory_human:1.00M"))))
  = Returned (Num 1048576).
Proof.
  apply (getMemoryUsage_reads (String.concat crlf ["# Memory"] ++ crlf)
           (String cr (String lf "used_memory_human:1.00M")) 1048576).
  - reflexivity.
  - split; [discriminate|reflexivity].
  - right. exists cr, (String lf "used_memory_human:1.00M").
    split; reflexivity.
Defined.
